(** * powerplan: the CPU capability and control layer (src/cpu.py)

    A shallow embedding of the functions of [cpu.py] that read and write
    the kernel's control files, of the capability dictionary [CPU] and of
    the RAPL energy meter, with the properties of the specification that
    concern them.

    Conventions of the embedding.
    - Text is [string] (files are taken to hold ASCII text).
    - Python [int] is [Z]; Python [float] is the binary64 type [float] of
      the Standard Library, with the IEEE operations of [PrimFloat].
    - The file system is a finite map from path to content, together with
      the set of paths that refuse a write and the log of the writes that
      were performed; a directory exists when a path of the map lies in it.
    - A Python exception is a value of [exn]; a function that touches the
      file system is a state transformer returning [Ok] or [Err]. *)

From Stdlib Require Import ZArith NArith Lia List Sorted.
From Stdlib Require Import Ascii String DecimalString DecimalN.
From Stdlib Require Import Floats.
From stdpp Require Import gmap strings.

Import ListNotations.
Local Open Scope string_scope.
Local Open Scope list_scope.
Local Open Scope Z_scope.

(** ** Python exceptions and results *)

Inductive exn : Type :=
  | FileNotFoundError
  | PermissionError
  | ValueError
  | AssertionError
  | KeyError
  | AttributeError
  | IndexError
  | ZeroDivisionError
  | OverflowError.

Inductive result (A : Type) : Type :=
  | Ok (a : A)
  | Err (e : exn).

Arguments Ok {A} a.
Arguments Err {A} e.

(** The error kinds of the specification (section 7), and the kind under
    which each Python exception of the code falls.  A failed [assert] on a
    requested value is the code's form of [InvalidValueError]. *)
Inductive error_kind : Type :=
  | NotFoundError
  | PermissionDenied
  | ParseError
  | InvalidValueError
  | OtherError.

Definition kind_of (e : exn) : error_kind :=
  match e with
  | FileNotFoundError => NotFoundError
  | PermissionError => PermissionDenied
  | ValueError => ParseError
  | AssertionError => InvalidValueError
  | _ => OtherError
  end.

(** ** Python text operations *)

Module Py.

(** [str.isspace] on the ASCII range: tab to carriage return, the four
    separators 28..31 and the blank. *)
Definition is_space (c : ascii) : bool :=
  let n := N_of_ascii c in
  ((9 <=? n) && (n <=? 13) || (28 <=? n) && (n <=? 32))%N.

Fixpoint lstrip (s : string) : string :=
  match s with
  | String c r => if is_space c then lstrip r else s
  | EmptyString => EmptyString
  end.

(** Removes trailing blanks: a blank is kept only when something that is
    not blank follows it. *)
Fixpoint rstrip (s : string) : string :=
  match s with
  | EmptyString => EmptyString
  | String c r =>
      match rstrip r with
      | EmptyString => if is_space c then EmptyString else String c EmptyString
      | r' => String c r'
      end
  end.

(** [s.strip()] *)
Definition strip (s : string) : string := rstrip (lstrip s).

(** [file.readline()]: the text up to and including the first newline. *)
Fixpoint readline (s : string) : string :=
  match s with
  | EmptyString => EmptyString
  | String c r =>
      if Ascii.eqb c "010" then String c EmptyString else String c (readline r)
  end.

(** [c in s] for a one-character [c]. *)
Fixpoint contains (c : ascii) (s : string) : bool :=
  match s with
  | EmptyString => false
  | String d r => Ascii.eqb d c || contains c r
  end.

(** [s.split(sep)] for a one-character separator: never empty. *)
Fixpoint split (sep : ascii) (s : string) : list string :=
  match s with
  | EmptyString => [EmptyString]
  | String c r =>
      if Ascii.eqb c sep then EmptyString :: split sep r
      else match split sep r with
           | h :: t => String c h :: t
           | [] => [String c EmptyString]
           end
  end.

(** [sep.join(l)] *)
Fixpoint join (sep : ascii) (l : list string) : string :=
  match l with
  | [] => EmptyString
  | [x] => x
  | x :: r => x +:+ String sep (join sep r)
  end.

Definition is_digit (c : ascii) : bool :=
  let n := N_of_ascii c in ((48 <=? n) && (n <=? 57))%N.

(** The digits of an [int] literal: single underscores are allowed between
    two digits and dropped.  [prev] tells whether the previous character
    was a digit. *)
Fixpoint drop_underscores (prev : bool) (s : string) : option string :=
  match s with
  | EmptyString => if prev then Some EmptyString else None
  | String c r =>
      if is_digit c then
        match drop_underscores true r with
        | Some t => Some (String c t)
        | None => None
        end
      else if Ascii.eqb c "_" then
        if prev then
          match r with
          | String d _ => if is_digit d then drop_underscores false r else None
          | EmptyString => None
          end
        else None
      else None
  end.

(** The value of a non-empty run of decimal digits. *)
Definition digits_value (s : string) : option Z :=
  match s with
  | EmptyString => None
  | _ =>
      match NilEmpty.uint_of_string s with
      | Some d => Some (Z.of_N (N.of_uint d))
      | None => None
      end
  end.

Definition unsigned_literal (s : string) : option Z :=
  match drop_underscores false s with
  | Some t => digits_value t
  | None => None
  end.

(** [int(s)] in base ten: blanks around, an optional sign, digits. *)
Definition int (s : string) : result Z :=
  let body := strip s in
  let parsed :=
    match body with
    | String "-" r => option_map Z.opp (unsigned_literal r)
    | String "+" r => unsigned_literal r
    | _ => unsigned_literal body
    end in
  match parsed with
  | Some z => Ok z
  | None => Err ValueError
  end.

(** [str(z)], also what an f-string inserts for an [int]. *)
Definition str (z : Z) : string :=
  match z with
  | Zneg p => String "-" (NilEmpty.string_of_uint (N.to_uint (Npos p)))
  | _ => NilEmpty.string_of_uint (N.to_uint (Z.to_N z))
  end.

(** [list(range(a, b))] *)
Definition range (a b : Z) : list Z :=
  map (fun i => a + Z.of_nat i) (seq 0 (Z.to_nat (b - a))).

(** [Path(p).with_name(name)]: the last component of [p] replaced. *)
Fixpoint parent_prefix (p : string) : string :=
  match p with
  | EmptyString => EmptyString
  | String c r =>
      if contains "/" r then String c (parent_prefix r)
      else if Ascii.eqb c "/" then String c EmptyString else EmptyString
  end.

Definition with_name (p name : string) : string := parent_prefix p +:+ name.

End Py.

(** ** The file system and the monad of the control functions *)

Record fs : Type := mkFs {
  files : gmap string string;      (* path |-> content *)
  locked : gset string;            (* paths whose write raises PermissionError *)
  log : list (string * string)     (* the writes performed, oldest first *)
}.

Definition M (A : Type) : Type := fs -> result A * fs.

Definition ret {A} (a : A) : M A := fun st => (Ok a, st).

Definition raise {A} (e : exn) : M A := fun st => (Err e, st).

Definition bind {A B} (m : M A) (k : A -> M B) : M B :=
  fun st =>
    match m st with
    | (Ok a, st') => k a st'
    | (Err e, st') => (Err e, st')
    end.

Definition lift {A} (r : result A) : M A := fun st => (r, st).

Declare Scope py_scope.
Delimit Scope py_scope with py.
Notation "x <- m ;; k" := (bind m (fun x => k))
  (at level 100, m at next level, right associativity) : py_scope.
Notation "m ;;; k" := (bind m (fun _ => k))
  (at level 100, right associativity) : py_scope.
Local Open Scope py_scope.

(** [assert b] *)
Definition assert (b : bool) : M unit :=
  if b then ret tt else raise AssertionError.

(** [for x in l: body x]; an exception leaves the loop. *)
Fixpoint for_each {A} (l : list A) (body : A -> M unit) : M unit :=
  match l with
  | [] => ret tt
  | x :: r => body x ;;; for_each r body
  end.

(** [Path(p).exists()] *)
Definition path_exists (p : string) (st : fs) : bool :=
  bool_decide (is_Some (files st !! p)).

Definition exists_ (p : string) : M bool := fun st => (Ok (path_exists p st), st).

(** [Path(p).read_text()] *)
Definition read_text (p : string) : M string :=
  fun st =>
    match files st !! p with
    | Some v => (Ok v, st)
    | None => (Err FileNotFoundError, st)
    end.

(** [d] names a directory that exists.  Directories are not stored: one
    exists when a path of the map lies in it, at any depth; the working
    directory and the root always exist.  [d] ends in its slash, as
    [Py.parent_prefix] returns it. *)
Definition dir_exists (d : string) (st : fs) : bool :=
  String.eqb d "" || String.eqb d "/" ||
  existsb (fun kv => String.prefix d (fst kv)) (map_to_list (files st)).

(** [Path(p).write_text(v)], that is [open(p, 'w')] and a write: the
    directory of [p] has to exist ([FileNotFoundError] otherwise), the
    file is created when it is missing, and a locked path refuses the
    write; otherwise the file holds [v] afterwards and the write is
    logged.  These are the two failures a control file can meet; a
    directory in the place of the file is not modelled. *)
Definition write_text (p v : string) : M unit :=
  fun st =>
    if negb (dir_exists (Py.parent_prefix p) st) then (Err FileNotFoundError, st)
    else if bool_decide (p ∈ locked st) then (Err PermissionError, st)
    else (Ok tt, mkFs (<[p := v]> (files st)) (locked st) (log st ++ [(p, v)])%list).

(** A control file that is there and accepts a write. *)
Definition writable (st : fs) (p : string) : Prop :=
  is_Some (files st !! p) /\ p ∉ locked st.

#[global] Instance writable_dec (st : fs) (p : string) : Decision (writable st p).
Proof. unfold writable. apply _. Defined.

(** [read_datafile(path, dtype)]: first line, stripped, converted. *)
Definition read_datafile {A} (path : string) (dtype : string -> result A) : M A :=
  data <- read_text path ;;
  lift (dtype (Py.strip (Py.readline data))).

Definition dtype_str (s : string) : result string := Ok s.

(** ** Paths *)

Definition POWER_DIR : string := "/sys/class/power_supply/".
Definition SYSTEM_DIR : string := "/sys/devices/system/".
Definition CPU_DIR : string := SYSTEM_DIR +:+ "cpu/".
Definition CPUFREQ_DIR : string := CPU_DIR +:+ "cpu0/cpufreq/".

(** [CPU_DIR + f'cpu{core_id}/' + leaf] *)
Definition core_file (core_id : Z) (leaf : string) : string :=
  CPU_DIR +:+ "cpu" +:+ Py.str core_id +:+ "/" +:+ leaf.

Definition governor_path (core_id : Z) : string :=
  core_file core_id "cpufreq/scaling_governor".
Definition policy_path (core_id : Z) : string :=
  core_file core_id "cpufreq/energy_performance_preference".
Definition online_path (core_id : Z) : string :=
  core_file core_id "online".

(** ** Core lists *)

Fixpoint result_bind_list (l : list string) (f : string -> result (list Z))
  : result (list Z) :=
  match l with
  | [] => Ok []
  | x :: r =>
      match f x with
      | Ok a =>
          match result_bind_list r f with
          | Ok b => Ok (a ++ b)%list
          | Err e => Err e
          end
      | Err e => Err e
      end
  end.

(** One entry of a core list: [a-b] or a single number. *)
Definition cpu_range_to_list (cpu_range : string) : result (list Z) :=
  if Py.contains "-" cpu_range then
    match Py.split "-" cpu_range with
    | [start; end_] =>
        match Py.int start with
        | Ok a =>
            match Py.int end_ with
            | Ok b => Ok (Py.range a (b + 1))
            | Err e => Err e
            end
        | Err e => Err e
        end
    | _ => Err ValueError
    end
  else
    match Py.int cpu_range with
    | Ok a => Ok [a]
    | Err e => Err e
    end.

Definition cpu_ranges_to_list (cpu_ranges : list string) : result (list Z) :=
  result_bind_list cpu_ranges cpu_range_to_list.

Definition string_in (x : string) (l : list string) : bool :=
  bool_decide (x ∈ l).

Definition list_cores (status : string) : M (list Z) :=
  assert (string_in status ["offline"; "online"; "present"]) ;;;
  cpu_ranges <- read_datafile (CPU_DIR +:+ status) dtype_str ;;
  if String.eqb cpu_ranges "" then ret []
  else lift (cpu_ranges_to_list (Py.split "," cpu_ranges)).

(** ** The capability dictionary

    [CPU] is a Python dict whose keys are added by the module's start-up
    code, some of them on one branch only.  A key that may be missing is an
    [option], [None] meaning that the key is not in the dict (reading it
    raises [KeyError]); [turbo_path], [ac_path] and [bat_path] are always
    present and hold a path or Python's [None]. *)
Record CPUdict : Type := mkCPU {
  governors : list string;
  policies : list string;
  scaling_driver : string;
  turbo_path : option string;
  turbo_inverse : option bool;
  turbo_allowed : option bool;
  thread_siblings : list (list Z);
  physical_cores : Z;
  ac_path : option string;
  bat_path : option string;
  power_reading_method_ : option string
}.

(** [CPU[key]] for a key that may be missing. *)
Definition getitem {A} (v : option A) : M A :=
  match v with
  | Some a => ret a
  | None => raise KeyError
  end.

(** ** Reading and setting the governor and the policy *)

Definition read_governor (core_id : Z) : M string :=
  read_datafile (governor_path core_id) dtype_str.

Definition set_governor (CPU : CPUdict) (governor : string) : M unit :=
  assert (string_in governor (governors CPU)) ;;;
  current <- read_governor 0 ;;
  if negb (String.eqb current governor) then
    cores <- list_cores "online" ;;
    for_each cores (fun core_id => write_text (governor_path core_id) governor)
  else ret tt.

Definition read_policy (core_id : Z) : M string :=
  read_datafile (policy_path core_id) dtype_str.

Definition set_policy (CPU : CPUdict) (policy : string) : M unit :=
  assert (string_in policy (policies CPU)) ;;;
  current <- read_policy 0 ;;
  if negb (String.eqb policy current) then
    cores <- list_cores "online" ;;
    for_each cores (fun core_id => write_text (policy_path core_id) policy)
  else ret tt.

(** ** Turbo *)

(** [str(int(b))] *)
Definition str_of_bool (b : bool) : string := Py.str (if b then 1 else 0).

(** [None] in the result is Python's [None]. *)
Definition read_turbo_state (CPU : CPUdict) : M (option bool) :=
  match turbo_path CPU with
  | None => ret None
  | Some p =>
      text <- read_text p ;;
      value <- lift (Py.int text) ;;
      inverse <- getitem (turbo_inverse CPU) ;;
      ret (Some (xorb (negb (value =? 0)) inverse))
  end.

Definition option_bool_eqb (a b : option bool) : bool :=
  match a, b with
  | Some x, Some y => Bool.eqb x y
  | None, None => true
  | _, _ => false
  end.

Definition set_turbo_state (CPU : CPUdict) (turbo_state : bool) : M unit :=
  allowed <- getitem (turbo_allowed CPU) ;;
  if allowed then
    current <- read_turbo_state CPU ;;
    if negb (option_bool_eqb (Some turbo_state) current) then
      match turbo_path CPU with
      | None => raise AttributeError
      | Some p =>
          inverse <- getitem (turbo_inverse CPU) ;;
          write_text p (str_of_bool (xorb turbo_state inverse))
      end
    else ret tt
  else ret tt.

Definition turbo_pstate : string := CPU_DIR +:+ "intel_pstate/no_turbo".
Definition turbo_cpufreq : string := CPU_DIR +:+ "cpufreq/boost".
Definition turbo_amd_legacy : string := SYSTEM_DIR +:+ "cpu0/cpufreq/cpb".

Definition set_turbo_keys (CPU : CPUdict)
    (path : option string) (inverse allowed : option bool) : CPUdict :=
  mkCPU (governors CPU) (policies CPU) (scaling_driver CPU)
        path inverse allowed
        (thread_siblings CPU) (physical_cores CPU)
        (ac_path CPU) (bat_path CPU) (power_reading_method_ CPU).

(** The start-up code that fills [turbo_path], [turbo_inverse] and
    [turbo_allowed]: the first of three files that exists is the control
    file; writing its own content back tells whether it may be written.
    Where no file exists only [turbo_path] is set (to [None]). *)
Definition detect_turbo (CPU : CPUdict) : M CPUdict :=
  fun st =>
    let found :=
      if path_exists turbo_pstate st then Some (turbo_pstate, true)
      else if path_exists turbo_cpufreq st then Some (turbo_cpufreq, false)
      else if path_exists turbo_amd_legacy st then Some (turbo_amd_legacy, false)
      else None in
    match found with
    | None =>
        (Ok (set_turbo_keys CPU None (turbo_inverse CPU) (turbo_allowed CPU)), st)
    | Some (p, inverse) =>
        match (contents <- read_text p ;; write_text p contents) st with
        | (Ok _, st') => (Ok (set_turbo_keys CPU (Some p) (Some inverse) (Some true)), st')
        | (Err PermissionError, st') =>
            (Ok (set_turbo_keys CPU (Some p) (Some inverse) (Some false)), st')
        | (Err e, st') => (Err e, st')
        end
    end.

(** ** Physical cores *)

Definition set_all_cores_online : M unit :=
  cores <- list_cores "present" ;;
  for_each cores (fun core_id =>
    present <- exists_ (online_path core_id) ;;
    if (present : bool) then write_text (online_path core_id) "1" else ret tt).

Definition zero_in (core_ids : list Z) : bool := bool_decide (0 ∈ core_ids).

Definition index {A} (l : list A) (i : nat) : M A :=
  match l !! i with
  | Some a => ret a
  | None => raise IndexError
  end.

Definition read_physical_core_status (CPU : CPUdict) (core_num : Z) : M bool :=
  assert ((0 <=? core_num) && (core_num <=? physical_cores CPU - 1)) ;;;
  core_ids <- index (thread_siblings CPU) (Z.to_nat core_num) ;;
  if zero_in core_ids then ret true
  else
    first <- index core_ids 0%nat ;;
    value <- read_datafile (online_path first) Py.int ;;
    ret (negb (value =? 0)).

(** [enumerate(l)] *)
Definition enumerate {A} (l : list A) : list (Z * A) :=
  imap (fun i x => (Z.of_nat i, x)) l.

Definition set_physical_cores_online (CPU : CPUdict) (num_cores : Z) : M unit :=
  assert ((0 <? num_cores) && (num_cores <=? physical_cores CPU)) ;;;
  for_each (enumerate (thread_siblings CPU)) (fun '(core_num, core_ids) =>
    core_online <- read_physical_core_status CPU core_num ;;
    if core_num <? num_cores then
      if negb core_online then
        for_each core_ids (fun core_id => write_text (online_path core_id) "1")
      else ret tt
    else
      if (core_online : bool) then
        for_each core_ids (fun core_id => write_text (online_path core_id) "0")
      else ret tt).

(** [sorted(siblings_set)]: tuples compare lexicographically, a proper
    prefix being the smaller. *)
Fixpoint tuple_lt (a b : list Z) : Prop :=
  match a, b with
  | [], [] => False
  | [], _ :: _ => True
  | _ :: _, [] => False
  | x :: a', y :: b' => x < y \/ (x = y /\ tuple_lt a' b')
  end.

(** ** Power supply *)

(** One of the two loops of [power_supply_detection]: the first device of
    the wanted type whose companion file exists, else [None]. *)
Fixpoint find_device (devices : list string) (type companion : string)
  : M (option string) :=
  match devices with
  | [] => ret None
  | dev :: rest =>
      t <- read_datafile dev dtype_str ;;
      if String.eqb t type then
        present <- exists_ (Py.with_name dev companion) ;;
        if (present : bool) then ret (Some (Py.with_name dev companion))
        else find_device rest type companion
      else find_device rest type companion
  end.

(** [ac_devices] and [bat_devices] are the results of the two [glob]s. *)
Definition power_supply_detection (ac_devices bat_devices : list string)
  : M (option string * option string) :=
  ac_device_path <- find_device ac_devices "Mains" "online" ;;
  bat_device_path <- find_device bat_devices "Battery" "status" ;;
  ret (ac_device_path, bat_device_path).

Definition power_reading_method (bat_device_path : option string)
  : M (option string) :=
  match bat_device_path with
  | None => ret None
  | Some bat =>
      has_power <- exists_ (Py.with_name bat "power_now") ;;
      if (has_power : bool) then ret (Some "power")
      else
        has_current <- exists_ (Py.with_name bat "current_now") ;;
        has_voltage <- exists_ (Py.with_name bat "voltage_now") ;;
        if has_current && has_voltage then ret (Some "current_and_voltage")
        else ret None
  end.

(** ** Python numbers *)

Inductive pyval : Type :=
  | PyInt (z : Z)
  | PyFloat (x : float).

(** [float(z)] for an [int]: rounded to nearest-even, [OverflowError] when
    the rounded value is not finite. *)
Definition float_of_int (z : Z) : result float :=
  match binary_normalize prec emax z 0 false with
  | S754_infinity _ => Err OverflowError
  | f => Ok (SF2Prim f)
  end.

(** [a / b] on two floats. *)
Definition truediv (a b : float) : result float :=
  if PrimFloat.eqb b PrimFloat.zero then Err ZeroDivisionError
  else Ok (PrimFloat.div a b).

(** [z / b], an [int] over a [float]. *)
Definition int_truediv_float (z : Z) (b : float) : result float :=
  match float_of_int z with
  | Ok a => truediv a b
  | Err e => Err e
  end.

(** [a / z], a [float] over an [int]. *)
Definition float_truediv_int (a : float) (z : Z) : result float :=
  match float_of_int z with
  | Ok b => truediv a b
  | Err e => Err e
  end.

Definition option_string_eqb (a : option string) (b : string) : bool :=
  match a with
  | Some x => String.eqb x b
  | None => false
  end.

Section PowerDraw.

(** [float(text)] on the content of a file; [None] is [ValueError]. *)
Variable float_of_str : string -> option float.

Definition parse_float (text : string) : M float :=
  match float_of_str text with
  | Some x => ret x
  | None => raise ValueError
  end.

(** [CPU['bat_path'].with_name(name).read_text()] *)
Definition read_battery_file (CPU : CPUdict) (name : string) : M string :=
  match bat_path CPU with
  | Some bat => read_text (Py.with_name bat name)
  | None => raise AttributeError
  end.

Definition read_power_draw (CPU : CPUdict) : M pyval :=
  if option_string_eqb (power_reading_method_ CPU) "power" then
    power_data <- read_battery_file CPU "power_now" ;;
    power <- parse_float power_data ;;
    watts <- lift (float_truediv_int power (10 ^ 6)) ;;
    ret (PyFloat watts)
  else if option_string_eqb (power_reading_method_ CPU) "current_and_voltage" then
    current_data <- read_battery_file CPU "current_now" ;;
    voltage_data <- read_battery_file CPU "voltage_now" ;;
    current <- parse_float current_data ;;
    voltage <- parse_float voltage_data ;;
    watts <- lift (float_truediv_int (PrimFloat.mul current voltage) (10 ^ 12)) ;;
    ret (PyFloat watts)
  else ret (PyInt (-1)).

End PowerDraw.

(** ** The RAPL energy meter *)

(** The fields other than [enabled] exist only on an enabled meter; a
    disabled one carries zeros that are never read. *)
Record Rapl : Type := mkRapl {
  enabled : bool;
  max_energy : Z;
  last_energy : Z;
  last_time : float
}.

Definition package_energy_now : string :=
  "/sys/class/powercap/intel-rapl:0/energy_uj".

(** [Rapl.__init__]; [is_root] and [now] are the results of [is_root()]
    and [time()]. *)
Definition rapl_init (is_root : bool) (now : float) : M Rapl :=
  let package_enabled := Py.with_name package_energy_now "enabled" in
  let disabled := mkRapl false 0 0 PrimFloat.zero in
  has_energy <- exists_ package_energy_now ;;
  has_enabled <- (if (has_energy : bool) then exists_ package_enabled else ret false) ;;
  if has_enabled && is_root then
    flag <- read_text package_enabled ;;
    if Py.contains "1" flag then
      range_text <- read_text (Py.with_name package_enabled "max_energy_range_uj") ;;
      max_energy <- lift (Py.int range_text) ;;
      energy_text <- read_text package_energy_now ;;
      last_energy <- lift (Py.int energy_text) ;;
      ret (mkRapl true max_energy last_energy now)
    else ret disabled
  else ret disabled.

(** The energy between two samples, the wrap of the counter undone. *)
Definition energy_delta (self : Rapl) (current_energy : Z) : Z :=
  let delta := current_energy - last_energy self in
  if current_energy <? last_energy self then delta + max_energy self
  else delta.

(** [energy_delta / time_delta / 10**6] *)
Definition power_of (delta : Z) (time_delta : float) : result float :=
  match int_truediv_float delta time_delta with
  | Ok joules_per_second => float_truediv_int joules_per_second (10 ^ 6)
  | Err e => Err e
  end.

(** [Rapl.read_power]; [current_time] is the result of [time()].  The
    meter is returned with the value because the call updates it. *)
Definition read_power (self : Rapl) (current_time : float) : M (pyval * Rapl) :=
  if negb (enabled self) then ret (PyInt (-1), self)
  else
    text <- read_text package_energy_now ;;
    current_energy <- lift (Py.int text) ;;
    let time_delta := PrimFloat.sub current_time (last_time self) in
    current_power <- lift (power_of (energy_delta self current_energy) time_delta) ;;
    ret (PyFloat current_power,
         mkRapl (enabled self) (max_energy self) current_energy current_time).

(** ** Start-up of the capability dictionary *)

(** The dict as the [dict(...)] call and the scaling-driver branch leave
    it: none of the turbo keys, no siblings and no power keys yet. *)
Definition initial_CPU (governors policies : list string) (driver : string)
  : CPUdict :=
  mkCPU governors policies driver None None None [] 0 None None None.

Definition set_power_keys (CPU : CPUdict)
    (ac bat method : option string) : CPUdict :=
  mkCPU (governors CPU) (policies CPU) (scaling_driver CPU)
        (turbo_path CPU) (turbo_inverse CPU) (turbo_allowed CPU)
        (thread_siblings CPU) (physical_cores CPU)
        ac bat method.

(** Power supply detection and power reading mode, as the module runs
    them at start-up. *)
Definition detect_power (ac_devices bat_devices : list string) (CPU : CPUdict)
  : M CPUdict :=
  paths <- power_supply_detection ac_devices bat_devices ;;
  method <- power_reading_method (snd paths) ;;
  ret (set_power_keys CPU (fst paths) (snd paths) method).

Definition set_sibling_keys (CPU : CPUdict)
    (groups : list (list Z)) (count : Z) : CPUdict :=
  mkCPU (governors CPU) (policies CPU) (scaling_driver CPU)
        (turbo_path CPU) (turbo_inverse CPU) (turbo_allowed CPU)
        groups count
        (ac_path CPU) (bat_path CPU) (power_reading_method_ CPU).

(** The order of Python on tuples of integers, as a test. *)
Fixpoint tuple_ltb (a b : list Z) : bool :=
  match a, b with
  | [], [] => false
  | [], _ :: _ => true
  | _ :: _, [] => false
  | x :: a', y :: b' => (x <? y) || ((x =? y) && tuple_ltb a' b')
  end.

(** A tuple put at its place in an ascending list of distinct tuples; a
    tuple that is already there is not added. *)
Fixpoint insert_tuple (g : list Z) (l : list (list Z)) : list (list Z) :=
  match l with
  | [] => [g]
  | h :: t =>
      if tuple_ltb g h then g :: h :: t
      else if tuple_ltb h g then h :: insert_tuple g t
      else h :: t
  end.

(** [sorted(set(l))] *)
Definition sorted_set (l : list (list Z)) : list (list Z) :=
  foldr insert_tuple [] l.

(** [tuple(int(ths) for ths in thread_siblings)] *)
Fixpoint int_tuple (l : list string) : result (list Z) :=
  match l with
  | [] => Ok []
  | x :: r =>
      match Py.int x with
      | Ok a =>
          match int_tuple r with
          | Ok t => Ok (a :: t)
          | Err e => Err e
          end
      | Err e => Err e
      end
  end.

(** The loop over the present cores that fills [siblings_set]; the
    sibling file of a core that is offline does not exist. *)
Fixpoint collect_siblings (cores : list Z) : M (list (list Z)) :=
  match cores with
  | [] => ret []
  | core_id :: rest =>
      let thread_siblings_list := core_file core_id "topology/thread_siblings_list" in
      present <- exists_ thread_siblings_list ;;
      if (present : bool) then
        text <- read_text thread_siblings_list ;;
        siblings <- lift (int_tuple (Py.split "," (Py.strip text))) ;;
        others <- collect_siblings rest ;;
        ret (siblings :: others)
      else collect_siblings rest
  end.

(** Physical core / thread sibling detection, as the module runs it at
    start-up. *)
Definition detect_siblings (CPU : CPUdict) : M CPUdict :=
  cores <- list_cores "present" ;;
  siblings_set <- collect_siblings cores ;;
  ret (set_sibling_keys CPU (sorted_set siblings_set)
         (Z.of_nat (length (sorted_set siblings_set)))).

(** What the start-up code yields for [thread_siblings] on sibling lists
    as the kernel prints them: the groups in the order of [sorted], every
    group a non-empty ascending run of core ids, none of them negative,
    and every core id in one group only. *)
Record siblings_wf (groups : list (list Z)) : Prop := mkSiblingsWf {
  sw_sorted : StronglySorted tuple_lt groups;
  sw_ascending : Forall (StronglySorted Z.lt) groups;
  sw_nonneg : Forall (Forall (Z.le 0)) groups;
  sw_nonempty : Forall (fun g => g <> []) groups;
  sw_partition : NoDup (concat groups)
}.

(** The tuple that the sibling file of a core lists. *)
Definition sibling_tuple (st : fs) (core_id : Z) (g : list Z) : Prop :=
  exists text,
    files st !! core_file core_id "topology/thread_siblings_list" = Some text /\
    int_tuple (Py.split "," (Py.strip text)) = Ok g.

(** Sibling files as the kernel writes them: each lists core ids in
    ascending order, none of them negative, and two files list the same
    cores or have no core in common. *)
Record kernel_siblings (st : fs) : Prop := mkKernelSiblings {
  ks_ascending : forall c g, sibling_tuple st c g -> StronglySorted Z.lt g;
  ks_nonneg : forall c g, sibling_tuple st c g -> Forall (Z.le 0) g;
  ks_consistent : forall c g c' g' x,
    sibling_tuple st c g -> sibling_tuple st c' g' -> x ∈ g -> x ∈ g' -> g = g'
}.

(** ** Well-formed core lists *)

(** An entry of a core list: one core id or an inclusive range. *)
Inductive core_range : Type :=
  | Single (n : N)
  | Span (a b : N).

Definition render_range (r : core_range) : string :=
  match r with
  | Single n => Py.str (Z.of_N n)
  | Span a b => Py.str (Z.of_N a) +:+ "-" +:+ Py.str (Z.of_N b)
  end.

(** The text of a core list: the entries separated by commas. *)
Definition render_ranges (l : list core_range) : string :=
  Py.join "," (map render_range l).

Definition expand_range (r : core_range) : list Z :=
  match r with
  | Single n => [Z.of_N n]
  | Span a b => Py.range (Z.of_N a) (Z.of_N b + 1)
  end.

(** The explicit list a core list stands for. *)
Definition expand_ranges (l : list core_range) : list Z :=
  concat (map expand_range l).

(** The canonical text of an explicit list: one integer per entry. *)
Definition canonical_text (l : list Z) : string :=
  Py.join "," (map Py.str l).

(** The line a control file holds: the text, with or without the newline
    the kernel appends. *)
Definition newline : string := String "010" EmptyString.

(** A file system holding one file. *)
Definition single_file (path content : string) : fs :=
  mkFs {[ path := content ]} ∅ [].

(** ** Example machines *)

(** [float(text)] on the texts the kernel prints in [power_now],
    [current_now] and [voltage_now]: a decimal integer. *)
Definition float_of_integer_text (text : string) : option float :=
  match Py.int text with
  | Ok z =>
      match float_of_int z with
      | Ok x => Some x
      | Err _ => None
      end
  | Err _ => None
  end.

(** A laptop on mains with no battery directory. *)
Definition mains_only : fs :=
  mkFs {[ "/sys/class/power_supply/AC/type" := "Mains";
          "/sys/class/power_supply/AC/online" := "1" ]} ∅ [].

(** Two cores, core 0 on [powersave] and core 1 on [performance]. *)
Definition mixed_governors : fs :=
  mkFs {[ CPU_DIR +:+ "online" := "0-1";
          governor_path 0 := "powersave";
          governor_path 1 := "performance" ]} ∅ [].

(** Two cores, both on [powersave]. *)
Definition same_governors : fs :=
  mkFs {[ CPU_DIR +:+ "online" := "0-1";
          governor_path 0 := "powersave";
          governor_path 1 := "powersave" ]} ∅ [].

(** Core 1 alone online and on [performance]; core 0 is off the online
    list and its governor file holds [powersave]. *)
Definition core0_offline : fs :=
  mkFs {[ CPU_DIR +:+ "online" := "1";
          governor_path 0 := "powersave";
          governor_path 1 := "performance" ]} ∅ [].

Definition two_governors : CPUdict :=
  initial_CPU ["performance"; "powersave"] [] "cpufreq".

(** A machine with the [intel_pstate] turbo file, holding [1]. *)
Definition pstate_turbo : fs := single_file turbo_pstate "1".

Definition pstate_CPU : CPUdict :=
  set_turbo_keys (initial_CPU ["powersave"] [] "intel_pstate")
                 (Some turbo_pstate) (Some true) (Some true).

(** A machine with none of the three turbo files. *)
Definition no_turbo_files : fs := single_file (governor_path 0) "powersave".

(** Four logical cores on two physical ones, the second pair offline. *)
Definition four_threads : fs :=
  mkFs {[ online_path 1 := "0"; online_path 3 := "0" ]} ∅ [].

(** The sibling files of four threads on two physical cores. *)
Definition four_sibling_files : fs :=
  mkFs {[ CPU_DIR +:+ "present" := "0-3";
          core_file 0 "topology/thread_siblings_list" := "0,2";
          core_file 1 "topology/thread_siblings_list" := "1,3";
          core_file 2 "topology/thread_siblings_list" := "0,2";
          core_file 3 "topology/thread_siblings_list" := "1,3" ]} ∅ [].

(** A stub machine, all cores online, whose sibling files list core 0
    after its sibling. *)
Definition swapped_siblings : fs :=
  mkFs {[ CPU_DIR +:+ "present" := "0-3";
          core_file 0 "topology/thread_siblings_list" := "2,0";
          core_file 1 "topology/thread_siblings_list" := "1,3";
          core_file 2 "topology/thread_siblings_list" := "2,0";
          core_file 3 "topology/thread_siblings_list" := "1,3";
          online_path 0 := "1"; online_path 1 := "1";
          online_path 2 := "1"; online_path 3 := "1" ]} ∅ [].

Definition swapped_CPU : CPUdict :=
  mkCPU ["powersave"] [] "cpufreq" None None None [[1; 3]; [2; 0]] 2
        None None None.

Definition four_threads_CPU : CPUdict :=
  mkCPU ["powersave"] [] "cpufreq" None None None [[0; 2]; [1; 3]] 2
        None None None.

(** ** Character classes and the frame of a computation *)

(** Every character of [s] satisfies [p]. *)
Fixpoint all_chars (p : ascii -> bool) (s : string) : bool :=
  match s with
  | EmptyString => true
  | String c r => p c && all_chars p r
  end.

(** The characters of a well-formed core list. *)
Definition is_list_char (c : ascii) : bool :=
  Py.is_digit c || Ascii.eqb c "," || Ascii.eqb c "-".

(** [writes_only P m]: whatever the state, running [m] only appends to
    the log, and every appended write is to a path that satisfies [P]. *)
Definition writes_only {A} (P : string -> Prop) (m : M A) : Prop :=
  forall st, exists new,
    log (snd (m st)) = log st ++ new /\ Forall (fun w => P (fst w)) new.

(** ** Frequency range *)

Definition min_freq_path (core_id : Z) : string :=
  core_file core_id "cpufreq/scaling_min_freq".
Definition max_freq_path (core_id : Z) : string :=
  core_file core_id "cpufreq/scaling_max_freq".

(** The two-element list is a pair. *)
Definition read_freq_range (core_id : Z) : M (Z * Z) :=
  scaling_min_freq <- read_datafile (min_freq_path core_id) Py.int ;;
  scaling_max_freq <- read_datafile (max_freq_path core_id) Py.int ;;
  ret (scaling_min_freq, scaling_max_freq).

(** The body of the loop of [set_freq_range] for one core. *)
Definition set_freq_range_core (min_freq max_freq : Z)
    (current_freq_range : Z * Z) (core_id : Z) : M unit :=
  bind (if negb (min_freq =? fst current_freq_range) then
          write_text (min_freq_path core_id) (Py.str min_freq)
        else ret tt)
       (fun _ =>
          if negb (max_freq =? snd current_freq_range) then
            write_text (max_freq_path core_id) (Py.str max_freq)
          else ret tt).

Definition set_freq_range (min_freq max_freq : Z) : M unit :=
  assert (min_freq <=? max_freq) ;;;
  current_freq_range <- read_freq_range 0 ;;
  cores <- list_cores "online" ;;
  for_each cores (set_freq_range_core min_freq max_freq current_freq_range).

(** ** Performance range of [intel_pstate] *)

(** The keys of [CPU] that the scaling-driver branch of the start-up code
    adds; the two paths and [basefreq] exist for [intel_pstate] only. *)
Record DriverKeys : Type := mkDriverKeys {
  min_perf_pct_path : option string;
  max_perf_pct_path : option string;
  basefreq : option Z;
  freq_info : string
}.

(** [s.lower()] on ASCII text. *)
Definition lower_char (c : ascii) : ascii :=
  let n := N_of_ascii c in
  if ((65 <=? n) && (n <=? 90))%N then ascii_of_N (n + 32) else c.

Fixpoint lower (s : string) : string :=
  match s with
  | EmptyString => EmptyString
  | String c r => String (lower_char c) (lower r)
  end.

Definition set_driver_key (CPU : CPUdict) (driver : string) : CPUdict :=
  mkCPU (governors CPU) (policies CPU) driver
        (turbo_path CPU) (turbo_inverse CPU) (turbo_allowed CPU)
        (thread_siblings CPU) (physical_cores CPU)
        (ac_path CPU) (bat_path CPU) (power_reading_method_ CPU).

(** The scaling-driver branch of the start-up code; [minfreq] and
    [maxfreq] are the values of the keys of those names. *)
Definition detect_driver (CPU : CPUdict) (minfreq maxfreq : Z)
  : M (CPUdict * DriverKeys) :=
  scaling_driver_data <-
    read_datafile (CPU_DIR +:+ "cpufreq/policy0/scaling_driver") dtype_str ;;
  if String.eqb (lower scaling_driver_data) "intel_pstate" then
    base <- read_datafile (CPUFREQ_DIR +:+ "base_frequency") Py.int ;;
    ret (set_driver_key CPU "intel_pstate",
         mkDriverKeys (Some (CPU_DIR +:+ "intel_pstate/min_perf_pct"))
                      (Some (CPU_DIR +:+ "intel_pstate/max_perf_pct"))
                      (Some base)
                      (Py.str minfreq +:+ " - " +:+ Py.str base +:+ " - "
                       +:+ Py.str maxfreq +:+ " kHz"))
  else
    ret (set_driver_key CPU "cpufreq",
         mkDriverKeys None None None
                      (Py.str minfreq +:+ " - " +:+ Py.str maxfreq +:+ " kHz")).

Definition read_perf_range (keys : DriverKeys) : M (Z * Z) :=
  min_path <- getitem (min_perf_pct_path keys) ;;
  min_text <- read_text min_path ;;
  min_perf_pct <- lift (Py.int min_text) ;;
  max_path <- getitem (max_perf_pct_path keys) ;;
  max_text <- read_text max_path ;;
  max_perf_pct <- lift (Py.int max_text) ;;
  ret (min_perf_pct, max_perf_pct).

Definition set_perf_range (CPU : CPUdict) (keys : DriverKeys)
    (min_perf_pct max_perf_pct : Z) : M unit :=
  assert (max_perf_pct >=? min_perf_pct) ;;;
  if String.eqb (scaling_driver CPU) "intel_pstate" then
    current_perf_range <- read_perf_range keys ;;
    (if negb (min_perf_pct =? fst current_perf_range) then
       p <- getitem (min_perf_pct_path keys) ;;
       write_text p (Py.str min_perf_pct)
     else ret tt) ;;;
    (if negb (max_perf_pct =? snd current_perf_range) then
       p <- getitem (max_perf_pct_path keys) ;;
       write_text p (Py.str max_perf_pct)
     else ret tt)
  else ret tt.

(** ** Power limits *)

Definition PL1_path : string :=
  "/sys/class/powercap/intel-rapl:0/constraint_0_power_limit_uw".
Definition PL2_path : string :=
  Py.with_name PL1_path "constraint_1_power_limit_uw".
Definition PL_enabled_path : string := Py.with_name PL1_path "enabled".

Definition set_tdp_limits (CPU : CPUdict) (PL1 PL2 : Z) : M unit :=
  assert (PL1 <=? PL2) ;;;
  if String.eqb (scaling_driver CPU) "intel_pstate"
     && negb (PL1 =? 0) && negb (PL2 =? 0) then
    has_PL1 <- exists_ PL1_path ;;
    has_PL2 <- (if (has_PL1 : bool) then exists_ PL2_path else ret false) ;;
    if (has_PL2 : bool) then
      (if 0 <? PL1 then write_text PL1_path (Py.str (PL1 * 1000000)) else ret tt) ;;;
      (if 0 <? PL2 then write_text PL2_path (Py.str (PL2 * 1000000)) else ret tt) ;;;
      (if (0 <? PL1) || (0 <? PL2) then write_text PL_enabled_path "1" else ret tt)
    else ret tt
  else ret tt.

(** ** Charging state *)

Fixpoint starts_with (prefix s : string) : bool :=
  match prefix, s with
  | EmptyString, _ => true
  | String _ _, EmptyString => false
  | String a p, String b r => Ascii.eqb a b && starts_with p r
  end.

(** [sub in s] for texts. *)
Fixpoint str_in (sub s : string) : bool :=
  starts_with sub s ||
  match s with
  | EmptyString => false
  | String _ r => str_in sub r
  end.

(** [None] for a state is Python's [None] (unknown). *)
Definition read_charging_state (CPU : CPUdict) : M bool :=
  let battery (ac_state : option bool) : M bool :=
    battery_part <-
      match bat_path CPU with
      | Some bat =>
          battery_data <- read_text bat ;;
          if str_in "Discharging" battery_data then ret (inr (Some false))
          else if str_in "Charging" battery_data then ret (inl true)
          else ret (inr None)
      | None => ret (inr None)
      end ;;
    match battery_part with
    | inl answer => ret answer
    | inr battery_state =>
        if option_bool_eqb ac_state (Some false)
           || option_bool_eqb battery_state (Some false)
        then ret false else ret true
    end in
  match ac_path CPU with
  | Some ac =>
      ac_data <- read_text ac ;;
      if Py.contains "1" ac_data then ret true
      else if Py.contains "0" ac_data then battery (Some false)
      else battery None
  | None => battery None
  end.

(** The writes [set_freq_range] performs for one core, when core 0 has
    the range [current_min .. current_max]. *)
Definition freq_writes (min_freq max_freq current_min current_max core_id : Z)
  : list (string * string) :=
  (if negb (min_freq =? current_min)
   then [(min_freq_path core_id, Py.str min_freq)] else []) ++
  (if negb (max_freq =? current_max)
   then [(max_freq_path core_id, Py.str max_freq)] else []).

(** An [intel_pstate] machine with its two percentage files. *)
Definition pstate_keys : DriverKeys :=
  mkDriverKeys (Some (CPU_DIR +:+ "intel_pstate/min_perf_pct"))
               (Some (CPU_DIR +:+ "intel_pstate/max_perf_pct"))
               (Some 1800000) "400000 - 1800000 - 3400000 kHz".

Definition pstate_perf : fs :=
  mkFs {[ CPU_DIR +:+ "intel_pstate/min_perf_pct" := "10";
          CPU_DIR +:+ "intel_pstate/max_perf_pct" := "100" ]} ∅ [].

(** A machine with the two power-limit files. *)
Definition rapl_limits : fs :=
  mkFs {[ PL1_path := "15000000"; PL2_path := "25000000" ]} ∅ [].

(** Two cores with their frequency files. *)
Definition two_core_freqs : fs :=
  mkFs {[ CPU_DIR +:+ "online" := "0-1";
          min_freq_path 0 := "400000"; max_freq_path 0 := "3400000";
          min_freq_path 1 := "400000"; max_freq_path 1 := "3400000" ]} ∅ [].

(** The writes [set_tdp_limits] performs when it reaches its files: a
    limit is written, in microwatts, only when it is positive, and the
    constraint is enabled when one was. *)
Definition tdp_writes (PL1 PL2 : Z) : list (string * string) :=
  (if 0 <? PL1 then [(PL1_path, Py.str (PL1 * 1000000))] else []) ++
  (if 0 <? PL2 then [(PL2_path, Py.str (PL2 * 1000000))] else []) ++
  (if (0 <? PL1) || (0 <? PL2) then [(PL_enabled_path, "1")] else []).

Definition pstate_driver_CPU : CPUdict :=
  initial_CPU ["powersave"; "performance"] [] "intel_pstate".

(** Three present cores; core 0 has no [online] file. *)
Definition three_present : fs :=
  mkFs {[ CPU_DIR +:+ "present" := "0-2";
          online_path 1 := "0"; online_path 2 := "1" ]} ∅ [].

(** A laptop on battery: mains offline, battery discharging, with a
    [power_now] file. *)
Definition on_battery : fs :=
  mkFs {[ "/sys/class/power_supply/AC/type" := "Mains";
          "/sys/class/power_supply/AC/online" := "0";
          "/sys/class/power_supply/BAT0/type" := "Battery";
          "/sys/class/power_supply/BAT0/status" := "Discharging";
          "/sys/class/power_supply/BAT0/power_now" := "12000000" ]} ∅ [].

Definition on_battery_CPU : CPUdict :=
  set_power_keys two_governors
    (Some "/sys/class/power_supply/AC/online")
    (Some "/sys/class/power_supply/BAT0/status") (Some "power").

(** What [read_physical_core_status] answers for a group of siblings,
    when the core number is in range: [True] for the group of core 0,
    else what the [online] file of the first sibling says. *)
Definition group_status (core_ids : list Z) (st : fs) : result bool :=
  if zero_in core_ids then Ok true
  else
    match core_ids with
    | [] => Err IndexError
    | first :: _ =>
        match files st !! online_path first with
        | None => Err FileNotFoundError
        | Some text =>
            match Py.int (Py.strip (Py.readline text)) with
            | Ok value => Ok (negb (value =? 0))
            | Err e => Err e
            end
        end
    end.

(** The body of the loop of [set_physical_cores_online]. *)
Definition set_physical_cores_online_body (CPU : CPUdict) (num_cores : Z)
  : Z * list Z -> M unit :=
  fun '(core_num, core_ids) =>
    core_online <- read_physical_core_status CPU core_num ;;
    if core_num <? num_cores then
      if negb core_online then
        for_each core_ids (fun core_id => write_text (online_path core_id) "1")
      else ret tt
    else
      if (core_online : bool) then
        for_each core_ids (fun core_id => write_text (online_path core_id) "0")
      else ret tt.

(** Four threads, the second physical core online. *)
Definition four_threads_on : fs :=
  mkFs {[ online_path 1 := "1"; online_path 3 := "1" ]} ∅ [].

(** Three cores on [powersave]; the governor file of core 1 refuses
    writes. *)
Definition locked_governor : fs :=
  mkFs {[ CPU_DIR +:+ "online" := "0-2";
          governor_path 0 := "powersave";
          governor_path 1 := "powersave";
          governor_path 2 := "powersave" ]} {[ governor_path 1 ]} [].

(** A machine whose driver file names [intel_pstate]. *)
Definition pstate_machine : fs :=
  mkFs {[ CPU_DIR +:+ "cpufreq/policy0/scaling_driver" := "intel_pstate" +:+ newline;
          CPUFREQ_DIR +:+ "base_frequency" := "1800000" +:+ newline ]} ∅ [].

(** The files a control function may write. *)
Definition governor_file (p : string) : Prop := exists c, p = governor_path c.
Definition policy_file (p : string) : Prop := exists c, p = policy_path c.
Definition freq_file (p : string) : Prop :=
  exists c, p = min_freq_path c \/ p = max_freq_path c.
Definition online_file (p : string) : Prop := exists c, p = online_path c.
Definition limit_file (p : string) : Prop :=
  p = PL1_path \/ p = PL2_path \/ p = PL_enabled_path.

Lemma digits2_size (p : positive) : digits2_pos p = Pos.size p.
Proof. induction p as [p IH|p IH|]; simpl; now rewrite ?IH. Qed.

Lemma Zdigits2_log2 (m : Z) : 0 < m -> Zdigits2 m = Z.log2 m + 1.
Proof.
  destruct m as [|p|p]; try lia. intros _. simpl.
  rewrite digits2_size. destruct p; simpl; lia.
Qed.

Lemma shr_1_m (mrs : shr_record) :
  0 <= shr_m mrs -> shr_m (shr_1 mrs) = Z.div2 (shr_m mrs).
Proof.
  destruct mrs as [m r s]. simpl. destruct m as [|[p|p|]|p]; simpl; try reflexivity; lia.
Qed.

Lemma iter_pos_shr_m (p : positive) :
  forall mrs, 0 <= shr_m mrs ->
    shr_m (SpecFloat.iter_pos shr_1 p mrs) = Z.shiftr (shr_m mrs) (Zpos p).
Proof.
  induction p as [p IH|p IH|]; intros mrs Hm; simpl.
  - assert (H1 : 0 <= shr_m (shr_1 mrs)).
    { rewrite shr_1_m by assumption. rewrite Z.div2_nonneg. assumption. }
    assert (H2 : 0 <= shr_m (SpecFloat.iter_pos shr_1 p (shr_1 mrs))).
    { rewrite IH by assumption. apply Z.shiftr_nonneg. assumption. }
    rewrite IH by assumption. rewrite IH by assumption.
    rewrite shr_1_m by assumption. rewrite Z.div2_spec.
    rewrite !Z.shiftr_shiftr by lia. f_equal. lia.
  - assert (H2 : 0 <= shr_m (SpecFloat.iter_pos shr_1 p mrs)).
    { rewrite IH by assumption. apply Z.shiftr_nonneg. assumption. }
    rewrite IH by assumption. rewrite IH by assumption.
    rewrite !Z.shiftr_shiftr by lia. f_equal. lia.
  - rewrite shr_1_m by assumption. now rewrite Z.div2_spec.
Qed.

Lemma shr_record_of_loc_m (m : Z) (l : location) : shr_m (shr_record_of_loc m l) = m.
Proof. destruct l as [|[]]; reflexivity. Qed.

(** Shifting a positive mantissa to its format exponent keeps it positive
    when the exponent is not below the least one. *)
Lemma shr_fexp_positive (m e : Z) (l : location) :
  0 < m -> SpecFloat.emin prec emax <= e ->
  0 < shr_m (fst (shr_fexp prec emax m e l)) /\
  Zdigits2 (shr_m (fst (shr_fexp prec emax m e l))) + snd (shr_fexp prec emax m e l)
    = Zdigits2 m + e /\
  snd (shr_fexp prec emax m e l) = Z.max e (Zdigits2 m + e - prec).
Proof.
  intros Hm He. unfold shr_fexp, fexp, SpecFloat.emin, prec, emax in *.
  pose proof (Zdigits2_log2 m Hm) as Hd.
  pose proof (Z.log2_nonneg m) as Hl.
  destruct (Z.max (Zdigits2 m + e - 53) (3 - 1024 - 53) - e) as [|n|n] eqn:Hn;
    unfold shr; simpl fst; simpl snd; rewrite ?shr_record_of_loc_m.
  - repeat split; lia.
  - rewrite iter_pos_shr_m by (rewrite shr_record_of_loc_m; lia).
    rewrite shr_record_of_loc_m.
    assert (Hpos : 0 < Z.shiftr m (Z.pos n)).
    { assert (H0 : Z.shiftr m (Z.pos n) <> 0).
      { rewrite Z.shiftr_eq_0_iff. lia. }
      pose proof (proj2 (Z.shiftr_nonneg m (Z.pos n))). lia. }
    repeat split; try lia.
    rewrite (Zdigits2_log2 _ Hpos). rewrite Z.log2_shiftr by assumption. lia.
  - repeat split; lia.
Qed.


Lemma round_nearest_even_bounds (m : Z) (l : location) :
  0 < m -> m <= round_nearest_even m l <= m + 1.
Proof.
  intros Hm. destruct l as [|[]]; simpl; try lia. destruct (Z.even m); lia.
Qed.

(** Rounding a positive mantissa at an exponent that is not below the
    least one yields a finite number or an infinity of the same sign,
    never a zero; it is finite when the magnitude fits. *)
Lemma binary_round_aux_positive (s : bool) (m e : Z) (l : location) :
  0 < m -> SpecFloat.emin prec emax <= e ->
  match binary_round_aux prec emax s m e l with
  | S754_finite s' _ _ => s' = s
  | S754_infinity s' => s' = s /\ (1023 < Zdigits2 m + e \/ 971 < e)
  | _ => False
  end.
Proof.
  intros Hm He. unfold binary_round_aux.
  destruct (shr_fexp_positive m e l Hm He) as (H1 & H2 & H3).
  destruct (shr_fexp prec emax m e l) as [mrs1 e1]. simpl fst in *; simpl snd in *.
  pose proof (round_nearest_even_bounds (shr_m mrs1) (loc_of_shr_record mrs1) H1) as Hr.
  set (m2 := round_nearest_even (shr_m mrs1) (loc_of_shr_record mrs1)) in *.
  assert (Hm2 : 0 < m2) by lia.
  assert (He1 : SpecFloat.emin prec emax <= e1) by lia.
  destruct (shr_fexp_positive m2 e1 loc_Exact Hm2 He1) as (H4 & H5 & H6).
  destruct (shr_fexp prec emax m2 e1 loc_Exact) as [mrs2 e2]. simpl fst in *; simpl snd in *.
  assert (Hd : Zdigits2 m2 <= Zdigits2 (shr_m mrs1) + 1).
  { rewrite !Zdigits2_log2 by lia.
    assert (Z.log2 m2 <= Z.log2 (shr_m mrs1 + 1)) by (apply Z.log2_le_mono; lia).
    pose proof (Z.log2_succ_le (shr_m mrs1)). unfold Z.succ in *. lia. }
  destruct (shr_m mrs2) as [|p|p] eqn:Hp; try lia.
  unfold prec, emax in *.
  destruct (e2 <=? 1024 - 53) eqn:Hle; [reflexivity|].
  apply Z.leb_gt in Hle. split; [reflexivity|]. lia.
Qed.

Lemma digits2_iter_xO (m k : positive) :
  Zpos (digits2_pos (Pos.iter xO m k)) = Zpos (digits2_pos m) + Zpos k.
Proof.
  induction k as [|k IH] using Pos.peano_ind.
  - simpl. lia.
  - rewrite Pos.iter_succ. simpl digits2_pos. lia.
Qed.

Lemma iter_xO_value (m k : positive) :
  Zpos (Pos.iter xO m k) = Zpos m * 2 ^ Zpos k.
Proof.
  induction k as [|k IH] using Pos.peano_ind.
  - simpl. lia.
  - rewrite Pos.iter_succ. rewrite Pos2Z.inj_xO, IH.
    rewrite Pos2Z.inj_succ, Z.pow_succ_r by lia. lia.
Qed.

Lemma binary_round_positive (s : bool) (m : positive) (e : Z) :
  SpecFloat.emin prec emax <= e ->
  match binary_round prec emax s m e with
  | S754_finite s' _ _ => s' = s
  | S754_infinity s' => s' = s /\ 1023 < Zpos (digits2_pos m) + e
  | _ => False
  end.
Proof.
  intros He. unfold binary_round, shl_align.
  set (d := Zpos (digits2_pos m)).
  assert (Hf : fexp prec emax (d + e) = Z.max (d + e - 53) (-1074)) by reflexivity.
  destruct (fexp prec emax (d + e) - e) as [|k|k] eqn:Hk.
  - pose proof (binary_round_aux_positive s (Zpos m) e loc_Exact eq_refl He) as H.
    destruct (binary_round_aux prec emax s (Zpos m) e loc_Exact); try assumption.
    destruct H as [H1 H2]. split; [assumption|]. simpl Zdigits2 in H2. fold d in H2.
    unfold SpecFloat.emin, prec, emax in He. lia.
  - pose proof (binary_round_aux_positive s (Zpos m) e loc_Exact eq_refl He) as H.
    destruct (binary_round_aux prec emax s (Zpos m) e loc_Exact); try assumption.
    destruct H as [H1 H2]. split; [assumption|]. simpl Zdigits2 in H2. fold d in H2.
    unfold SpecFloat.emin, prec, emax in He. lia.
  - assert (He' : SpecFloat.emin prec emax <= fexp prec emax (d + e)).
    { rewrite Hf. unfold SpecFloat.emin, prec, emax. lia. }
    pose proof (binary_round_aux_positive s (Zpos (Pos.iter xO m k))
                  (fexp prec emax (d + e)) loc_Exact eq_refl He') as H.
    destruct (binary_round_aux prec emax s (Zpos (Pos.iter xO m k))
                (fexp prec emax (d + e)) loc_Exact); try assumption.
    destruct H as [H1 H2]. split; [assumption|].
    simpl Zdigits2 in H2. rewrite digits2_iter_xO in H2. fold d in H2. lia.
Qed.

(** [float(z)] succeeds on every integer below [2^1023] in magnitude. *)
Lemma float_of_int_defined (z : Z) :
  Z.abs z < 2 ^ 1023 -> exists x, float_of_int z = Ok x.
Proof.
  intros Hz. unfold float_of_int, binary_normalize.
  assert (He : SpecFloat.emin prec emax <= 0) by (unfold SpecFloat.emin, prec, emax; lia).
  assert (Hd : forall p, Zpos p < 2 ^ 1023 -> Zpos (digits2_pos p) + 0 <= 1023).
  { intros p Hp. change (Zpos (digits2_pos p)) with (Zdigits2 (Zpos p)).
    rewrite Zdigits2_log2 by lia.
    assert (Z.log2 (Zpos p) < 1023) by (apply Z.log2_lt_pow2; lia). lia. }
  destruct z as [|p|p].
  - eauto.
  - pose proof (binary_round_positive false p 0 He) as H.
    destruct (binary_round prec emax false p 0); try contradiction; eauto.
    destruct H as [_ H]. specialize (Hd p). lia.
  - pose proof (binary_round_positive true p 0 He) as H.
    destruct (binary_round prec emax true p 0); try contradiction; eauto.
    destruct H as [_ H]. specialize (Hd p). lia.
Qed.

Lemma shl_align_value (m : positive) (e e' : Z) :
  e' <= e -> Zpos (fst (shl_align m e e')) = Zpos m * 2 ^ (e - e').
Proof.
  intros H. unfold shl_align. destruct (e' - e) as [|k|k] eqn:Hk; simpl fst.
  - replace (e - e') with 0 by lia. simpl. lia.
  - lia.
  - rewrite iter_xO_value. f_equal. f_equal. lia.
Qed.

(** Two canonical mantissas at different exponents denote different
    numbers. *)
Lemma canonical_distinct (mx my : positive) (ex ey : Z) :
  canonical_mantissa prec emax mx ex = true ->
  canonical_mantissa prec emax my ey = true ->
  ex < ey -> Zpos mx <> Zpos my * 2 ^ (ey - ex).
Proof.
  unfold canonical_mantissa, fexp, SpecFloat.emin, prec, emax.
  intros Hx Hy Hlt Heq. apply Z.eqb_eq in Hx, Hy.
  assert (Hd : Zdigits2 (Zpos mx) = Zdigits2 (Zpos my) + (ey - ex)).
  { rewrite Heq. rewrite !Zdigits2_log2 by lia.
    rewrite Z.log2_mul_pow2 by lia. lia. }
  simpl Zdigits2 in Hd. lia.
Qed.

Lemma binary_normalize_nonzero (m e : Z) :
  m <> 0 -> SpecFloat.emin prec emax <= e ->
  SFeqb (binary_normalize prec emax m e false) (S754_zero false) = false.
Proof.
  intros Hm He. unfold binary_normalize. destruct m as [|p|p]; [congruence| |].
  - pose proof (binary_round_positive false p e He) as H.
    destruct (binary_round prec emax false p e) as [| [] | |[] ? ?]; try contradiction; reflexivity.
  - pose proof (binary_round_positive true p e He) as H.
    destruct (binary_round prec emax true p e) as [| [] | |[] ? ?]; try contradiction; reflexivity.
Qed.

Lemma bounded_emin (m : positive) (e : Z) :
  bounded prec emax m e = true ->
  canonical_mantissa prec emax m e = true /\ SpecFloat.emin prec emax <= e.
Proof.
  unfold bounded. intros H. apply andb_prop in H. destruct H as [H _].
  split; [assumption|]. unfold canonical_mantissa, fexp in H.
  apply Z.eqb_eq in H. lia.
Qed.

(** On binary64 numbers, [x < y] makes [y - x] different from zero. *)
Lemma SFsub_nonzero (x y : spec_float) :
  valid_binary x = true -> valid_binary y = true ->
  SFltb x y = true ->
  SFeqb (SF64sub y x) (S754_zero false) = false.
Proof.
  intros Vx Vy Hlt.
  destruct x as [sx|sx| |sx mx ex], y as [sy|sy| |sy my ey];
    unfold SFltb, SFeqb, SF64sub in *;
    try (destruct sx; try destruct sy; simpl in *; congruence);
    try (destruct sy; simpl in *; congruence);
    try (simpl in *; congruence).
  fold (SFeqb (SFsub prec emax (S754_finite sy my ey) (S754_finite sx mx ex)) (S754_zero false)).
  simpl in Vx, Vy.
  destruct (bounded_emin _ _ Vx) as [Cx Ex], (bounded_emin _ _ Vy) as [Cy Ey].
  unfold SFsub.
  apply binary_normalize_nonzero; [|lia].
  rewrite (shl_align_value my ey) by lia.
  rewrite (shl_align_value mx ex) by lia.
  unfold SFcompare in Hlt.
  assert (Hpx : 0 < Zpos mx * 2 ^ (ex - Z.min ey ex)).
  { apply Z.mul_pos_pos; [lia|]. apply Z.pow_pos_nonneg; lia. }
  assert (Hpy : 0 < Zpos my * 2 ^ (ey - Z.min ey ex)).
  { apply Z.mul_pos_pos; [lia|]. apply Z.pow_pos_nonneg; lia. }
  destruct sx, sy; simpl cond_Zopp; try lia; try discriminate.
  - destruct (ex ?= ey) eqn:Hc; try discriminate.
    + apply Z.compare_eq in Hc. subst ey. rewrite Z.min_id, Z.sub_diag.
      change (2 ^ 0) with 1. intros Heq.
      assert (Hz : Z.pos mx = Z.pos my) by lia. injection Hz as ->. rewrite Pos.compare_cont_refl in Hlt. discriminate.
    + apply Z.compare_gt_iff in Hc.
      pose proof (canonical_distinct my mx ey ex Cy Cx Hc) as Hne.
      replace (Z.min ey ex) with ey by lia. rewrite Z.sub_diag. change (2 ^ 0) with 1. lia.
  - destruct (ex ?= ey) eqn:Hc; try discriminate.
    + apply Z.compare_eq in Hc. subst ey. rewrite Z.min_id, Z.sub_diag.
      change (2 ^ 0) with 1. intros Heq.
      assert (Hz : Z.pos mx = Z.pos my) by lia. injection Hz as ->. rewrite Pos.compare_cont_refl in Hlt. discriminate.
    + change (ex < ey) in Hc.
      pose proof (canonical_distinct mx my ex ey Cx Cy Hc) as Hne.
      replace (Z.min ey ex) with ex by lia. rewrite Z.sub_diag. change (2 ^ 0) with 1. lia.
Qed.

Lemma sub_nonzero (t1 t2 : float) :
  PrimFloat.ltb t1 t2 = true ->
  PrimFloat.eqb (PrimFloat.sub t2 t1) PrimFloat.zero = false.
Proof.
  intros H. rewrite FloatAxioms.eqb_spec, FloatAxioms.sub_spec.
  rewrite FloatAxioms.ltb_spec in H.
  apply SFsub_nonzero; auto using Prim2SF_valid.
Qed.

(** ** Facts on text *)

Lemma append_nil_l (b : string) : "" +:+ b = b.
Proof. reflexivity. Qed.

Lemma append_cons (x : ascii) (a b : string) : String x a +:+ b = String x (a +:+ b).
Proof. reflexivity. Qed.

(** [simpl] leaves [+:+] alone; this unfolds it on constructors first. *)
Ltac text_simpl := rewrite ?append_cons, ?append_nil_l; simpl.

Lemma append_assoc (a b c : string) : (a +:+ b) +:+ c = a +:+ (b +:+ c).
Proof. induction a as [|x a IH]; text_simpl; [reflexivity | now rewrite IH]. Qed.

Lemma append_empty_r (a : string) : a +:+ "" = a.
Proof. induction a as [|x a IH]; text_simpl; [reflexivity | now rewrite IH]. Qed.

Lemma append_inv_head (a b c : string) : a +:+ b = a +:+ c -> b = c.
Proof. induction a as [|x a IH]; text_simpl; intros H; [assumption|]. injection H. auto. Qed.

Lemma all_chars_append (p : ascii -> bool) (a b : string) :
  all_chars p (a +:+ b) = all_chars p a && all_chars p b.
Proof.
  induction a as [|x a IH]; text_simpl; [reflexivity|]. rewrite IH. now destruct (p x).
Qed.

Lemma all_chars_weaken (p q : ascii -> bool) (s : string) :
  (forall c, p c = true -> q c = true) ->
  all_chars p s = true -> all_chars q s = true.
Proof.
  intros Hpq. induction s as [|x s IH]; text_simpl; [reflexivity|].
  intros H. apply andb_prop in H. destruct H as [H1 H2].
  now rewrite (Hpq _ H1), IH.
Qed.

Lemma contains_none (p : ascii -> bool) (sep : ascii) (s : string) :
  p sep = false -> all_chars p s = true -> Py.contains sep s = false.
Proof.
  intros Hsep. induction s as [|x s IH]; text_simpl; [reflexivity|].
  intros H. apply andb_prop in H. destruct H as [H1 H2]. rewrite (IH H2).
  destruct (Ascii.eqb_spec x sep) as [->|]; [congruence|reflexivity].
Qed.

Lemma contains_append (sep : ascii) (a b : string) :
  Py.contains sep (a +:+ b) = Py.contains sep a || Py.contains sep b.
Proof.
  induction a as [|x a IH]; text_simpl; [reflexivity|]. rewrite IH.
  now destruct (Ascii.eqb x sep).
Qed.

(** *** [split] and [join] *)

Lemma split_nonempty (sep : ascii) (s : string) : Py.split sep s <> [].
Proof.
  destruct s as [|x s]; simpl; [discriminate|].
  destruct (Ascii.eqb x sep); [discriminate|].
  destruct (Py.split sep s); discriminate.
Qed.

Lemma split_none (sep : ascii) (s : string) :
  Py.contains sep s = false -> Py.split sep s = [s].
Proof.
  induction s as [|x s IH]; text_simpl; [reflexivity|].
  destruct (Ascii.eqb x sep); simpl; [discriminate|].
  intros H. now rewrite (IH H).
Qed.

Lemma split_append (sep : ascii) (a b : string) :
  Py.contains sep a = false ->
  Py.split sep (a +:+ String sep b) = a :: Py.split sep b.
Proof.
  induction a as [|x a IH]; text_simpl.
  - intros _. now rewrite Ascii.eqb_refl.
  - destruct (Ascii.eqb x sep); simpl; [discriminate|].
    intros H. now rewrite (IH H).
Qed.

Lemma split_join (sep : ascii) (l : list string) :
  l <> [] ->
  Forall (fun s => Py.contains sep s = false) l ->
  Py.split sep (Py.join sep l) = l.
Proof.
  induction l as [|x l IH]; [congruence|]. intros _ H.
  inversion H as [|? ? Hx Hl]; subst.
  destruct l as [|y l].
  - simpl. now apply split_none.
  - change (Py.join sep (x :: y :: l)) with (x +:+ String sep (Py.join sep (y :: l))).
    rewrite split_append by assumption. f_equal. apply IH; [discriminate|assumption].
Qed.

Lemma all_chars_join (p : ascii -> bool) (sep : ascii) (l : list string) :
  p sep = true ->
  Forall (fun s => all_chars p s = true) l ->
  all_chars p (Py.join sep l) = true.
Proof.
  intros Hsep. induction l as [|x l IH]; intros H; [reflexivity|].
  inversion H as [|? ? Hx Hl]; subst. destruct l as [|y l]; [assumption|].
  change (Py.join sep (x :: y :: l)) with (x +:+ String sep (Py.join sep (y :: l))).
  rewrite all_chars_append, Hx. text_simpl. rewrite Hsep. simpl. now apply IH.
Qed.

(** *** [strip] and [readline] *)

Lemma lstrip_id (c : ascii) (s : string) :
  Py.is_space c = false -> Py.lstrip (String c s) = String c s.
Proof. intros H. simpl. now rewrite H. Qed.

Lemma rstrip_id (s : string) :
  all_chars (fun c => negb (Py.is_space c)) s = true -> Py.rstrip s = s.
Proof.
  induction s as [|x s IH]; text_simpl; [reflexivity|].
  intros H. apply andb_prop in H. destruct H as [H1 H2].
  rewrite (IH H2). destruct s; [|reflexivity].
  now destruct (Py.is_space x).
Qed.

Lemma rstrip_newline (s : string) :
  all_chars (fun c => negb (Py.is_space c)) s = true ->
  Py.rstrip (s +:+ newline) = s.
Proof.
  induction s as [|x s IH]; text_simpl; [reflexivity|].
  intros H. apply andb_prop in H. destruct H as [H1 H2].
  rewrite (IH H2). destruct s; [|reflexivity].
  now destruct (Py.is_space x).
Qed.

Lemma strip_id (s : string) :
  all_chars (fun c => negb (Py.is_space c)) s = true -> Py.strip s = s.
Proof.
  intros H. unfold Py.strip. destruct s as [|x s]; [reflexivity|].
  pose proof H as H'. simpl in H'. apply andb_prop in H'. destruct H' as [H1 _].
  rewrite lstrip_id by now destruct (Py.is_space x).
  now apply rstrip_id.
Qed.

Lemma strip_newline (s : string) :
  all_chars (fun c => negb (Py.is_space c)) s = true ->
  Py.strip (s +:+ newline) = s.
Proof.
  intros H. unfold Py.strip. destruct s as [|x s]; [reflexivity|].
  pose proof H as H'. simpl in H'. apply andb_prop in H'. destruct H' as [H1 _].
  change (String x s +:+ newline) with (String x (s +:+ newline)).
  rewrite lstrip_id by now destruct (Py.is_space x).
  change (String x (s +:+ newline)) with (String x s +:+ newline).
  now apply rstrip_newline.
Qed.

Lemma readline_id (s : string) :
  Py.contains "010" s = false -> Py.readline s = s.
Proof.
  induction s as [|x s IH]; text_simpl; [reflexivity|].
  destruct (Ascii.eqb x "010"); simpl; [discriminate|].
  intros H. now rewrite (IH H).
Qed.

Lemma readline_newline (s : string) :
  Py.contains "010" s = false -> Py.readline (s +:+ newline) = s +:+ newline.
Proof.
  induction s as [|x s IH]; text_simpl; [reflexivity|].
  destruct (Ascii.eqb x "010"); simpl; [discriminate|].
  intros H. now rewrite (IH H).
Qed.

(** The first line of a file, stripped, is the text the file was made
    of when that text has neither blanks nor newlines. *)
Lemma first_line (s : string) (trailing : bool) :
  all_chars (fun c => negb (Py.is_space c)) s = true ->
  Py.strip (Py.readline (s +:+ (if trailing then newline else ""))) = s.
Proof.
  intros H.
  assert (Hn : Py.contains "010" s = false).
  { apply (contains_none (fun c => negb (Py.is_space c))); [reflexivity|assumption]. }
  destruct trailing.
  - rewrite readline_newline by assumption. now apply strip_newline.
  - rewrite append_empty_r, readline_id by assumption. now apply strip_id.
Qed.

(** *** [int] and [str] *)

Lemma digit_not_space (c : ascii) : Py.is_digit c = true -> negb (Py.is_space c) = true.
Proof.
  destruct c as [[] [] [] [] [] [] [] []]; intros H; cbv in H; try discriminate H;
    reflexivity.
Qed.

Lemma digit_list_char (c : ascii) : Py.is_digit c = true -> is_list_char c = true.
Proof. intros H. unfold is_list_char. now rewrite H. Qed.

Lemma list_char_not_space (c : ascii) :
  is_list_char c = true -> negb (Py.is_space c) = true.
Proof.
  destruct c as [[] [] [] [] [] [] [] []]; intros H; cbv in H; try discriminate H;
    reflexivity.
Qed.

Lemma string_of_uint_digits (d : Decimal.uint) :
  all_chars Py.is_digit (NilEmpty.string_of_uint d) = true.
Proof. induction d; simpl; auto. Qed.

Lemma string_of_uint_nonempty (d : Decimal.uint) :
  d <> Decimal.Nil -> NilEmpty.string_of_uint d <> "".
Proof. destruct d; simpl; congruence. Qed.

Lemma to_uint_nonnil (n : N) : N.to_uint n <> Decimal.Nil.
Proof.
  destruct n as [|p]; [discriminate|]. apply DecimalPos.Unsigned.to_uint_nonnil.
Qed.

Lemma drop_underscores_digits (s : string) :
  all_chars Py.is_digit s = true -> Py.drop_underscores true s = Some s.
Proof.
  induction s as [|c s IH]; simpl; [reflexivity|].
  intros H. apply andb_prop in H. destruct H as [H1 H2].
  now rewrite H1, (IH H2).
Qed.

Lemma unsigned_literal_digits (s : string) :
  s <> "" -> all_chars Py.is_digit s = true ->
  Py.unsigned_literal s = Py.digits_value s.
Proof.
  intros Hne H. unfold Py.unsigned_literal. destruct s as [|c s]; [congruence|].
  simpl in H. apply andb_prop in H. destruct H as [H1 H2].
  simpl. now rewrite H1, (drop_underscores_digits s H2).
Qed.

Lemma unsigned_literal_uint (n : N) :
  Py.unsigned_literal (NilEmpty.string_of_uint (N.to_uint n)) = Some (Z.of_N n).
Proof.
  pose proof (string_of_uint_nonempty _ (to_uint_nonnil n)) as Hne.
  rewrite unsigned_literal_digits by (auto using string_of_uint_digits).
  unfold Py.digits_value.
  destruct (NilEmpty.string_of_uint (N.to_uint n)) eqn:Hs; [congruence|].
  rewrite <- Hs, NilEmpty.usu. now rewrite DecimalN.Unsigned.of_to.
Qed.

(** A text that starts with a digit carries no sign. *)
Lemma int_digit_head (c : ascii) (r : string) :
  Py.is_digit c = true ->
  Py.strip (String c r) = String c r ->
  Py.int (String c r) =
    match Py.unsigned_literal (String c r) with
    | Some z => Ok z
    | None => Err ValueError
    end.
Proof.
  intros H Hs. unfold Py.int. rewrite Hs. clear Hs.
  destruct c as [[] [] [] [] [] [] [] []]; cbv in H; try discriminate H; reflexivity.
Qed.

Lemma int_str_N (n : N) :
  Py.int (NilEmpty.string_of_uint (N.to_uint n)) = Ok (Z.of_N n).
Proof.
  pose proof (string_of_uint_nonempty _ (to_uint_nonnil n)) as Hne.
  pose proof (string_of_uint_digits (N.to_uint n)) as Hd.
  pose proof (unsigned_literal_uint n) as Hu.
  destruct (NilEmpty.string_of_uint (N.to_uint n)) as [|c r] eqn:Hs; [congruence|].
  assert (Hstrip : Py.strip (String c r) = String c r).
  { apply strip_id. apply (all_chars_weaken Py.is_digit); [|assumption].
    apply digit_not_space. }
  simpl in Hd. apply andb_prop in Hd. destruct Hd as [Hc _].
  rewrite (int_digit_head c r Hc Hstrip). now rewrite Hu.
Qed.

(** [int(str(z)) == z] *)
Lemma int_str (z : Z) : Py.int (Py.str z) = Ok z.
Proof.
  destruct z as [|p|p].
  - reflexivity.
  - change (Py.str (Zpos p)) with (NilEmpty.string_of_uint (N.to_uint (Npos p))).
    apply (int_str_N (Npos p)).
  - unfold Py.str, Py.int.
    set (ds := NilEmpty.string_of_uint (N.to_uint (N.pos p))).
    assert (Hd : all_chars (fun c => negb (Py.is_space c)) ds = true).
    { apply (all_chars_weaken Py.is_digit); [apply digit_not_space|].
      apply string_of_uint_digits. }
    assert (Hs : Py.strip (String "-" ds) = String "-" ds).
    { apply strip_id. simpl. exact Hd. }
    rewrite Hs. unfold ds. now rewrite (unsigned_literal_uint (Npos p)).
Qed.

Lemma str_inj (a b : Z) : Py.str a = Py.str b -> a = b.
Proof.
  intros H. pose proof (int_str a) as Ha. rewrite H, int_str in Ha. congruence.
Qed.

Lemma str_N_digits (n : N) : all_chars Py.is_digit (Py.str (Z.of_N n)) = true.
Proof.
  destruct n as [|p]; [reflexivity|]. apply string_of_uint_digits.
Qed.

Lemma str_N_nonempty (n : N) : Py.str (Z.of_N n) <> "".
Proof.
  destruct n as [|p]; [discriminate|].
  apply string_of_uint_nonempty, (to_uint_nonnil (Npos p)).
Qed.

Lemma str_no_slash (z : Z) : Py.contains "/" (Py.str z) = false.
Proof.
  assert (H : forall d, Py.contains "/" (NilEmpty.string_of_uint d) = false).
  { intros d. apply (contains_none Py.is_digit); [reflexivity|].
    apply string_of_uint_digits. }
  destruct z; unfold Py.str; simpl Py.contains; rewrite ?H; reflexivity.
Qed.

(** Two texts without the separator, each followed by it, are equal when
    the whole texts are. *)
Lemma append_sep_inj (sep : ascii) (a b s t : string) :
  Py.contains sep a = false -> Py.contains sep b = false ->
  a +:+ String sep s = b +:+ String sep t -> a = b.
Proof.
  revert b. induction a as [|x a IH]; intros [|y b]; text_simpl; intros Ha Hb H.
  - reflexivity.
  - injection H as -> _. rewrite Ascii.eqb_refl in Hb. discriminate.
  - injection H as -> _. rewrite Ascii.eqb_refl in Ha. discriminate.
  - injection H as -> H.
    destruct (Ascii.eqb y sep); [discriminate|]. simpl in Ha, Hb.
    f_equal. now apply IH.
Qed.

(** The control files of two cores are different files. *)
Lemma core_file_inj (a b : Z) (leaf : string) :
  core_file a leaf = core_file b leaf -> a = b.
Proof.
  unfold core_file. intros H.
  apply append_inv_head in H. apply (append_inv_head "cpu") in H.
  change ("/" +:+ leaf) with (String "/" leaf) in H.
  apply append_sep_inj in H; auto using str_no_slash, str_inj.
Qed.

(** ** Running the monad *)

Lemma bind_ok {A B} (m : M A) (k : A -> M B) (st st' : fs) (a : A) :
  m st = (Ok a, st') -> bind m k st = k a st'.
Proof. intros H. unfold bind. now rewrite H. Qed.

Lemma bind_err {A B} (m : M A) (k : A -> M B) (st st' : fs) (e : exn) :
  m st = (Err e, st') -> bind m k st = (Err e, st').
Proof. intros H. unfold bind. now rewrite H. Qed.

Lemma read_text_ok (p v : string) (st : fs) :
  files st !! p = Some v -> read_text p st = (Ok v, st).
Proof. intros H. unfold read_text. now rewrite H. Qed.

Lemma read_text_missing (p : string) (st : fs) :
  files st !! p = None -> read_text p st = (Err FileNotFoundError, st).
Proof. intros H. unfold read_text. now rewrite H. Qed.

Lemma read_text_state (p : string) (st : fs) :
  snd (read_text p st) = st.
Proof. unfold read_text. now destruct (files st !! p). Qed.

Lemma read_datafile_ok {A} (p v : string) (dtype : string -> result A) (st : fs) :
  files st !! p = Some v ->
  read_datafile p dtype st = (dtype (Py.strip (Py.readline v)), st).
Proof.
  intros H. unfold read_datafile. now rewrite (bind_ok _ _ _ _ _ (read_text_ok _ _ _ H)).
Qed.

Lemma read_datafile_state {A} (p : string) (dtype : string -> result A) (st : fs) :
  snd (read_datafile p dtype st) = st.
Proof.
  unfold read_datafile, bind, read_text, lift. now destruct (files st !! p).
Qed.

(** ** Directories and writes *)

Lemma prefix_nil (s : string) : String.prefix "" s = true.
Proof. now destruct s. Qed.

Lemma prefix_cons (c : ascii) (a b : string) :
  String.prefix (String c a) (String c b) = String.prefix a b.
Proof. simpl. destruct (ascii_dec c c); [reflexivity|congruence]. Qed.

Lemma prefix_parent (p : string) : String.prefix (Py.parent_prefix p) p = true.
Proof.
  induction p as [|c r IH]; [reflexivity|]. simpl Py.parent_prefix.
  destruct (Py.contains "/" r).
  - now rewrite prefix_cons.
  - destruct (Ascii.eqb c "/"); [|apply prefix_nil].
    rewrite prefix_cons. apply prefix_nil.
Qed.

Lemma dir_exists_spec (d : string) (st : fs) :
  dir_exists d st = true <->
  d = "" \/ d = "/" \/
  exists q, is_Some (files st !! q) /\ String.prefix d q = true.
Proof.
  unfold dir_exists. rewrite !orb_true_iff, !String.eqb_eq, existsb_exists. split.
  - intros [[H|H]|([q c] & Hin & Hp)]; [now left|now right; left|].
    right; right. exists q. split; [|exact Hp].
    apply list_elem_of_In, elem_of_map_to_list in Hin. now exists c.
  - intros [H|[H|(q & [c Hc] & Hp)]]; [now left; left|now left; right|].
    right. exists (q, c). split; [|exact Hp].
    now apply list_elem_of_In, elem_of_map_to_list.
Qed.

Lemma dir_exists_file (p : string) (st : fs) :
  is_Some (files st !! p) -> dir_exists (Py.parent_prefix p) st = true.
Proof.
  intros H. apply dir_exists_spec. right; right. exists p.
  split; [exact H|apply prefix_parent].
Qed.

Lemma dir_exists_mono (d : string) (st st' : fs) :
  (forall q, is_Some (files st !! q) -> is_Some (files st' !! q)) ->
  dir_exists d st = true -> dir_exists d st' = true.
Proof.
  intros Hsub H. apply dir_exists_spec. apply dir_exists_spec in H.
  destruct H as [H|[H|(q & Hq & Hp)]]; [now left|now right; left|].
  right; right. exists q. split; [now apply Hsub|exact Hp].
Qed.

Lemma write_text_in_dir (p v : string) (st : fs) :
  dir_exists (Py.parent_prefix p) st = true ->
  p ∉ locked st ->
  write_text p v st =
    (Ok tt, mkFs (<[p := v]> (files st)) (locked st) (log st ++ [(p, v)])).
Proof.
  intros Hd H. unfold write_text. rewrite Hd. simpl. now case_bool_decide.
Qed.

Lemma write_text_ok (p v : string) (st : fs) :
  writable st p ->
  write_text p v st =
    (Ok tt, mkFs (<[p := v]> (files st)) (locked st) (log st ++ [(p, v)])).
Proof.
  intros [He Hl]. apply write_text_in_dir; [now apply dir_exists_file|exact Hl].
Qed.

Lemma write_text_no_dir (p v : string) (st : fs) :
  dir_exists (Py.parent_prefix p) st = false ->
  write_text p v st = (Err FileNotFoundError, st).
Proof. intros H. unfold write_text. now rewrite H. Qed.

Lemma write_text_locked (p v : string) (st : fs) :
  is_Some (files st !! p) -> p ∈ locked st ->
  write_text p v st = (Err PermissionError, st).
Proof.
  intros He Hl. unfold write_text. rewrite (dir_exists_file _ _ He). simpl.
  now case_bool_decide.
Qed.

Lemma writable_insert (st : fs) (p q v : string) (l : list (string * string)) :
  writable st p -> writable (mkFs (<[q := v]> (files st)) (locked st) l) p.
Proof.
  intros [He Hl]. split; [|exact Hl]. simpl.
  apply lookup_insert_is_Some. destruct (decide (q = p)); auto.
Qed.

(** Writability of the files of a literal file system, by evaluation. *)
Ltac literal_writable :=
  repeat match goal with
         | |- Forall _ [] => constructor
         | |- Forall _ (_ :: _) => constructor
         | |- _ /\ _ => split
         | |- writable _ _ => apply (bool_decide_unpack _); vm_compute; exact I
         | |- is_Some _ => apply (bool_decide_unpack _); vm_compute; exact I
         end.

Lemma is_Some_insert (m : gmap string string) (p q v : string) :
  is_Some (m !! q) -> is_Some (<[p := v]> m !! q).
Proof. intros H. apply lookup_insert_is_Some. destruct (decide (p = q)); auto. Qed.

(** A file may be created beside an existing one. *)
Lemma write_text_sibling (p q v : string) (st : fs) :
  is_Some (files st !! q) ->
  Py.parent_prefix p = Py.parent_prefix q ->
  p ∉ locked st ->
  write_text p v st =
    (Ok tt, mkFs (<[p := v]> (files st)) (locked st) (log st ++ [(p, v)])).
Proof.
  intros Hq Hd Hl. apply write_text_in_dir; [|exact Hl].
  rewrite Hd. now apply dir_exists_file.
Qed.

(** ** The RAPL meter *)

Lemma float_million : float_of_int (10 ^ 6) = Ok 1000000%float.
Proof. reflexivity. Qed.

Lemma million_nonzero : PrimFloat.eqb 1000000%float PrimFloat.zero = false.
Proof. reflexivity. Qed.

(** A disabled meter answers [-1] and stays as it is. *)
Lemma read_power_disabled (self : Rapl) (now : float) (st : fs) :
  enabled self = false -> read_power self now st = (Ok (PyInt (-1), self), st).
Proof. intros H. unfold read_power. now rewrite H. Qed.

(** An enabled meter whose counter file holds [e]: the call yields the
    power computed from [energy_delta], and moves the baseline. *)
Lemma read_power_enabled (self : Rapl) (now : float) (st : fs) (text : string) (e : Z) :
  enabled self = true ->
  files st !! package_energy_now = Some text ->
  Py.int text = Ok e ->
  read_power self now st =
    (match power_of (energy_delta self e) (PrimFloat.sub now (last_time self)) with
     | Ok p => Ok (PyFloat p, mkRapl true (max_energy self) e now)
     | Err x => Err x
     end, st).
Proof.
  intros Hen Hfile Hint. unfold read_power. rewrite Hen. change (negb true) with false. cbv iota.
  rewrite (bind_ok _ _ _ _ _ (read_text_ok _ _ _ Hfile)).
  unfold bind, lift, ret. rewrite Hint.
  now destruct (power_of _ _).
Qed.

(** C1. When the sampled counter is below the stored baseline, the energy
    delta is the difference plus the wrap modulus [max_energy], added once,
    and it is this corrected delta that is divided by the elapsed time and
    by [10**6]; with a baseline of [max_energy - 100] and a sample of [50]
    the corrected delta is [150]. *)
Theorem read_power_wrap_correction
    (self : Rapl) (now : float) (st : fs) (text : string) (e2 : Z) :
  enabled self = true ->
  files st !! package_energy_now = Some text ->
  Py.int text = Ok e2 ->
  e2 < last_energy self ->
  energy_delta self e2 = e2 - last_energy self + max_energy self /\
  read_power self now st =
    (match power_of (e2 - last_energy self + max_energy self)
                    (PrimFloat.sub now (last_time self)) with
     | Ok p => Ok (PyFloat p, mkRapl true (max_energy self) e2 now)
     | Err x => Err x
     end, st) /\
  (last_energy self = max_energy self - 100 -> e2 = 50 ->
   energy_delta self e2 = 150).
Proof.
  intros Hen Hfile Hint Hlt.
  assert (Hd : energy_delta self e2 = e2 - last_energy self + max_energy self).
  { unfold energy_delta. destruct (Z.ltb_spec e2 (last_energy self)); lia. }
  split; [exact Hd|]. split.
  - rewrite (read_power_enabled self now st text e2 Hen Hfile Hint). now rewrite Hd.
  - intros H1 H2. rewrite Hd. lia.
Qed.

Lemma read_power_wrap_correction_witness :
  energy_delta (mkRapl true 1000 900 1.5%float) 50 = 150.
Proof.
  apply (read_power_wrap_correction (mkRapl true 1000 900 1.5%float) 2.5%float
           (mkFs {[ package_energy_now := "50" ]} ∅ []) "50" 50);
    try reflexivity.
Defined.

(** C2. When the sampled counter [e2] is above the baseline [e1] and the
    sampled time [t2] is above the baseline time [t1], the call returns
    [(e2-e1)/(t2-t1)/1e6]: the integer difference converted to a float,
    divided by the float difference of the times, divided by [1e6].  The
    conversion is the only step that can fail, and it does not fail below
    [2^1023]. *)
Theorem read_power_increasing
    (self : Rapl) (t2 : float) (st : fs) (text : string) (e2 : Z) :
  enabled self = true ->
  files st !! package_energy_now = Some text ->
  Py.int text = Ok e2 ->
  last_energy self < e2 ->
  PrimFloat.ltb (last_time self) t2 = true ->
  read_power self t2 st =
    (match float_of_int (e2 - last_energy self) with
     | Ok d =>
         Ok (PyFloat (PrimFloat.div
                        (PrimFloat.div d (PrimFloat.sub t2 (last_time self)))
                        1000000%float),
             mkRapl true (max_energy self) e2 t2)
     | Err x => Err x
     end, st) /\
  (e2 - last_energy self < 2 ^ 1023 ->
   exists d, float_of_int (e2 - last_energy self) = Ok d).
Proof.
  intros Hen Hfile Hint Hlt Ht. split.
  - rewrite (read_power_enabled self t2 st text e2 Hen Hfile Hint).
    assert (Hd : energy_delta self e2 = e2 - last_energy self).
    { unfold energy_delta. destruct (Z.ltb_spec e2 (last_energy self)); lia. }
    rewrite Hd. unfold power_of, int_truediv_float.
    destruct (float_of_int (e2 - last_energy self)) as [d|x]; [|reflexivity].
    unfold truediv at 1. rewrite (sub_nonzero _ _ Ht).
    unfold float_truediv_int. rewrite float_million.
    unfold truediv. now rewrite million_nonzero.
  - intros Hb. apply float_of_int_defined. lia.
Qed.

Lemma read_power_increasing_witness :
  fst (read_power (mkRapl true 262143328850 1000000 1.5%float) 2%float
         (mkFs {[ package_energy_now := "4000000" ]} ∅ []))
  = Ok (PyFloat 6%float, mkRapl true 262143328850 4000000 2%float).
Proof.
  pose proof (read_power_increasing (mkRapl true 262143328850 1000000 1.5%float)
                2%float (mkFs {[ package_energy_now := "4000000" ]} ∅ [])
                "4000000" 4000000
                eq_refl eq_refl eq_refl eq_refl eq_refl) as [H _].
  rewrite H. reflexivity.
Defined.

(** ** Power reading *)

Section PowerDrawFacts.

Variable float_of_str : string -> option float.

(** C9. When no battery path was detected the power reading method is
    [None], whatever the mains detection found, and [read_power_draw]
    returns [-1] without raising and without touching the file system. *)
Theorem no_battery_power_draw
    (ac_devices bat_devices : list string) (CPU0 CPU : CPUdict) (st st' : fs) :
  detect_power ac_devices bat_devices CPU0 st = (Ok CPU, st') ->
  bat_path CPU = None ->
  power_reading_method_ CPU = None /\
  forall st2, read_power_draw float_of_str CPU st2 = (Ok (PyInt (-1)), st2).
Proof.
  unfold detect_power, bind. intros H Hbat.
  destruct (power_supply_detection ac_devices bat_devices st) as [[paths|e] st1];
    [|discriminate].
  destruct (power_reading_method (snd paths) st1) as [[method|e] st2] eqn:Hm;
    [|discriminate].
  unfold ret in H. injection H as <- <-. simpl in Hbat. rewrite Hbat in Hm.
  simpl in Hm. unfold ret in Hm. injection Hm as <- <-.
  split; [reflexivity|]. intros st3. reflexivity.
Qed.

End PowerDrawFacts.

Lemma no_battery_power_draw_witness :
  read_power_draw float_of_integer_text
    (set_power_keys two_governors
       (Some "/sys/class/power_supply/AC/online") None None) mains_only
  = (Ok (PyInt (-1)), mains_only).
Proof.
  refine (proj2 (no_battery_power_draw float_of_integer_text
                   ["/sys/class/power_supply/AC/type"] []
                   two_governors _ mains_only mains_only _ _) mains_only);
    reflexivity.
Defined.

(** A battery with a [power_now] file is read in watts. *)
Example read_power_draw_battery :
  let st := mkFs {[ "/sys/class/power_supply/BAT0/type" := "Battery";
                    "/sys/class/power_supply/BAT0/status" := "Discharging";
                    "/sys/class/power_supply/BAT0/power_now" := "12000000" ]} ∅ [] in
  let CPU := set_power_keys two_governors None
               (Some "/sys/class/power_supply/BAT0/status") (Some "power") in
  fst (detect_power [] ["/sys/class/power_supply/BAT0/type"] two_governors st) = Ok CPU /\
  fst (read_power_draw float_of_integer_text CPU st) = Ok (PyFloat 12%float).
Proof. split; reflexivity. Qed.

(** ** Governor *)

Lemma assert_true_bind {B} (b : bool) (k : unit -> M B) (st : fs) :
  b = true -> bind (assert b) k st = k tt st.
Proof. intros ->. reflexivity. Qed.

Lemma assert_false_bind {B} (b : bool) (k : unit -> M B) (st : fs) :
  b = false -> bind (assert b) k st = (Err AssertionError, st).
Proof. intros ->. reflexivity. Qed.

(** C5. A governor outside [CPU['governors']] makes [set_governor] fail on
    its assertion, the code's form of [InvalidValueError], before any file
    is read or written: the file system and the log of writes are as they
    were. *)
Theorem set_governor_rejects (CPU : CPUdict) (g : string) (st : fs) :
  string_in g (governors CPU) = false ->
  set_governor CPU g st = (Err AssertionError, st) /\
  kind_of AssertionError = InvalidValueError /\
  log (snd (set_governor CPU g st)) = log st.
Proof.
  intros H. unfold set_governor. rewrite (assert_false_bind _ _ _ H).
  repeat split.
Qed.

Lemma set_governor_rejects_witness :
  set_governor two_governors "ondemand" same_governors
  = (Err AssertionError, same_governors).
Proof.
  apply (set_governor_rejects two_governors "ondemand" same_governors).
  reflexivity.
Defined.

(** [set_governor] once the assertion holds and core 0 has been read. *)
Lemma set_governor_run (CPU : CPUdict) (g g0 : string) (st : fs) :
  string_in g (governors CPU) = true ->
  read_governor 0 st = (Ok g0, st) ->
  set_governor CPU g st =
    if negb (String.eqb g0 g) then
      (cores <- list_cores "online" ;;
       for_each cores (fun core_id => write_text (governor_path core_id) g)) st
    else (Ok tt, st).
Proof.
  intros Hin Hread. unfold set_governor. rewrite (assert_true_bind _ _ _ Hin).
  rewrite (bind_ok _ _ _ _ _ Hread). now destruct (negb (g0 =? g)%string).
Qed.

(** C6, as amended.  When the requested governor is an available one
    and is the governor of every online core, core 0 being one of them,
    nothing is written.  (Without core 0 on the online list the call may
    write, as the stub machine [core0_offline] shows below.) *)
Theorem set_governor_noop (CPU : CPUdict) (g : string) (st : fs) (cores : list Z) :
  string_in g (governors CPU) = true ->
  list_cores "online" st = (Ok cores, st) ->
  zero_in cores = true ->
  Forall (fun core_id => read_governor core_id st = (Ok g, st)) cores ->
  set_governor CPU g st = (Ok tt, st).
Proof.
  intros Hin Hcores Hzero Hall.
  assert (Hread : read_governor 0 st = (Ok g, st)).
  { unfold zero_in in Hzero. apply bool_decide_eq_true in Hzero.
    rewrite Forall_forall in Hall. apply Hall. exact Hzero. }
  rewrite (set_governor_run CPU g g st Hin Hread).
  now rewrite String.eqb_refl.
Qed.

Lemma set_governor_noop_witness :
  set_governor two_governors "powersave" same_governors = (Ok tt, same_governors).
Proof.
  apply (set_governor_noop two_governors "powersave" same_governors [0; 1]);
    try reflexivity.
  repeat constructor.
Defined.

(** C6 as worded fails.  The hypothesis on core 0 cannot be dropped: on
    [core0_offline] the only online core, core 1, is on [performance]
    already, and [set_governor] writes [performance] to it again, because
    core 0, which is not online, is on another governor. *)
Lemma set_governor_noop_counterexample :
  string_in "performance" (governors two_governors) = true /\
  list_cores "online" core0_offline = (Ok [1], core0_offline) /\
  Forall (fun core_id =>
            read_governor core_id core0_offline = (Ok "performance", core0_offline))
         [1] /\
  log core0_offline = [] /\
  log (snd (set_governor two_governors "performance" core0_offline))
  = [(governor_path 1, "performance")].
Proof. repeat split. repeat constructor. Qed.

Lemma for_each_cons {A} (x : A) (l : list A) (body : A -> M unit) :
  for_each (x :: l) body = bind (body x) (fun _ => for_each l body).
Proof. reflexivity. Qed.

(** A loop of writes of one value over writable files performs them all,
    in order. *)
Lemma for_each_write_all (path : Z -> string) (v : string) (cores : list Z) :
  forall st,
    Forall (fun c => writable st (path c)) cores ->
    for_each cores (fun c => write_text (path c) v) st =
      (Ok tt,
       mkFs (foldl (fun m c => <[path c := v]> m) (files st) cores)
            (locked st)
            (log st ++ map (fun c => (path c, v)) cores)).
Proof.
  induction cores as [|c cores IH]; intros st Hw.
  - simpl. unfold ret. destruct st. simpl. now rewrite app_nil_r.
  - inversion Hw as [|? ? Hc Hrest]; subst.
    rewrite for_each_cons. rewrite (bind_ok _ _ _ _ _ (write_text_ok _ v _ Hc)).
    rewrite IH by (eapply Forall_impl; [exact Hrest|];
                   intros c' Hc'; now apply writable_insert).
    simpl. now rewrite <- app_assoc.
Qed.

(** C10. For an available governor the decision to write rests on the
    governor of core 0 alone: when core 0 already has it nothing is
    written, whatever the other online cores have; when core 0 has
    another one, the governor is written to the file of every online
    core, in the order of the online list (each of these files being
    there and accepting the write). *)
Theorem set_governor_core0 (CPU : CPUdict) (g g0 : string) (st : fs) :
  string_in g (governors CPU) = true ->
  read_governor 0 st = (Ok g0, st) ->
  (g0 = g -> set_governor CPU g st = (Ok tt, st)) /\
  (g0 <> g ->
   forall cores,
     list_cores "online" st = (Ok cores, st) ->
     Forall (fun c => writable st (governor_path c)) cores ->
     set_governor CPU g st =
       (Ok tt,
        mkFs (foldl (fun m c => <[governor_path c := g]> m) (files st) cores)
             (locked st)
             (log st ++ map (fun c => (governor_path c, g)) cores))).
Proof.
  intros Hin Hread. rewrite (set_governor_run CPU g g0 st Hin Hread). split.
  - intros ->. now rewrite String.eqb_refl.
  - intros Hne cores Hcores Hw.
    apply String.eqb_neq in Hne. rewrite Hne. change (negb false) with true. cbv iota.
    rewrite (bind_ok _ _ _ _ _ Hcores).
    now apply for_each_write_all.
Qed.

(** Core 0 on the requested governor and core 1 on another: no write. *)
Lemma set_governor_core0_witness :
  set_governor two_governors "powersave" mixed_governors = (Ok tt, mixed_governors).
Proof.
  refine (proj1 (set_governor_core0 two_governors "powersave" "powersave"
                   mixed_governors _ _) _); reflexivity.
Defined.

(** Core 0 on another governor: every online core is written. *)
Example set_governor_core0_differs :
  log (snd (set_governor two_governors "performance" mixed_governors))
  = [(governor_path 0, "performance"); (governor_path 1, "performance")].
Proof. reflexivity. Qed.

(** ** Turbo *)

(** A turbo file that is present but may not be written makes
    [set_turbo_state] return at once: no write, no exception. *)
Lemma set_turbo_state_locked (CPU : CPUdict) (b : bool) (st : fs) :
  turbo_allowed CPU = Some false ->
  set_turbo_state CPU b st = (Ok tt, st).
Proof. intros H. unfold set_turbo_state. rewrite H. reflexivity. Qed.

Lemma detect_turbo_absent (CPU0 : CPUdict) (st : fs) :
  path_exists turbo_pstate st = false ->
  path_exists turbo_cpufreq st = false ->
  path_exists turbo_amd_legacy st = false ->
  detect_turbo CPU0 st =
    (Ok (set_turbo_keys CPU0 None (turbo_inverse CPU0) (turbo_allowed CPU0)), st).
Proof. intros H1 H2 H3. unfold detect_turbo. now rewrite H1, H2, H3. Qed.

(** C3. On a machine with none of the three turbo files the start-up
    code never stores the key [turbo_allowed], and [set_turbo_state], for
    either argument, raises [KeyError] on reading it instead of returning
    silently (no write is performed). *)
Theorem set_turbo_state_without_turbo (CPU0 CPU : CPUdict) (b : bool) (st st' : fs) :
  turbo_allowed CPU0 = None ->
  path_exists turbo_pstate st = false ->
  path_exists turbo_cpufreq st = false ->
  path_exists turbo_amd_legacy st = false ->
  detect_turbo CPU0 st = (Ok CPU, st') ->
  turbo_path CPU = None /\ st' = st /\
  forall st2, set_turbo_state CPU b st2 = (Err KeyError, st2).
Proof.
  intros Hkey H1 H2 H3 Hd. rewrite (detect_turbo_absent CPU0 st H1 H2 H3) in Hd.
  injection Hd as <- <-. repeat split.
  intros st2. unfold set_turbo_state. simpl. rewrite Hkey. reflexivity.
Qed.

Lemma set_turbo_state_without_turbo_witness :
  set_turbo_state
    (set_turbo_keys (initial_CPU ["powersave"] [] "cpufreq") None None None)
    true no_turbo_files
  = (Err KeyError, no_turbo_files).
Proof.
  refine (proj2 (proj2 (set_turbo_state_without_turbo
                          (initial_CPU ["powersave"] [] "cpufreq") _ true
                          no_turbo_files no_turbo_files _ _ _ _ _)) no_turbo_files);
    reflexivity.
Defined.

Lemma int_of_bool_text (b : bool) : Py.int (str_of_bool b) = Ok (if b then 1 else 0).
Proof. now destruct b. Qed.

(** C7. With a turbo file that is present, writable and holds an integer,
    [set_turbo_state b] succeeds and [read_turbo_state] then reports [b],
    for [b] true and false and for both polarities [turbo_inverse]. *)
Theorem turbo_round_trip
    (CPU : CPUdict) (p text : string) (inverse b : bool) (value : Z) (st : fs) :
  turbo_path CPU = Some p ->
  turbo_inverse CPU = Some inverse ->
  turbo_allowed CPU = Some true ->
  p ∉ locked st ->
  files st !! p = Some text ->
  Py.int text = Ok value ->
  exists st',
    set_turbo_state CPU b st = (Ok tt, st') /\
    read_turbo_state CPU st' = (Ok (Some b), st').
Proof.
  intros Hp Hinv Hall Hw Hfile Hint.
  assert (Hread : read_turbo_state CPU st
                  = (Ok (Some (xorb (negb (value =? 0)) inverse)), st)).
  { unfold read_turbo_state. rewrite Hp.
    rewrite (bind_ok _ _ _ _ _ (read_text_ok _ _ _ Hfile)).
    unfold bind, lift, getitem, ret. now rewrite Hint, Hinv. }
  unfold set_turbo_state. rewrite Hall. unfold getitem at 1.
  unfold bind at 1. unfold ret at 1. rewrite (bind_ok _ _ _ _ _ Hread).
  destruct (option_bool_eqb (Some b) (Some (xorb (negb (value =? 0)) inverse))) eqn:Heq.
  - exists st. split; [reflexivity|]. rewrite Hread.
    simpl in Heq. apply Bool.eqb_prop in Heq. now rewrite <- Heq.
  - change (negb false) with true. cbv iota. rewrite Hp, Hinv.
    unfold getitem. unfold bind at 1. unfold ret at 1.
    rewrite (write_text_ok _ _ _ (conj (ex_intro _ text Hfile) Hw)).
    eexists. split; [reflexivity|].
    unfold read_turbo_state. rewrite Hp. unfold bind, read_text, lift, getitem, ret.
    simpl files. rewrite lookup_insert_eq. rewrite int_of_bool_text, Hinv.
    do 3 f_equal. now destruct b, inverse.
Qed.

Lemma turbo_round_trip_witness :
  exists st',
    set_turbo_state pstate_CPU true pstate_turbo = (Ok tt, st') /\
    read_turbo_state pstate_CPU st' = (Ok (Some true), st').
Proof.
  apply (turbo_round_trip pstate_CPU turbo_pstate "1" true true 1 pstate_turbo);
    try reflexivity.
  vm_compute. set_solver.
Defined.

(** ** Core lists *)

Lemma render_range_chars (r : core_range) :
  all_chars is_list_char (render_range r) = true.
Proof.
  assert (H : forall n, all_chars is_list_char (Py.str (Z.of_N n)) = true).
  { intros n. apply (all_chars_weaken Py.is_digit); [apply digit_list_char|].
    apply str_N_digits. }
  destruct r as [n|a b]; simpl; [apply H|].
  rewrite all_chars_append, H. text_simpl. apply H.
Qed.

Lemma render_range_nonempty (r : core_range) : render_range r <> "".
Proof.
  destruct r as [n|a b]; simpl; [apply str_N_nonempty|].
  pose proof (str_N_nonempty a) as H. destruct (Py.str (Z.of_N a)); [congruence|].
  discriminate.
Qed.

Lemma str_N_no_dash (n : N) : Py.contains "-" (Py.str (Z.of_N n)) = false.
Proof. apply (contains_none Py.is_digit); [reflexivity|apply str_N_digits]. Qed.

Lemma cpu_range_to_list_render (r : core_range) :
  cpu_range_to_list (render_range r) = Ok (expand_range r).
Proof.
  unfold cpu_range_to_list. destruct r as [n|a b]; simpl render_range.
  - now rewrite str_N_no_dash, int_str.
  - change ("-" +:+ Py.str (Z.of_N b)) with (String "-" (Py.str (Z.of_N b))).
    rewrite contains_append. text_simpl. rewrite Bool.orb_true_r.
    rewrite split_append by apply str_N_no_dash.
    rewrite split_none by apply str_N_no_dash.
    now rewrite !int_str.
Qed.

Lemma cpu_ranges_to_list_render (l : list core_range) :
  cpu_ranges_to_list (map render_range l) = Ok (expand_ranges l).
Proof.
  unfold cpu_ranges_to_list, expand_ranges.
  induction l as [|r l IH]; simpl; [reflexivity|].
  now rewrite cpu_range_to_list_render, IH.
Qed.

Lemma render_ranges_chars (l : list core_range) :
  all_chars is_list_char (render_ranges l) = true.
Proof.
  apply all_chars_join; [reflexivity|]. apply Forall_map, Forall_forall.
  intros r _. apply render_range_chars.
Qed.

Lemma render_ranges_empty (l : list core_range) :
  l <> [] -> render_ranges l <> "".
Proof.
  destruct l as [|r l]; [congruence|]. intros _. unfold render_ranges. simpl map.
  pose proof (render_range_nonempty r) as H.
  destruct l as [|r' l]; [exact H|].
  change (Py.join "," (render_range r :: map render_range (r' :: l)))
    with (render_range r +:+ String "," (Py.join "," (map render_range (r' :: l)))).
  destruct (render_range r); [congruence|discriminate].
Qed.

Lemma render_range_no_comma (r : core_range) :
  Py.contains "," (render_range r) = false.
Proof.
  apply (contains_none (fun c => Py.is_digit c || Ascii.eqb c "-")); [reflexivity|].
  assert (H : forall n,
             all_chars (fun c => Py.is_digit c || Ascii.eqb c "-") (Py.str (Z.of_N n))
             = true).
  { intros n. apply (all_chars_weaken Py.is_digit); [|apply str_N_digits].
    intros c ->. reflexivity. }
  destruct r as [n|a b]; simpl; [apply H|].
  rewrite all_chars_append, H. text_simpl. apply H.
Qed.

Lemma split_render_ranges (l : list core_range) :
  l <> [] -> Py.split "," (render_ranges l) = map render_range l.
Proof.
  intros Hne. apply split_join.
  - destruct l; [congruence|discriminate].
  - apply Forall_map, Forall_forall. intros r _. apply render_range_no_comma.
Qed.

(** The body of [list_cores] on the content of the control file. *)
Lemma list_cores_content (status content : string) (st : fs) :
  string_in status ["offline"; "online"; "present"] = true ->
  files st !! (CPU_DIR +:+ status) = Some content ->
  list_cores status st =
    (let cpu_ranges := Py.strip (Py.readline content) in
     if String.eqb cpu_ranges "" then Ok []
     else cpu_ranges_to_list (Py.split "," cpu_ranges), st).
Proof.
  intros Hs Hf. unfold list_cores. rewrite (assert_true_bind _ _ _ Hs).
  rewrite (bind_ok _ _ _ _ _ (read_datafile_ok _ _ dtype_str _ Hf)).
  simpl. now destruct (String.eqb _ "").
Qed.

Lemma list_cores_render (status : string) (l : list core_range) (trailing : bool) (st : fs) :
  string_in status ["offline"; "online"; "present"] = true ->
  files st !! (CPU_DIR +:+ status)
    = Some (render_ranges l +:+ (if trailing then newline else "")) ->
  list_cores status st = (Ok (expand_ranges l), st).
Proof.
  intros Hs Hf. rewrite (list_cores_content _ _ _ Hs Hf). cbv zeta.
  rewrite first_line.
  2:{ apply (all_chars_weaken is_list_char); [apply list_char_not_space|].
      apply render_ranges_chars. }
  destruct l as [|r l]; [reflexivity|].
  assert (Hne : r :: l <> []) by discriminate.
  pose proof (render_ranges_empty _ Hne) as He.
  apply String.eqb_neq in He. rewrite He.
  now rewrite split_render_ranges, cpu_ranges_to_list_render.
Qed.

Lemma range_nonneg (a b : Z) : 0 <= a -> Forall (Z.le 0) (Py.range a b).
Proof.
  intros Ha. unfold Py.range. apply Forall_map, Forall_forall. intros i _. simpl. lia.
Qed.

Lemma expand_ranges_nonneg (l : list core_range) : Forall (Z.le 0) (expand_ranges l).
Proof.
  unfold expand_ranges. induction l as [|r l IH]; simpl; [constructor|].
  apply Forall_app. split; [|assumption].
  destruct r as [n|a b]; simpl.
  - repeat constructor. lia.
  - apply range_nonneg. lia.
Qed.

(** The canonical text of a list of core ids is the text of the core list
    that names them one by one. *)
Lemma canonical_text_render (ids : list Z) :
  Forall (Z.le 0) ids ->
  canonical_text ids = render_ranges (map (fun z => Single (Z.to_N z)) ids) /\
  expand_ranges (map (fun z => Single (Z.to_N z)) ids) = ids.
Proof.
  intros H. unfold canonical_text, render_ranges, expand_ranges. split.
  - f_equal. induction H as [|z ids Hz _ IH]; [reflexivity|].
    simpl. rewrite Z2N.id by assumption. now rewrite IH.
  - induction H as [|z ids Hz _ IH]; [reflexivity|].
    simpl. rewrite Z2N.id by assumption. now rewrite IH.
Qed.

(** C8. A control file that holds a well-formed core list (entries
    separated by commas, each a core id or an inclusive range
    [start-end]) is parsed by [list_cores] into the explicit list of the
    ids in order; and a file that holds the canonical text of that list,
    one id per entry, is parsed into the same list. *)
Theorem list_cores_expands
    (status : string) (l : list core_range) (trailing : bool) (st : fs) :
  string_in status ["offline"; "online"; "present"] = true ->
  files st !! (CPU_DIR +:+ status)
    = Some (render_ranges l +:+ (if trailing then newline else "")) ->
  list_cores status st = (Ok (expand_ranges l), st) /\
  forall (trailing2 : bool) (st2 : fs),
    files st2 !! (CPU_DIR +:+ status)
      = Some (canonical_text (expand_ranges l)
              +:+ (if trailing2 then newline else "")) ->
    list_cores status st2 = (Ok (expand_ranges l), st2).
Proof.
  intros Hs Hf. split; [now apply (list_cores_render status l trailing)|].
  intros trailing2 st2 Hf2.
  destruct (canonical_text_render _ (expand_ranges_nonneg l)) as [H1 H2].
  rewrite H1 in Hf2. rewrite <- H2.
  now apply (list_cores_render status _ trailing2).
Qed.

Lemma list_cores_expands_witness :
  list_cores "online" (single_file (CPU_DIR +:+ "online") ("0-3,5,7-8" +:+ newline))
  = (Ok [0; 1; 2; 3; 5; 7; 8],
     single_file (CPU_DIR +:+ "online") ("0-3,5,7-8" +:+ newline)).
Proof.
  apply (list_cores_expands "online" [Span 0 3; Single 5; Span 7 8] true
           (single_file (CPU_DIR +:+ "online") ("0-3,5,7-8" +:+ newline)));
    reflexivity.
Defined.

(** The canonical text of that list parses to the list again. *)
Example list_cores_canonical :
  canonical_text [0; 1; 2; 3; 5; 7; 8] = "0,1,2,3,5,7,8" /\
  fst (list_cores "online" (single_file (CPU_DIR +:+ "online") "0,1,2,3,5,7,8"))
  = Ok [0; 1; 2; 3; 5; 7; 8].
Proof. split; reflexivity. Qed.

(** ** The frame of a computation *)

Section Frame.

Variable P : string -> Prop.

Lemma writes_only_silent {A} (m : M A) :
  (forall st, snd (m st) = st) -> writes_only P m.
Proof.
  intros H st. exists []. rewrite H, app_nil_r. split; [reflexivity|constructor].
Qed.

Lemma writes_only_ret {A} (a : A) : writes_only P (ret a).
Proof. now apply writes_only_silent. Qed.

Lemma writes_only_raise {A} (e : exn) : writes_only P (@raise A e).
Proof. now apply writes_only_silent. Qed.

Lemma writes_only_lift {A} (r : result A) : writes_only P (lift r).
Proof. now apply writes_only_silent. Qed.

Lemma writes_only_assert (b : bool) : writes_only P (assert b).
Proof. apply writes_only_silent. now destruct b. Qed.

Lemma writes_only_index {A} (l : list A) (i : nat) : writes_only P (index l i).
Proof. apply writes_only_silent. intros st. unfold index. now destruct (l !! i). Qed.

Lemma writes_only_read_datafile {A} (p : string) (dtype : string -> result A) :
  writes_only P (read_datafile p dtype).
Proof. apply writes_only_silent. apply read_datafile_state. Qed.

Lemma writes_only_write_text (p v : string) : P p -> writes_only P (write_text p v).
Proof.
  intros Hp st. unfold write_text.
  destruct (negb (dir_exists (Py.parent_prefix p) st)).
  { exists []. rewrite app_nil_r. split; [reflexivity|constructor]. }
  case_bool_decide.
  - exists []. rewrite app_nil_r. split; [reflexivity|constructor].
  - exists [(p, v)]. split; [reflexivity|]. repeat constructor. exact Hp.
Qed.

Lemma writes_only_bind {A B} (m : M A) (k : A -> M B) :
  writes_only P m -> (forall a, writes_only P (k a)) -> writes_only P (bind m k).
Proof.
  intros Hm Hk st. unfold bind. destruct (Hm st) as (new1 & E1 & F1).
  destruct (m st) as [[a|e] st1]; simpl in E1.
  - destruct (Hk a st1) as (new2 & E2 & F2). exists (new1 ++ new2).
    rewrite E2, E1, app_assoc. split; [reflexivity|]. now apply Forall_app.
  - exists new1. simpl. split; assumption.
Qed.

Lemma writes_only_for_each {A} (l : list A) (body : A -> M unit) :
  Forall (fun x => writes_only P (body x)) l -> writes_only P (for_each l body).
Proof.
  induction 1 as [|x l Hx _ IH]; simpl; [apply writes_only_ret|].
  apply writes_only_bind; [exact Hx|]. intros _. exact IH.
Qed.

End Frame.

(** ** Physical cores *)

Lemma tuple_ltb_lt (a b : list Z) : tuple_ltb a b = true <-> tuple_lt a b.
Proof.
  revert b. induction a as [|x a IH]; intros [|y b]; simpl; try easy.
  rewrite Bool.orb_true_iff, Bool.andb_true_iff, Z.ltb_lt, Z.eqb_eq, IH. reflexivity.
Qed.

Lemma tuple_lt_trans (a b c : list Z) : tuple_lt a b -> tuple_lt b c -> tuple_lt a c.
Proof.
  revert b c. induction a as [|x a IH]; intros [|y b] [|z c]; simpl; try easy.
  intros [H1|[-> H1]] [H2|[-> H2]]; try (left; lia). right. eauto.
Qed.

Lemma Forall_insert_tuple (Q : list Z -> Prop) (g : list Z) (l : list (list Z)) :
  Q g -> Forall Q l -> Forall Q (insert_tuple g l).
Proof.
  intros Hg. induction 1 as [|h t Hh Ht IH]; simpl; [now repeat constructor|].
  destruct (tuple_ltb g h); [now repeat constructor|].
  destruct (tuple_ltb h g); now constructor.
Qed.

Lemma insert_tuple_sorted (g : list Z) (l : list (list Z)) :
  StronglySorted tuple_lt l -> StronglySorted tuple_lt (insert_tuple g l).
Proof.
  induction 1 as [|h t Hs IH Hall]; simpl; [now repeat constructor|].
  destruct (tuple_ltb g h) eqn:Hgh.
  - apply tuple_ltb_lt in Hgh. constructor; [now constructor|].
    constructor; [assumption|].
    eapply Forall_impl; [exact Hall|]. intros k Hk. now apply (tuple_lt_trans g h k).
  - destruct (tuple_ltb h g) eqn:Hhg; [|now constructor].
    apply tuple_ltb_lt in Hhg. constructor; [assumption|].
    now apply Forall_insert_tuple.
Qed.

(** [sorted(siblings_set)] is in the strict order of tuples. *)
Lemma sorted_set_sorted (l : list (list Z)) : StronglySorted tuple_lt (sorted_set l).
Proof.
  unfold sorted_set. induction l as [|g l IH]; simpl; [constructor|].
  now apply insert_tuple_sorted.
Qed.

(** The sibling detection stores the groups in that order, with their
    number as [physical_cores]. *)
Lemma detect_siblings_sorted (CPU0 CPU : CPUdict) (st st' : fs) :
  detect_siblings CPU0 st = (Ok CPU, st') ->
  StronglySorted tuple_lt (thread_siblings CPU) /\
  physical_cores CPU = Z.of_nat (length (thread_siblings CPU)).
Proof.
  unfold detect_siblings, bind, ret. intros H.
  destruct (list_cores "present" st) as [[cores|e] st1]; [|discriminate].
  destruct (collect_siblings cores st1) as [[found|e] st2]; [|discriminate].
  injection H as <- <-. simpl. split; [apply sorted_set_sorted|reflexivity].
Qed.

(** The machine [four_threads_CPU] is what the detection finds on a
    machine with the sibling files of four threads. *)
Example detect_siblings_four_threads :
  let st := mkFs {[ CPU_DIR +:+ "present" := "0-3";
                    core_file 0 "topology/thread_siblings_list" := "0,2";
                    core_file 1 "topology/thread_siblings_list" := "1,3";
                    core_file 2 "topology/thread_siblings_list" := "0,2";
                    core_file 3 "topology/thread_siblings_list" := "1,3" ]} ∅ [] in
  fst (detect_siblings (initial_CPU ["powersave"] [] "cpufreq") st)
  = Ok four_threads_CPU.
Proof. reflexivity. Qed.

Lemma read_physical_core_status_state (CPU : CPUdict) (core_num : Z) (st : fs) :
  snd (read_physical_core_status CPU core_num st) = st.
Proof.
  unfold read_physical_core_status, bind, assert, index.
  destruct ((0 <=? core_num) && (core_num <=? physical_cores CPU - 1)); [|reflexivity].
  simpl. destruct (thread_siblings CPU !! Z.to_nat core_num) as [ids|]; [|reflexivity].
  simpl. destruct (zero_in ids); [reflexivity|].
  destruct (ids !! 0%nat) as [first|]; [|reflexivity]. simpl.
  pose proof (read_datafile_state (online_path first) Py.int st) as H.
  destruct (read_datafile (online_path first) Py.int st) as [[v|e] st1];
    simpl in H; subst; reflexivity.
Qed.

(** The group of core 0 is reported online without a look at the files. *)
Lemma read_physical_core_status_zero (CPU : CPUdict) (core_num : Z) (ids : list Z) (st : fs) :
  thread_siblings CPU !! Z.to_nat core_num = Some ids ->
  zero_in ids = true ->
  read_physical_core_status CPU core_num st = (Ok true, st) \/
  read_physical_core_status CPU core_num st = (Err AssertionError, st).
Proof.
  intros Hids Hz. unfold read_physical_core_status, bind, assert, index.
  destruct ((0 <=? core_num) && (core_num <=? physical_cores CPU - 1)); [|now right].
  simpl. rewrite Hids. simpl. rewrite Hz. now left.
Qed.

Lemma enumerate_lookup {A} (l : list A) (i : Z) (x : A) :
  (i, x) ∈ enumerate l -> 0 <= i /\ l !! Z.to_nat i = Some x.
Proof.
  unfold enumerate. intros H. apply elem_of_lookup_imap in H.
  destruct H as (k & y & E & Hk). injection E as -> ->.
  split; [lia|]. now rewrite Nat2Z.id.
Qed.

Lemma elem_of_concat {A} (x : A) (ls : list (list A)) :
  x ∈ concat ls <-> exists l, l ∈ ls /\ x ∈ l.
Proof.
  rewrite list_elem_of_In, in_concat. split; intros (l & H1 & H2); exists l;
    rewrite ?list_elem_of_In in *; auto.
Qed.

(** In a well-formed sibling list a group that holds core 0 starts with
    it. *)
Lemma zero_heads_group (g : list Z) :
  StronglySorted Z.lt g -> Forall (Z.le 0) g -> 0 ∈ g -> exists t, g = 0 :: t.
Proof.
  intros Hs Hn Hz. destruct g as [|x t]; [inversion Hz|].
  apply StronglySorted_inv in Hs. destruct Hs as [_ Hall].
  apply Forall_cons in Hn. destruct Hn as [Hx _].
  apply elem_of_cons in Hz. destruct Hz as [<-|Hz]; [now exists t|].
  rewrite Forall_forall in Hall. specialize (Hall 0 Hz). lia.
Qed.

(** In a well-formed sibling list the group of core 0 is the first. *)
Lemma zero_group_first (groups : list (list Z)) (i : nat) (g : list Z) :
  siblings_wf groups -> groups !! i = Some g -> 0 ∈ g -> i = 0%nat.
Proof.
  intros [Hsorted Hasc Hnn Hne Hpart] Hi Hz.
  destruct i as [|i]; [reflexivity|]. exfalso.
  destruct groups as [|g0 rest]; [discriminate|]. simpl in Hi.
  assert (Hin : g ∈ rest) by (apply list_elem_of_lookup; eauto).
  apply StronglySorted_inv in Hsorted. destruct Hsorted as [_ Hlt].
  rewrite Forall_forall in Hlt. specialize (Hlt g Hin).
  rewrite Forall_forall in Hasc, Hnn, Hne.
  destruct (zero_heads_group g) as [t ->];
    [apply Hasc; now right | apply Hnn; now right | assumption |].
  destruct g0 as [|x g0]; [now apply (Hne [] (list_elem_of_here _ _))|].
  assert (Hx : 0 <= x).
  { specialize (Hnn (x :: g0) (list_elem_of_here _ _)).
    apply Forall_cons in Hnn. tauto. }
  simpl in Hlt. assert (x = 0) by lia. subst x.
  simpl in Hpart. apply NoDup_cons in Hpart. destruct Hpart as [Hpart _].
  apply Hpart. apply elem_of_app. right. apply elem_of_concat.
  exists (0 :: t). split; [assumption|now left].
Qed.

(** A core of a later group is in no group that holds core 0. *)
Lemma later_group_disjoint (groups : list (list Z)) (i : nat) (h g : list Z) (c : Z) :
  siblings_wf groups ->
  groups !! i = Some h -> 0 ∉ h -> c ∈ h ->
  g ∈ groups -> 0 ∈ g -> c ∉ g.
Proof.
  intros Hwf Hi Hh Hc Hg Hz Hcg.
  apply list_elem_of_lookup in Hg. destruct Hg as [j Hj].
  pose proof (zero_group_first groups j g Hwf Hj Hz) as ->.
  destruct Hwf as [_ _ _ _ Hpart].
  destruct groups as [|g0 rest]; [discriminate|]. simpl in Hj. injection Hj as ->.
  destruct i as [|i]; simpl in Hi; [injection Hi as ->; contradiction|].
  simpl in Hpart. apply NoDup_app in Hpart. destruct Hpart as (_ & Hdis & _).
  apply (Hdis c Hcg). apply elem_of_concat. exists h.
  split; [|assumption]. apply list_elem_of_lookup. eauto.
Qed.

(** Outside the accepted range the call fails on its assertion and
    nothing is written. *)
Lemma set_physical_cores_online_out_of_range (CPU : CPUdict) (n : Z) (st : fs) :
  ~ (0 < n <= physical_cores CPU) ->
  set_physical_cores_online CPU n st = (Err AssertionError, st).
Proof.
  intros H. unfold set_physical_cores_online. apply assert_false_bind.
  apply Bool.andb_false_iff. lia.
Qed.

(** On a well-formed sibling list no write of
    [set_physical_cores_online] is to the [online] file of a core of the
    group that holds core 0. *)
Lemma set_physical_cores_online_frame (CPU : CPUdict) (n : Z) (st : fs) :
  siblings_wf (thread_siblings CPU) ->
  0 < n <= physical_cores CPU ->
  exists new,
    log (snd (set_physical_cores_online CPU n st)) = log st ++ new /\
    forall g c v,
      g ∈ thread_siblings CPU -> 0 ∈ g -> c ∈ g -> (online_path c, v) ∉ new.
Proof.
  intros Hwf Hn.
  set (P := fun p : string =>
              forall g c, g ∈ thread_siblings CPU -> 0 ∈ g -> c ∈ g ->
                          p <> online_path c).
  assert (H : writes_only P (set_physical_cores_online CPU n)).
  { unfold set_physical_cores_online.
    apply writes_only_bind; [apply writes_only_assert|]. intros _.
    apply writes_only_for_each, Forall_forall. intros [i h] Hin.
    apply enumerate_lookup in Hin. destruct Hin as [Hi Hlook].
    destruct (zero_in h) eqn:Hz.
    - pose proof Hz as Hz'. unfold zero_in in Hz'. apply bool_decide_eq_true in Hz'.
      pose proof (zero_group_first _ _ _ Hwf Hlook Hz') as Hfirst.
      assert (i = 0) by lia. subst i.
      intros st1. exists []. rewrite app_nil_r. split; [|constructor].
      unfold bind.
      destruct (read_physical_core_status_zero CPU 0 h st1 Hlook Hz) as [E|E];
        rewrite E; [|reflexivity].
      replace (0 <? n) with true by (symmetry; apply Z.ltb_lt; lia). reflexivity.
    - unfold zero_in in Hz. apply bool_decide_eq_false in Hz.
      assert (Hw : forall v,
                 writes_only P
                   (for_each h (fun core_id => write_text (online_path core_id) v))).
      { intros v. apply writes_only_for_each, Forall_forall. intros c Hc.
        apply writes_only_write_text. intros g c' Hg H0 Hc' Heq.
        apply core_file_inj in Heq. subst c'.
        exact (later_group_disjoint _ _ h g c Hwf Hlook Hz Hc Hg H0 Hc'). }
      apply writes_only_bind.
      + apply writes_only_silent. apply read_physical_core_status_state.
      + intros online. destruct (i <? n), online; simpl;
          auto using writes_only_ret. }
  destruct (H st) as (new & E & F). exists new. split; [exact E|].
  intros g c v Hg H0 Hc Hin. rewrite Forall_forall in F.
  exact (F _ Hin g c Hg H0 Hc eq_refl).
Qed.

(** ** What the detection yields on kernel-formatted sibling files *)

Lemma list_cores_state (status : string) (st : fs) :
  snd (list_cores status st) = st.
Proof.
  unfold list_cores, bind, assert.
  destruct (string_in status ["offline"; "online"; "present"]); [|reflexivity].
  simpl. pose proof (read_datafile_state (CPU_DIR +:+ status) dtype_str st) as H.
  destruct (read_datafile (CPU_DIR +:+ status) dtype_str st) as [[t|e] st1];
    simpl in H; subst; [|reflexivity].
  now destruct (t =? "")%string.
Qed.

Lemma tuple_lt_irrefl (a : list Z) : ~ tuple_lt a a.
Proof. induction a as [|x a IH]; simpl; [tauto|]. intros [H|[_ H]]; [lia|tauto]. Qed.

Lemma tuple_ltb_total (a b : list Z) :
  tuple_ltb a b = false -> tuple_ltb b a = false -> a = b.
Proof.
  revert b. induction a as [|x a IH]; intros [|y b]; simpl; try easy.
  intros H1 H2. apply Bool.orb_false_iff in H1, H2.
  destruct H1 as [H1 H1'], H2 as [H2 H2'].
  apply Z.ltb_ge in H1, H2. assert (x = y) by lia. subst y.
  rewrite Z.eqb_refl in H1', H2'. simpl in H1', H2'. f_equal. now apply IH.
Qed.

Lemma insert_tuple_elem (g h : list Z) (l : list (list Z)) :
  h ∈ insert_tuple g l <-> h = g \/ h ∈ l.
Proof.
  induction l as [|x l IH]; simpl.
  - rewrite list_elem_of_singleton. split; [tauto|]. intros [H|H]; [exact H|inversion H].
  - destruct (tuple_ltb g x) eqn:E1.
    + rewrite !elem_of_cons. tauto.
    + destruct (tuple_ltb x g) eqn:E2.
      * rewrite !elem_of_cons, IH. tauto.
      * rewrite (tuple_ltb_total g x E1 E2). rewrite !elem_of_cons. tauto.
Qed.

Lemma sorted_set_elem (h : list Z) (l : list (list Z)) : h ∈ sorted_set l <-> h ∈ l.
Proof.
  unfold sorted_set. induction l as [|g l IH]; simpl; [reflexivity|].
  rewrite insert_tuple_elem, IH, elem_of_cons. reflexivity.
Qed.

Lemma sorted_tuples_NoDup (l : list (list Z)) : StronglySorted tuple_lt l -> NoDup l.
Proof.
  induction 1 as [|x l Hs IH Hall]; constructor; [|exact IH].
  intros Hin. rewrite Forall_forall in Hall.
  exact (tuple_lt_irrefl x (Hall x Hin)).
Qed.

Lemma collect_siblings_spec (cores : list Z) (st st' : fs) (found : list (list Z)) :
  collect_siblings cores st = (Ok found, st') ->
  st' = st /\
  (forall g, g ∈ found <->
     exists c text, c ∈ cores /\
       files st !! core_file c "topology/thread_siblings_list" = Some text /\
       int_tuple (Py.split "," (Py.strip text)) = Ok g).
Proof.
  revert found. induction cores as [|c cores IH]; intros found; simpl.
  - unfold ret. intros H. injection H as <- <-. split; [reflexivity|].
    intros g. split; [intros Hg; inversion Hg|].
    intros (c & text & Hc & _). inversion Hc.
  - unfold bind at 1. unfold exists_ at 1. unfold path_exists.
    case_bool_decide as Hex.
    + destruct Hex as [text Ht]. rewrite (bind_ok _ _ _ _ _ (read_text_ok _ _ _ Ht)).
      unfold bind at 1. unfold lift at 1.
      destruct (int_tuple (Py.split "," (Py.strip text))) as [g0|e] eqn:Hg0; [|discriminate].
      unfold bind.
      destruct (collect_siblings cores st) as [[others|e] st1] eqn:Hc; [|discriminate].
      unfold ret. intros H. injection H as <- <-.
      destruct (IH others eq_refl) as [-> IH2]. split; [reflexivity|].
      intros g. rewrite elem_of_cons, IH2. split.
      * intros [->|(c' & t' & Hc' & Hf & Hp)].
        -- exists c, text. split; [now left|]. now split.
        -- exists c', t'. split; [now right|]. now split.
      * intros (c' & t' & Hc' & Hf & Hp). apply elem_of_cons in Hc'.
        destruct Hc' as [->|Hc'].
        -- left. rewrite Ht in Hf. injection Hf as <-. congruence.
        -- right. exists c', t'. now repeat split.
    + intros H. destruct (IH found H) as [-> IH2]. split; [reflexivity|].
      intros g. rewrite IH2. split.
      * intros (c' & t' & Hc' & Hf & Hp). exists c', t'. split; [now right|]. now split.
      * intros (c' & t' & Hc' & Hf & Hp). apply elem_of_cons in Hc'.
        destruct Hc' as [->|Hc'].
        -- exfalso. apply Hex. rewrite Hf. eauto.
        -- exists c', t'. now repeat split.
Qed.

Lemma int_tuple_length (l : list string) (g : list Z) :
  int_tuple l = Ok g -> length g = length l.
Proof.
  revert g. induction l as [|x l IH]; intros g; simpl.
  - intros H. now injection H as <-.
  - destruct (Py.int x) as [a|e]; [|discriminate].
    destruct (int_tuple l) as [t|e]; [|discriminate].
    intros H. injection H as <-. simpl. f_equal. now apply IH.
Qed.

Lemma sibling_tuple_nonempty (st : fs) (c : Z) (g : list Z) :
  sibling_tuple st c g -> g <> [].
Proof.
  intros (text & _ & Hp) ->. apply int_tuple_length in Hp.
  pose proof (split_nonempty "," (Py.strip text)) as Hne.
  destruct (Py.split "," (Py.strip text)); [congruence|discriminate].
Qed.

Lemma sorted_lt_NoDup (g : list Z) : StronglySorted Z.lt g -> NoDup g.
Proof.
  induction 1 as [|x g Hs IH Hall]; constructor; [|exact IH].
  intros Hin. rewrite Forall_forall in Hall. specialize (Hall x Hin). lia.
Qed.

Lemma NoDup_concat_groups (l : list (list Z)) :
  NoDup l -> Forall (fun g => NoDup g) l ->
  (forall g g' x, g ∈ l -> g' ∈ l -> x ∈ g -> x ∈ g' -> g = g') ->
  NoDup (concat l).
Proof.
  induction l as [|g l IH]; intros Hnd Hall Hdis; simpl; [constructor|].
  apply NoDup_cons in Hnd. destruct Hnd as [Hg Hnd].
  apply Forall_cons in Hall. destruct Hall as [Hgn Hall].
  apply NoDup_app. split; [exact Hgn|]. split.
  - intros x Hx Hc. apply elem_of_concat in Hc. destruct Hc as (g' & Hg' & Hx').
    assert (g = g') as <-.
    { apply (Hdis g g' x); [now left|now right|exact Hx|exact Hx']. }
    contradiction.
  - apply IH; [exact Hnd|exact Hall|].
    intros g1 g2 x H1 H2. apply Hdis; now right.
Qed.

(** On sibling files as the kernel writes them, the sibling list that
    the start-up code builds is well formed. *)
Lemma detect_siblings_wf (CPU0 CPU : CPUdict) (st st' : fs) :
  kernel_siblings st ->
  detect_siblings CPU0 st = (Ok CPU, st') ->
  siblings_wf (thread_siblings CPU) /\
  physical_cores CPU = Z.of_nat (length (thread_siblings CPU)).
Proof.
  intros [Hasc Hnn Hcons] H. unfold detect_siblings, bind, ret in H.
  pose proof (list_cores_state "present" st) as Hs.
  destruct (list_cores "present" st) as [[cores|e] st1]; simpl in Hs; subst st1;
    [|discriminate].
  destruct (collect_siblings cores st) as [[found|e] st2] eqn:Hc; [|discriminate].
  destruct (collect_siblings_spec cores st st2 found Hc) as [-> Hfound].
  injection H as <- <-. simpl. split; [|reflexivity].
  assert (Hfile : forall g, g ∈ sorted_set found -> exists c, sibling_tuple st c g).
  { intros g Hg. apply sorted_set_elem, Hfound in Hg.
    destruct Hg as (c & text & _ & Hf & Hp). exists c, text. now split. }
  split.
  - apply sorted_set_sorted.
  - apply Forall_forall. intros g Hg. destruct (Hfile g Hg) as [c Hc']. eauto.
  - apply Forall_forall. intros g Hg. destruct (Hfile g Hg) as [c Hc']. eauto.
  - apply Forall_forall. intros g Hg. destruct (Hfile g Hg) as [c Hc'].
    eapply sibling_tuple_nonempty; eauto.
  - apply NoDup_concat_groups.
    + apply sorted_tuples_NoDup, sorted_set_sorted.
    + apply Forall_forall. intros g Hg. destruct (Hfile g Hg) as [c Hc'].
      apply sorted_lt_NoDup. eauto.
    + intros g g' x Hg Hg' Hx Hx'.
      destruct (Hfile g Hg) as [c Hc1]. destruct (Hfile g' Hg') as [c' Hc2]. eauto.
Qed.

(** C4, as amended.  On the sibling list that the start-up code builds
    from sibling files as the kernel writes them, and for
    [0 < n <= physical_cores], [set_physical_cores_online n] (run in any
    state of the file system) only appends to the log of writes, and
    none of the appended writes is to the [online] file of a core of the
    group that holds core 0. *)
Theorem set_physical_cores_online_keeps_core0
    (CPU0 CPU : CPUdict) (st0 st0' : fs) (n : Z) (st : fs) :
  kernel_siblings st0 ->
  detect_siblings CPU0 st0 = (Ok CPU, st0') ->
  0 < n <= physical_cores CPU ->
  exists new,
    log (snd (set_physical_cores_online CPU n st)) = log st ++ new /\
    forall g c v,
      g ∈ thread_siblings CPU -> 0 ∈ g -> c ∈ g -> (online_path c, v) ∉ new.
Proof.
  intros Hk Hd Hn.
  destruct (detect_siblings_wf CPU0 CPU st0 st0' Hk Hd) as [Hwf _].
  now apply set_physical_cores_online_frame.
Qed.

Lemma four_threads_wf : siblings_wf [[0; 2]; [1; 3]].
Proof.
  split.
  - repeat constructor; simpl; lia.
  - repeat constructor; lia.
  - repeat constructor; lia.
  - repeat constructor; discriminate.
  - apply NoDup_ListNoDup. repeat constructor; simpl; lia.
Qed.

(** The sibling files of [four_sibling_files] list [0,2] or [1,3]. *)
Lemma four_sibling_files_tuples (c : Z) (g : list Z) :
  sibling_tuple four_sibling_files c g -> g = [0; 2] \/ g = [1; 3].
Proof.
  intros (text & Hf & Hp). apply elem_of_map_to_list in Hf.
  set (l := map_to_list (files four_sibling_files)) in Hf. vm_compute in l. subst l.
  repeat (apply elem_of_cons in Hf; destruct Hf as [Hf|Hf];
          [apply pair_equal_spec in Hf; destruct Hf as [_ ->];
           match type of Hp with
           | ?lhs = _ =>
               let v := eval vm_compute in lhs in
               assert (E : lhs = v) by (vm_compute; reflexivity);
               rewrite E in Hp; clear E
           end;
           first [discriminate Hp | injection Hp as <-; auto]|]).
  inversion Hf.
Qed.

Lemma four_sibling_files_kernel : kernel_siblings four_sibling_files.
Proof.
  split.
  - intros c g H. destruct (four_sibling_files_tuples c g H) as [->| ->];
      repeat constructor; lia.
  - intros c g H. destruct (four_sibling_files_tuples c g H) as [->| ->];
      repeat constructor; lia.
  - intros c g c' g' x H H' Hx Hx'.
    destruct (four_sibling_files_tuples c g H) as [->| ->],
             (four_sibling_files_tuples c' g' H') as [->| ->]; try reflexivity;
      exfalso; repeat (apply elem_of_cons in Hx; destruct Hx as [->|Hx]);
      try (inversion Hx; fail);
      repeat (apply elem_of_cons in Hx'; destruct Hx' as [Hx'|Hx']);
      try (inversion Hx'; fail); discriminate.
Qed.

(** The second physical core brought back on the machine detected from
    [four_sibling_files]: two writes, to cores 1 and 3, none to the group
    of core 0. *)
Lemma set_physical_cores_online_keeps_core0_witness :
  exists new,
    log (snd (set_physical_cores_online four_threads_CPU 2 four_threads))
    = log four_threads ++ new /\
    forall g c v,
      g ∈ thread_siblings four_threads_CPU -> 0 ∈ g -> c ∈ g ->
      (online_path c, v) ∉ new.
Proof.
  apply (set_physical_cores_online_keeps_core0
           (initial_CPU ["powersave"] [] "cpufreq") four_threads_CPU
           four_sibling_files four_sibling_files 2 four_threads).
  - exact four_sibling_files_kernel.
  - reflexivity.
  - simpl. lia.
Defined.

(** Bringing the second physical core back writes to cores 1 and 3 only. *)
Example set_physical_cores_online_two :
  log (snd (set_physical_cores_online four_threads_CPU 2 four_threads))
  = [(online_path 1, "1"); (online_path 3, "1")].
Proof. reflexivity. Qed.

(** C4 as worded fails.  The code keeps the group of core 0 online
    because that group is the first of the sorted list, not because it
    holds core 0: on [swapped_siblings], whose sibling files list core 0
    after core 2, the detection puts the group of core 0 second, and
    keeping one physical core online writes [0] to the [online] files of
    cores 2 and 0. *)
Lemma set_physical_cores_online_keeps_core0_counterexample :
  detect_siblings (initial_CPU ["powersave"] [] "cpufreq") swapped_siblings
    = (Ok swapped_CPU, swapped_siblings) /\
  0 < 1 <= physical_cores swapped_CPU /\
  thread_siblings swapped_CPU !! 1%nat = Some [2; 0] /\
  log swapped_siblings = [] /\
  log (snd (set_physical_cores_online swapped_CPU 1 swapped_siblings))
  = [(online_path 2, "0"); (online_path 0, "0")].
Proof.
  split; [reflexivity|]. split; [simpl; lia|]. split; [reflexivity|].
  split; reflexivity.
Qed.

(** The same happens when the sibling files disagree: a core 0 that
    lists itself alone and a core 2 that lists both give three groups,
    two of them with core 0. *)
Example set_physical_cores_online_crossed :
  let st := mkFs {[ CPU_DIR +:+ "present" := "0-3";
                    core_file 0 "topology/thread_siblings_list" := "0";
                    core_file 1 "topology/thread_siblings_list" := "1,3";
                    core_file 2 "topology/thread_siblings_list" := "0,2";
                    core_file 3 "topology/thread_siblings_list" := "1,3";
                    online_path 0 := "1"; online_path 1 := "1";
                    online_path 2 := "1"; online_path 3 := "1" ]} ∅ [] in
  exists CPU,
    detect_siblings (initial_CPU ["powersave"] [] "cpufreq") st = (Ok CPU, st) /\
    thread_siblings CPU = [[0]; [0; 2]; [1; 3]] /\
    log (snd (set_physical_cores_online CPU 1 st))
    = [(online_path 0, "0"); (online_path 2, "0");
       (online_path 1, "0"); (online_path 3, "0")].
Proof. eexists. repeat split; reflexivity. Qed.

(** ** Further properties of the RAPL meter *)

(** X1. For a baseline and a sample that both lie in [0, max_energy), the
    corrected energy delta is the difference modulo [max_energy]; it lies
    in [0, max_energy) again. *)
Theorem energy_delta_mod (self : Rapl) (e : Z) :
  0 <= last_energy self < max_energy self ->
  0 <= e < max_energy self ->
  energy_delta self e = (e - last_energy self) mod max_energy self /\
  0 <= energy_delta self e < max_energy self.
Proof.
  intros Hl He. unfold energy_delta.
  destruct (Z.ltb_spec e (last_energy self)) as [Hlt|Hge].
  - split; [|lia]. apply (Z.mod_unique _ _ (-1)); lia.
  - split; [|lia]. symmetry. apply Z.mod_small. lia.
Qed.

Lemma energy_delta_mod_witness :
  energy_delta (mkRapl true 1000 900 1.5%float) 50 = (50 - 900) mod 1000.
Proof.
  apply (energy_delta_mod (mkRapl true 1000 900 1.5%float) 50); simpl; lia.
Defined.

(** X2. A call of [read_power] that returns leaves the file system as it
    was and keeps [enabled] and [max_energy]; on an enabled meter the new
    baseline is the time of the call and the integer the counter file
    holds. *)
Theorem read_power_baseline
    (self self' : Rapl) (now : float) (st st' : fs) (v : pyval) :
  read_power self now st = (Ok (v, self'), st') ->
  st' = st /\
  enabled self' = enabled self /\
  max_energy self' = max_energy self /\
  (enabled self = true ->
   last_time self' = now /\
   exists text, files st !! package_energy_now = Some text /\
                Py.int text = Ok (last_energy self')).
Proof.
  unfold read_power. destruct (enabled self) eqn:Hen; simpl.
  - unfold bind, read_text, lift, ret.
    destruct (files st !! package_energy_now) as [text|] eqn:Hf; [|discriminate].
    destruct (Py.int text) as [e|x] eqn:Hi; [|discriminate].
    destruct (power_of _ _) as [p|x]; [|discriminate].
    intros H. injection H as <- <- <-. simpl.
    split; [reflexivity|]. split; [reflexivity|]. split; [reflexivity|].
    intros _. split; [reflexivity|]. exists text. now split.
  - unfold ret. intros H. injection H as <- <- <-. rewrite Hen.
    split; [reflexivity|]. split; [reflexivity|]. split; [reflexivity|].
    discriminate.
Qed.

Lemma read_power_baseline_witness :
  single_file package_energy_now "4000000" = single_file package_energy_now "4000000" /\
  true = true /\
  262143328850 = 262143328850 /\
  (true = true ->
   2%float = 2%float /\
   exists text,
     files (single_file package_energy_now "4000000") !! package_energy_now = Some text /\
     Py.int text = Ok 4000000).
Proof.
  exact (read_power_baseline
           (mkRapl true 262143328850 1000000 1.5%float)
           (mkRapl true 262143328850 4000000 2%float) 2%float
           (single_file package_energy_now "4000000")
           (single_file package_energy_now "4000000")
           (PyFloat 6%float) eq_refl).
Defined.

(** X3. Two samples at the same time: the elapsed time is zero and the
    call raises [ZeroDivisionError]; the counter difference does not
    matter as long as it converts to a float. *)
Theorem read_power_same_time
    (self : Rapl) (st : fs) (text : string) (e : Z) :
  enabled self = true ->
  files st !! package_energy_now = Some text ->
  Py.int text = Ok e ->
  Z.abs (energy_delta self e) < 2 ^ 1023 ->
  PrimFloat.sub (last_time self) (last_time self) = PrimFloat.zero ->
  read_power self (last_time self) st = (Err ZeroDivisionError, st).
Proof.
  intros Hen Hf Hi Hb Hz.
  rewrite (read_power_enabled self _ st text e Hen Hf Hi).
  unfold power_of, int_truediv_float.
  destruct (float_of_int_defined _ Hb) as [d ->].
  unfold truediv. rewrite Hz. reflexivity.
Qed.

Lemma read_power_same_time_witness :
  read_power (mkRapl true 1000 900 1.5%float) 1.5%float
             (single_file package_energy_now "950")
  = (Err ZeroDivisionError, single_file package_energy_now "950").
Proof.
  apply (read_power_same_time (mkRapl true 1000 900 1.5%float)
           (single_file package_energy_now "950") "950" 950);
    reflexivity.
Defined.

(** X4. Without root, or with the counter file or its [enabled] flag
    missing, or with a flag that holds no [1], the constructor yields a
    disabled meter without raising and without a write, and every later
    [read_power] returns [-1]. *)
Theorem rapl_init_disabled (is_root : bool) (now : float) (st : fs) :
  is_root = false \/
  path_exists package_energy_now st = false \/
  path_exists (Py.with_name package_energy_now "enabled") st = false \/
  (exists flag,
     files st !! Py.with_name package_energy_now "enabled" = Some flag /\
     Py.contains "1" flag = false) ->
  exists self,
    rapl_init is_root now st = (Ok self, st) /\
    enabled self = false /\
    forall t st2, read_power self t st2 = (Ok (PyInt (-1), self), st2).
Proof.
  intros H. exists (mkRapl false 0 0 PrimFloat.zero).
  split; [|split; [reflexivity|intros; reflexivity]].
  unfold rapl_init, bind, exists_, ret.
  destruct (path_exists package_energy_now st) eqn:H1; [|reflexivity].
  destruct (path_exists (Py.with_name package_energy_now "enabled") st) eqn:H2;
    [|reflexivity].
  destruct is_root; [|reflexivity]. simpl.
  destruct H as [H|[H|[H|(flag & Hf & Hc)]]]; try discriminate.
  unfold read_text. rewrite Hf, Hc. reflexivity.
Qed.

Lemma rapl_init_disabled_witness :
  exists self,
    rapl_init false 1.5%float (single_file package_energy_now "950")
    = (Ok self, single_file package_energy_now "950") /\
    enabled self = false /\
    forall t st2, read_power self t st2 = (Ok (PyInt (-1), self), st2).
Proof.
  apply (rapl_init_disabled false 1.5%float (single_file package_energy_now "950")).
  left. reflexivity.
Defined.

(** X5. A package that is present and enabled, seen by root, but without
    its [max_energy_range_uj] file: the constructor raises
    [FileNotFoundError]; it does not fall back to a disabled meter. *)
Theorem rapl_init_missing_range (now : float) (st : fs) (flag : string) :
  path_exists package_energy_now st = true ->
  files st !! Py.with_name package_energy_now "enabled" = Some flag ->
  Py.contains "1" flag = true ->
  files st !! Py.with_name package_energy_now "max_energy_range_uj" = None ->
  rapl_init true now st = (Err FileNotFoundError, st).
Proof.
  intros H1 Hf Hc Hm. unfold rapl_init, bind, exists_, ret. rewrite H1.
  assert (H2 : path_exists (Py.with_name package_energy_now "enabled") st = true).
  { unfold path_exists. apply bool_decide_eq_true. rewrite Hf. eauto. }
  rewrite H2. simpl. unfold read_text at 1. rewrite Hf, Hc.
  assert (E : Py.with_name (Py.with_name package_energy_now "enabled")
                           "max_energy_range_uj"
              = Py.with_name package_energy_now "max_energy_range_uj")
    by (vm_compute; reflexivity).
  rewrite E. unfold read_text at 1. rewrite Hm. reflexivity.
Qed.

Lemma rapl_init_missing_range_witness :
  let st := mkFs {[ package_energy_now := "950";
                    Py.with_name package_energy_now "enabled" := "1" ]} ∅ [] in
  rapl_init true 1.5%float st = (Err FileNotFoundError, st).
Proof.
  apply (rapl_init_missing_range 1.5%float
           (mkFs {[ package_energy_now := "950";
                    Py.with_name package_energy_now "enabled" := "1" ]} ∅ []) "1");
    reflexivity.
Defined.

(** ** Further properties of core lists *)

Lemma lstrip_blank (s : string) : all_chars Py.is_space s = true -> Py.lstrip s = "".
Proof.
  induction s as [|c s IH]; simpl; [reflexivity|].
  intros H. apply andb_prop in H. destruct H as [H1 H2]. now rewrite H1, IH.
Qed.

(** X6. A control file whose first line is empty or blank (the [offline]
    file of a machine with every core online holds a lone newline) gives
    the empty list, without an error. *)
Theorem list_cores_blank (status content : string) (st : fs) :
  string_in status ["offline"; "online"; "present"] = true ->
  files st !! (CPU_DIR +:+ status) = Some content ->
  all_chars Py.is_space (Py.readline content) = true ->
  list_cores status st = (Ok [], st).
Proof.
  intros Hs Hf Hb. rewrite (list_cores_content _ _ _ Hs Hf). cbv zeta.
  unfold Py.strip. now rewrite (lstrip_blank _ Hb).
Qed.

Lemma list_cores_blank_witness :
  list_cores "offline" (single_file (CPU_DIR +:+ "offline") newline)
  = (Ok [], single_file (CPU_DIR +:+ "offline") newline).
Proof.
  apply (list_cores_blank "offline" newline); reflexivity.
Defined.

Lemma cpu_range_to_list_error (s : string) (e : exn) :
  cpu_range_to_list s = Err e -> e = ValueError.
Proof.
  unfold cpu_range_to_list, Py.int.
  destruct (Py.contains "-" s).
  - destruct (Py.split "-" s) as [|a [|b [|c l]]]; try congruence.
    repeat match goal with
           | |- context [match ?x with Some _ => _ | None => _ end] => destruct x
           end; congruence.
  - repeat match goal with
           | |- context [match ?x with Some _ => _ | None => _ end] => destruct x
           end; congruence.
Qed.

Lemma int_empty : Py.int "" = Err ValueError.
Proof. reflexivity. Qed.

Lemma cpu_range_to_list_dash (s : string) :
  cpu_range_to_list (String "-" s) = Err ValueError.
Proof.
  unfold cpu_range_to_list.
  change (Py.contains "-" (String "-" s)) with true. cbv iota.
  change (Py.split "-" (String "-" s)) with ("" :: Py.split "-" s).
  pose proof (split_nonempty "-" s) as Hne.
  destruct (Py.split "-" s) as [|b [|c l]]; [congruence| |reflexivity].
  now rewrite int_empty.
Qed.

(** X7. The only exception of [cpu_ranges_to_list] is [ValueError], and
    a list with an entry that starts with a dash (a negative id, for one)
    always raises it: a core list cannot carry a negative number. *)
Theorem cpu_ranges_to_list_negative (l : list string) (s : string) :
  String "-" s ∈ l ->
  cpu_ranges_to_list l = Err ValueError.
Proof.
  unfold cpu_ranges_to_list. induction l as [|x l IH]; intros Hin; [inversion Hin|].
  simpl. destruct (cpu_range_to_list x) as [a|e] eqn:Hx.
  - apply elem_of_cons in Hin. destruct Hin as [<-|Hin].
    + rewrite cpu_range_to_list_dash in Hx. discriminate.
    + now rewrite (IH Hin).
  - now rewrite (cpu_range_to_list_error x e Hx).
Qed.

Lemma cpu_ranges_to_list_negative_witness :
  cpu_ranges_to_list ["0"; "-1"; "4"] = Err ValueError.
Proof.
  apply (cpu_ranges_to_list_negative ["0"; "-1"; "4"] "1").
  apply list_elem_of_In. simpl. tauto.
Defined.

Lemma range_elements (a b z : Z) : z ∈ Py.range a b <-> a <= z < b.
Proof.
  unfold Py.range. rewrite list_elem_of_In, in_map_iff. split.
  - intros (i & <- & Hi). apply in_seq in Hi. lia.
  - intros H. exists (Z.to_nat (z - a)). split; [lia|]. apply in_seq. lia.
Qed.

Lemma range_sorted (a b : Z) : StronglySorted Z.lt (Py.range a b).
Proof.
  unfold Py.range. generalize (Z.to_nat (b - a)) as n. intros n.
  assert (H : forall k, StronglySorted Z.lt
                          (map (fun i => a + Z.of_nat i) (seq k n))).
  { induction n as [|n IH]; intros k; simpl; constructor; [apply IH|].
    apply Forall_map, Forall_forall. intros i Hi. apply list_elem_of_In, in_seq in Hi.
    simpl. lia. }
  apply H.
Qed.

(** X8. An entry [a-b] is parsed to the strictly ascending list of
    exactly the integers from [a] to [b], both included; when [b < a] the
    entry gives the empty list and no error. *)
Theorem cpu_range_to_list_span (a b : N) :
  exists l,
    cpu_range_to_list (Py.str (Z.of_N a) +:+ "-" +:+ Py.str (Z.of_N b)) = Ok l /\
    StronglySorted Z.lt l /\
    (forall z, z ∈ l <-> Z.of_N a <= z <= Z.of_N b) /\
    ((b < a)%N -> l = []).
Proof.
  exists (Py.range (Z.of_N a) (Z.of_N b + 1)).
  split; [exact (cpu_range_to_list_render (Span a b))|].
  split; [apply range_sorted|]. split.
  - intros z. rewrite range_elements. lia.
  - intros Hlt. unfold Py.range.
    replace (Z.to_nat (Z.of_N b + 1 - Z.of_N a)) with 0%nat by lia. reflexivity.
Qed.

(** ** Further properties of the governor and the policy *)

Lemma foldl_insert_hit (path : Z -> string) (v : string) (cores : list Z) (c : Z) :
  forall m : gmap string string,
    c ∈ cores ->
    foldl (fun m c => <[path c := v]> m) m cores !! path c = Some v.
Proof.
  induction cores as [|x cores IH] using rev_ind; intros m Hc; [inversion Hc|].
  rewrite foldl_app. simpl.
  destruct (decide (path x = path c)) as [E|E].
  - rewrite E. apply lookup_insert_eq.
  - rewrite lookup_insert_ne by assumption. apply IH.
    apply elem_of_app in Hc. destruct Hc as [Hc|Hc]; [assumption|].
    apply list_elem_of_singleton in Hc. congruence.
Qed.

Lemma read_datafile_clean (p g : string) (st : fs) :
  files st !! p = Some g -> Py.strip (Py.readline g) = g ->
  read_datafile p dtype_str st = (Ok g, st).
Proof. intros Hf Hg. rewrite (read_datafile_ok _ _ _ _ Hf). now rewrite Hg. Qed.

(** X9. A call of [set_governor] that finds another governor on core 0
    leaves every online core on the requested governor (as
    [read_governor] reports it), and a second call with the same governor
    writes nothing.  The online list holds core 0, the governor file of
    every online core is there and accepts the write, and the governor
    name has no blank at either end. *)
Theorem set_governor_then_read
    (CPU : CPUdict) (g g0 : string) (st : fs) (cores : list Z) :
  string_in g (governors CPU) = true ->
  Py.strip (Py.readline g) = g ->
  read_governor 0 st = (Ok g0, st) ->
  g0 <> g ->
  list_cores "online" st = (Ok cores, st) ->
  zero_in cores = true ->
  Forall (fun c => writable st (governor_path c)) cores ->
  exists st',
    set_governor CPU g st = (Ok tt, st') /\
    Forall (fun c => read_governor c st' = (Ok g, st')) cores /\
    set_governor CPU g st' = (Ok tt, st').
Proof.
  intros Hin Hclean Hread Hne Hcores Hzero Hw.
  rewrite (set_governor_run CPU g g0 st Hin Hread).
  apply String.eqb_neq in Hne. rewrite Hne. change (negb false) with true. cbv iota.
  rewrite (bind_ok _ _ _ _ _ Hcores), (for_each_write_all _ _ _ _ Hw).
  eexists. split; [reflexivity|].
  assert (Hall : forall c, c ∈ cores ->
            read_governor c
              (mkFs (foldl (fun m c => <[governor_path c := g]> m) (files st) cores)
                    (locked st) (log st ++ map (fun c => (governor_path c, g)) cores))
            = (Ok g, mkFs (foldl (fun m c => <[governor_path c := g]> m) (files st) cores)
                          (locked st)
                          (log st ++ map (fun c => (governor_path c, g)) cores))).
  { intros c Hc. apply read_datafile_clean; [|assumption].
    simpl. now apply foldl_insert_hit. }
  split; [apply Forall_forall; exact Hall|].
  unfold zero_in in Hzero. apply bool_decide_eq_true in Hzero.
  rewrite (set_governor_run CPU g g _ Hin (Hall 0 Hzero)).
  now rewrite String.eqb_refl.
Qed.

Lemma set_governor_then_read_witness :
  exists st',
    set_governor two_governors "performance" mixed_governors = (Ok tt, st') /\
    Forall (fun c => read_governor c st' = (Ok "performance", st')) [0; 1] /\
    set_governor two_governors "performance" st' = (Ok tt, st').
Proof.
  apply (set_governor_then_read two_governors "performance" "powersave"
           mixed_governors [0; 1]); try reflexivity.
  - discriminate.
  - literal_writable.
Defined.

Lemma set_policy_run (CPU : CPUdict) (p p0 : string) (st : fs) :
  string_in p (policies CPU) = true ->
  read_policy 0 st = (Ok p0, st) ->
  set_policy CPU p st =
    if negb (String.eqb p p0) then
      (cores <- list_cores "online" ;;
       for_each cores (fun core_id => write_text (policy_path core_id) p)) st
    else (Ok tt, st).
Proof.
  intros Hin Hread. unfold set_policy. rewrite (assert_true_bind _ _ _ Hin).
  rewrite (bind_ok _ _ _ _ _ Hread). now destruct (negb (p =? p0)%string).
Qed.

(** X10. [set_policy] fails on its assertion, before any read or write,
    for a policy that is not in [CPU['policies']] (any policy, when the
    list is empty); for a listed policy it writes nothing when core 0
    already has it, and otherwise writes it to the preference file of
    every online core, in order, each of these files being there and
    accepting the write. *)
Theorem set_policy_core0 (CPU : CPUdict) (p : string) (st : fs) :
  (string_in p (policies CPU) = false ->
   set_policy CPU p st = (Err AssertionError, st)) /\
  (string_in p (policies CPU) = true ->
   forall p0, read_policy 0 st = (Ok p0, st) ->
     (p0 = p -> set_policy CPU p st = (Ok tt, st)) /\
     (p0 <> p ->
      forall cores,
        list_cores "online" st = (Ok cores, st) ->
        Forall (fun c => writable st (policy_path c)) cores ->
        set_policy CPU p st =
          (Ok tt,
           mkFs (foldl (fun m c => <[policy_path c := p]> m) (files st) cores)
                (locked st)
                (log st ++ map (fun c => (policy_path c, p)) cores)))).
Proof.
  split.
  - intros H. unfold set_policy. now apply assert_false_bind.
  - intros Hin p0 Hread. rewrite (set_policy_run CPU p p0 st Hin Hread). split.
    + intros ->. now rewrite String.eqb_refl.
    + intros Hne cores Hcores Hw.
      assert (Hne' : p <> p0) by congruence.
      apply String.eqb_neq in Hne'. rewrite Hne'. change (negb false) with true.
      cbv iota. rewrite (bind_ok _ _ _ _ _ Hcores).
      now apply for_each_write_all.
Qed.

(** ** Frequency range, performance range and power limits *)

Lemma set_freq_range_core_ok (min_freq max_freq cmin cmax c : Z) (st : fs) :
  writable st (min_freq_path c) -> writable st (max_freq_path c) ->
  exists st',
    set_freq_range_core min_freq max_freq (cmin, cmax) c st = (Ok tt, st') /\
    (forall p, writable st p -> writable st' p) /\
    log st' = log st ++ freq_writes min_freq max_freq cmin cmax c /\
    (min_freq = cmin -> max_freq = cmax -> st' = st).
Proof.
  intros Hmin Hmax. unfold set_freq_range_core, freq_writes. simpl fst. simpl snd.
  destruct (Z.eqb_spec min_freq cmin) as [E1|E1], (Z.eqb_spec max_freq cmax) as [E2|E2];
    simpl negb; cbv iota.
  - exists st. rewrite app_nil_r.
    split; [reflexivity|]. split; [auto|]. split; [reflexivity|auto].
  - eexists. unfold bind, ret. rewrite (write_text_ok _ _ _ Hmax).
    split; [reflexivity|]. split; [intros p; apply writable_insert|].
    simpl. split; [reflexivity|congruence].
  - eexists. rewrite (bind_ok _ _ _ _ _ (write_text_ok _ _ _ Hmin)). unfold ret.
    split; [reflexivity|]. split; [intros p; apply writable_insert|].
    simpl. split; [reflexivity|congruence].
  - eexists. rewrite (bind_ok _ _ _ _ _ (write_text_ok _ _ _ Hmin)).
    rewrite write_text_ok by (apply writable_insert; exact Hmax).
    split; [reflexivity|].
    split; [intros p Hp; now apply writable_insert, writable_insert|].
    simpl. rewrite <- ?app_assoc. split; [reflexivity|congruence].
Qed.

Lemma for_each_freq_writes (min_freq max_freq cmin cmax : Z) (cores : list Z) :
  forall st,
    Forall (fun c => writable st (min_freq_path c) /\ writable st (max_freq_path c))
           cores ->
    exists st',
      for_each cores (set_freq_range_core min_freq max_freq (cmin, cmax)) st
        = (Ok tt, st') /\
      log st' = log st ++ concat (map (freq_writes min_freq max_freq cmin cmax) cores) /\
      (min_freq = cmin -> max_freq = cmax -> st' = st).
Proof.
  induction cores as [|c cores IH]; intros st Hw.
  - exists st. simpl. rewrite app_nil_r. now repeat split.
  - inversion Hw as [|? ? [Hmin Hmax] Hrest]; subst. rewrite for_each_cons.
    destruct (set_freq_range_core_ok min_freq max_freq cmin cmax c st Hmin Hmax)
      as (st1 & E1 & Hw1 & Hlog1 & Hsame1).
    rewrite (bind_ok _ _ _ _ _ E1).
    assert (Hrest1 : Forall (fun c => writable st1 (min_freq_path c) /\
                                      writable st1 (max_freq_path c)) cores).
    { eapply Forall_impl; [exact Hrest|]. intros c' [H1 H2]. split; now apply Hw1. }
    destruct (IH st1 Hrest1) as (st' & E & Hlog & Hsame).
    exists st'. split; [exact E|]. split.
    + rewrite Hlog, Hlog1. simpl. now rewrite <- app_assoc.
    + intros H1 H2. rewrite (Hsame H1 H2). now apply Hsame1.
Qed.

(** X11. [set_freq_range] writes, for every online core in order, the
    bound or bounds that differ from the range of core 0, and nothing
    else; when both bounds are those of core 0 the file system and the
    log are left as they were.  The two frequency files of every online
    core are there and accept a write. *)
Theorem set_freq_range_writes
    (min_freq max_freq cmin cmax : Z) (cores : list Z) (st : fs) :
  min_freq <= max_freq ->
  read_freq_range 0 st = (Ok (cmin, cmax), st) ->
  list_cores "online" st = (Ok cores, st) ->
  Forall (fun c => writable st (min_freq_path c) /\ writable st (max_freq_path c))
         cores ->
  exists st',
    set_freq_range min_freq max_freq st = (Ok tt, st') /\
    log st' = log st ++ concat (map (freq_writes min_freq max_freq cmin cmax) cores) /\
    (min_freq = cmin -> max_freq = cmax -> st' = st).
Proof.
  intros Hle Hread Hcores Hw. unfold set_freq_range.
  rewrite assert_true_bind by (apply Z.leb_le; exact Hle).
  rewrite (bind_ok _ _ _ _ _ Hread), (bind_ok _ _ _ _ _ Hcores).
  destruct (for_each_freq_writes min_freq max_freq cmin cmax cores st Hw)
    as (st' & E & Hlog & Hsame).
  exists st'. now repeat split.
Qed.

(** Raising the upper bound only: one write per online core, to its
    [scaling_max_freq]. *)
Lemma set_freq_range_writes_witness :
  exists st',
    set_freq_range 400000 3000000 two_core_freqs = (Ok tt, st') /\
    log st' = log two_core_freqs
              ++ [(max_freq_path 0, "3000000"); (max_freq_path 1, "3000000")] /\
    (400000 = 400000 -> 3000000 = 3400000 -> st' = two_core_freqs).
Proof.
  apply (set_freq_range_writes 400000 3000000 400000 3400000 [0; 1] two_core_freqs);
    try reflexivity.
  - lia.
  - literal_writable.
Defined.

(** [set_freq_range] with [min_freq > max_freq] fails on its
    assertion before it reads the range of core 0 or the online list:
    nothing is read, nothing is written, whatever the files hold. *)
Theorem set_freq_range_rejects (min_freq max_freq : Z) (st : fs) :
  max_freq < min_freq ->
  set_freq_range min_freq max_freq st = (Err AssertionError, st).
Proof.
  intros H. unfold set_freq_range. apply assert_false_bind. apply Z.leb_gt. exact H.
Qed.

Lemma set_freq_range_rejects_witness :
  set_freq_range 3400000 400000 two_core_freqs = (Err AssertionError, two_core_freqs).
Proof. apply (set_freq_range_rejects 3400000 400000 two_core_freqs). lia. Defined.

Lemma read_perf_range_ok
    (keys : DriverKeys) (pmin pmax tmin tmax : string) (cmin cmax : Z) (st : fs) :
  min_perf_pct_path keys = Some pmin ->
  max_perf_pct_path keys = Some pmax ->
  files st !! pmin = Some tmin -> Py.int tmin = Ok cmin ->
  files st !! pmax = Some tmax -> Py.int tmax = Ok cmax ->
  read_perf_range keys st = (Ok (cmin, cmax), st).
Proof.
  intros H1 H2 F1 I1 F2 I2. unfold read_perf_range. rewrite H1, H2.
  unfold getitem, bind, ret, read_text, lift. now rewrite F1, I1, F2, I2.
Qed.

(** X12. On [intel_pstate], with the two percentage files present,
    writable and holding integers and [min <= max], [set_perf_range]
    succeeds, writes only the bound or bounds that differ from what the
    files hold, and [read_perf_range] then returns the requested pair. *)
Theorem set_perf_range_then_read
    (CPU : CPUdict) (keys : DriverKeys) (pmin pmax tmin tmax : string)
    (cmin cmax min_pct max_pct : Z) (st : fs) :
  scaling_driver CPU = "intel_pstate" ->
  min_perf_pct_path keys = Some pmin ->
  max_perf_pct_path keys = Some pmax ->
  pmin <> pmax ->
  files st !! pmin = Some tmin -> Py.int tmin = Ok cmin ->
  files st !! pmax = Some tmax -> Py.int tmax = Ok cmax ->
  pmin ∉ locked st -> pmax ∉ locked st ->
  min_pct <= max_pct ->
  exists st',
    set_perf_range CPU keys min_pct max_pct st = (Ok tt, st') /\
    read_perf_range keys st' = (Ok (min_pct, max_pct), st') /\
    log st' = log st
              ++ (if negb (min_pct =? cmin) then [(pmin, Py.str min_pct)] else [])
              ++ (if negb (max_pct =? cmax) then [(pmax, Py.str max_pct)] else []).
Proof.
  intros Hd H1 H2 Hne F1 I1 F2 I2 L1 L2 Hle.
  assert (W1 : writable st pmin) by (split; [eauto|exact L1]).
  assert (W2 : writable st pmax) by (split; [eauto|exact L2]).
  unfold set_perf_range. rewrite assert_true_bind by (apply Z.geb_le; lia).
  rewrite Hd. change ("intel_pstate" =? "intel_pstate")%string with true. cbv iota.
  rewrite (bind_ok _ _ _ _ _ (read_perf_range_ok keys _ _ _ _ _ _ st H1 H2 F1 I1 F2 I2)).
  simpl fst. simpl snd. rewrite H1, H2. unfold getitem.
  destruct (Z.eqb_spec min_pct cmin) as [E1|E1], (Z.eqb_spec max_pct cmax) as [E2|E2];
    cbn [negb]; cbv iota.
  - exists st. split; [reflexivity|]. split; [|simpl; rewrite <- ?app_assoc, ?app_nil_r; reflexivity].
    subst. now apply (read_perf_range_ok keys pmin pmax tmin tmax).
  - eexists. split.
    { unfold bind at 1. unfold ret at 1. unfold bind, ret.
      rewrite (write_text_ok _ _ _ W2). reflexivity. }
    split; [|simpl; rewrite <- ?app_assoc, ?app_nil_r; reflexivity]. subst min_pct.
    apply (read_perf_range_ok keys pmin pmax tmin (Py.str max_pct)); auto.
    + simpl. now rewrite lookup_insert_ne by congruence.
    + simpl. apply lookup_insert_eq.
    + apply int_str.
  - eexists. split.
    { unfold bind, ret. rewrite (write_text_ok _ _ _ W1). reflexivity. }
    split; [|simpl; rewrite <- ?app_assoc, ?app_nil_r; reflexivity]. subst max_pct.
    apply (read_perf_range_ok keys pmin pmax (Py.str min_pct) tmax); auto.
    + simpl. apply lookup_insert_eq.
    + apply int_str.
    + simpl. now rewrite lookup_insert_ne by congruence.
  - eexists. split.
    { unfold bind, ret. rewrite (write_text_ok _ _ _ W1).
      rewrite write_text_ok by (apply writable_insert; exact W2). reflexivity. }
    split; [|simpl; rewrite <- ?app_assoc, ?app_nil_r; reflexivity].
    apply (read_perf_range_ok keys pmin pmax (Py.str min_pct) (Py.str max_pct)); auto.
    + simpl. rewrite lookup_insert_ne by congruence. apply lookup_insert_eq.
    + apply int_str.
    + simpl. apply lookup_insert_eq.
    + apply int_str.
Qed.

Lemma set_perf_range_then_read_witness :
  exists st',
    set_perf_range pstate_driver_CPU pstate_keys 20 80 pstate_perf = (Ok tt, st') /\
    read_perf_range pstate_keys st' = (Ok (20, 80), st') /\
    log st' = log pstate_perf
              ++ [(CPU_DIR +:+ "intel_pstate/min_perf_pct", "20")]
              ++ [(CPU_DIR +:+ "intel_pstate/max_perf_pct", "80")].
Proof.
  apply (set_perf_range_then_read pstate_driver_CPU pstate_keys
           (CPU_DIR +:+ "intel_pstate/min_perf_pct")
           (CPU_DIR +:+ "intel_pstate/max_perf_pct") "10" "100" 10 100 20 80
           pstate_perf); try reflexivity.
  - discriminate.
  - vm_compute. set_solver.
  - vm_compute. set_solver.
  - lia.
Defined.

(** X13. Under any other scaling driver [set_perf_range] with
    [min <= max] returns without reading or writing anything, even when
    the dict has no percentage paths at all. *)
Theorem set_perf_range_other_driver
    (CPU : CPUdict) (keys : DriverKeys) (min_pct max_pct : Z) (st : fs) :
  scaling_driver CPU <> "intel_pstate" ->
  min_pct <= max_pct ->
  set_perf_range CPU keys min_pct max_pct st = (Ok tt, st).
Proof.
  intros Hd Hle. unfold set_perf_range.
  rewrite assert_true_bind by (apply Z.geb_le; lia).
  apply String.eqb_neq in Hd. now rewrite Hd.
Qed.

Lemma set_perf_range_other_driver_witness :
  set_perf_range two_governors (mkDriverKeys None None None "") 20 80 pstate_perf
  = (Ok tt, pstate_perf).
Proof.
  apply (set_perf_range_other_driver two_governors); [discriminate|lia].
Defined.

(** X14. [set_tdp_limits] with [PL1 <= PL2] does nothing at all when a
    limit is zero, when the driver is not [intel_pstate], or when one of
    the two limit files is missing. *)
Theorem set_tdp_limits_nothing (CPU : CPUdict) (PL1 PL2 : Z) (st : fs) :
  PL1 <= PL2 ->
  PL1 = 0 \/ PL2 = 0 \/ scaling_driver CPU <> "intel_pstate" \/
  path_exists PL1_path st = false \/ path_exists PL2_path st = false ->
  set_tdp_limits CPU PL1 PL2 st = (Ok tt, st).
Proof.
  intros Hle H. unfold set_tdp_limits.
  rewrite assert_true_bind by (apply Z.leb_le; exact Hle).
  destruct ((scaling_driver CPU =? "intel_pstate")%string) eqn:Hd; [|reflexivity].
  destruct (Z.eqb_spec PL1 0) as [E1|E1]; [reflexivity|].
  destruct (Z.eqb_spec PL2 0) as [E2|E2]; [reflexivity|].
  simpl. unfold bind, exists_, ret.
  destruct (path_exists PL1_path st) eqn:X1; [|reflexivity].
  destruct (path_exists PL2_path st) eqn:X2; [|reflexivity].
  apply String.eqb_eq in Hd.
  destruct H as [H|[H|[H|[H|H]]]]; congruence.
Qed.

Lemma set_tdp_limits_nothing_witness :
  set_tdp_limits pstate_driver_CPU 0 25 rapl_limits = (Ok tt, rapl_limits).
Proof.
  apply (set_tdp_limits_nothing pstate_driver_CPU 0 25 rapl_limits); [lia|].
  left. reflexivity.
Defined.

(** X15. On [intel_pstate], with non-zero limits [PL1 <= PL2], the two
    limit files present and the three files writable, [set_tdp_limits]
    writes each positive limit multiplied by [10^6] and then [1] to the
    [enabled] file; a negative limit is not written, and with two
    negative limits nothing is. *)
Theorem set_tdp_limits_writes (CPU : CPUdict) (PL1 PL2 : Z) (st : fs) :
  scaling_driver CPU = "intel_pstate" ->
  PL1 <= PL2 -> PL1 <> 0 -> PL2 <> 0 ->
  path_exists PL1_path st = true -> path_exists PL2_path st = true ->
  PL1_path ∉ locked st -> PL2_path ∉ locked st -> PL_enabled_path ∉ locked st ->
  exists st',
    set_tdp_limits CPU PL1 PL2 st = (Ok tt, st') /\
    log st' = log st ++ tdp_writes PL1 PL2.
Proof.
  intros Hd Hle N1 N2 X1 X2 L1 L2 W3.
  assert (S1 : is_Some (files st !! PL1_path))
    by (unfold path_exists in X1; now apply bool_decide_eq_true in X1).
  assert (S2 : is_Some (files st !! PL2_path))
    by (unfold path_exists in X2; now apply bool_decide_eq_true in X2).
  assert (W1 : writable st PL1_path) by (split; assumption).
  assert (W2 : writable st PL2_path) by (split; assumption).
  assert (D3 : Py.parent_prefix PL_enabled_path = Py.parent_prefix PL1_path)
    by (vm_compute; reflexivity).
  unfold set_tdp_limits, tdp_writes.
  rewrite assert_true_bind by (apply Z.leb_le; exact Hle).
  rewrite Hd. change ("intel_pstate" =? "intel_pstate")%string with true.
  apply Z.eqb_neq in N1, N2. rewrite N1, N2. cbn [andb negb]. cbv iota.
  assert (E1 : exists_ PL1_path st = (Ok true, st))
    by (unfold exists_; now rewrite X1).
  assert (E2 : exists_ PL2_path st = (Ok true, st))
    by (unfold exists_; now rewrite X2).
  rewrite (bind_ok _ _ _ _ _ E1). cbv beta iota.
  rewrite (bind_ok _ _ _ _ _ E2). cbv beta iota.
  destruct (0 <? PL1) eqn:P1, (0 <? PL2) eqn:P2; cbn [orb]; cbv iota.
  - eexists. split.
    { rewrite (bind_ok _ _ _ _ _ (write_text_ok _ _ _ W1)).
      erewrite bind_ok by (apply write_text_ok, writable_insert; exact W2).
      apply (write_text_sibling _ PL1_path); [|exact D3|exact W3].
      simpl. now do 2 apply is_Some_insert. }
    simpl. rewrite <- ?app_assoc, ?app_nil_r. reflexivity.
  - apply Z.ltb_lt in P1. apply Z.ltb_ge in P2. lia.
  - eexists. split.
    { unfold bind at 1. unfold ret at 1.
      erewrite bind_ok by (apply write_text_ok; exact W2).
      apply (write_text_sibling _ PL1_path); [|exact D3|exact W3].
      simpl. now apply is_Some_insert. }
    simpl. rewrite <- ?app_assoc, ?app_nil_r. reflexivity.
  - exists st. split; [reflexivity|]. simpl. rewrite ?app_nil_r. reflexivity.
Qed.

Lemma set_tdp_limits_writes_witness :
  exists st',
    set_tdp_limits pstate_driver_CPU 15 25 rapl_limits = (Ok tt, st') /\
    log st' = log rapl_limits
              ++ [(PL1_path, "15000000"); (PL2_path, "25000000");
                  (PL_enabled_path, "1")].
Proof.
  apply (set_tdp_limits_writes pstate_driver_CPU 15 25 rapl_limits);
    try reflexivity; try lia; vm_compute; set_solver.
Defined.

(** ** Bringing all cores online; turbo detection *)

Lemma path_exists_dom (p : string) (s st : fs) :
  dom (files s) = dom (files st) -> path_exists p s = path_exists p st.
Proof.
  intros H. unfold path_exists. apply bool_decide_ext.
  rewrite <- !elem_of_dom. now rewrite H.
Qed.

Lemma path_exists_lookup (p : string) (st : fs) :
  path_exists p st = true -> exists v, files st !! p = Some v.
Proof. unfold path_exists. intros H. apply bool_decide_eq_true in H. exact H. Qed.

Lemma for_each_online_writes (st : fs) (cores : list Z) :
  forall s,
    dom (files s) = dom (files st) -> locked s = locked st ->
    Forall (fun c => online_path c ∉ locked st) cores ->
    exists s',
      for_each cores (fun core_id =>
        present <- exists_ (online_path core_id) ;;
        if (present : bool) then write_text (online_path core_id) "1" else ret tt) s
      = (Ok tt, s') /\
      log s' = log s ++ map (fun c => (online_path c, "1"))
                            (List.filter (fun c => path_exists (online_path c) st) cores) /\
      dom (files s') = dom (files st).
Proof.
  induction cores as [|c cores IH]; intros s Hdom Hlock Hw.
  - exists s. simpl. rewrite app_nil_r. now repeat split.
  - inversion Hw as [|? ? Hc Hrest]; subst. rewrite for_each_cons. simpl List.filter.
    assert (E : exists_ (online_path c) s = (Ok (path_exists (online_path c) st), s)).
    { unfold exists_. now rewrite (path_exists_dom _ s st Hdom). }
    destruct (path_exists (online_path c) st) eqn:Hex.
    + assert (Hc' : online_path c ∉ locked s) by (rewrite Hlock; exact Hc).
      assert (Eb : (present <- exists_ (online_path c) ;;
                    if (present : bool) then write_text (online_path c) "1" else ret tt) s
                   = (Ok tt, mkFs (<[online_path c := "1"]> (files s)) (locked s)
                                  (log s ++ [(online_path c, "1")]))).
      { rewrite (bind_ok _ _ _ _ _ E). apply write_text_ok. split; [|exact Hc'].
        apply elem_of_dom. rewrite Hdom. apply elem_of_dom.
        exact (path_exists_lookup _ _ Hex). }
      rewrite (bind_ok _ _ _ _ _ Eb).
      destruct (IH (mkFs (<[online_path c := "1"]> (files s)) (locked s)
                         (log s ++ [(online_path c, "1")]))) as (s' & E' & Hlog & Hd).
      * simpl. rewrite dom_insert_L, Hdom.
        destruct (path_exists_lookup _ _ Hex) as [v Hv].
        apply subseteq_union_1_L, singleton_subseteq_l, elem_of_dom. eauto.
      * exact Hlock.
      * exact Hrest.
      * exists s'. split; [exact E'|]. split; [|exact Hd].
        rewrite Hlog. simpl. now rewrite <- app_assoc.
    + assert (Eb : (present <- exists_ (online_path c) ;;
                    if (present : bool) then write_text (online_path c) "1" else ret tt) s
                   = (Ok tt, s)).
      { now rewrite (bind_ok _ _ _ _ _ E). }
      rewrite (bind_ok _ _ _ _ _ Eb). now apply IH.
Qed.

(** X16. [set_all_cores_online] writes [1] to the [online] file of every
    present core that has one, in the order of the present list, and to
    nothing else; it never creates a file (core 0 usually has no [online]
    file and is skipped). *)
Theorem set_all_cores_online_writes (st : fs) (cores : list Z) :
  list_cores "present" st = (Ok cores, st) ->
  Forall (fun c => online_path c ∉ locked st) cores ->
  exists st',
    set_all_cores_online st = (Ok tt, st') /\
    log st' = log st ++ map (fun c => (online_path c, "1"))
                            (List.filter (fun c => path_exists (online_path c) st) cores) /\
    dom (files st') = dom (files st).
Proof.
  intros Hcores Hw. unfold set_all_cores_online.
  rewrite (bind_ok _ _ _ _ _ Hcores).
  now apply for_each_online_writes.
Qed.

Lemma set_all_cores_online_writes_witness :
  exists st',
    set_all_cores_online three_present = (Ok tt, st') /\
    log st' = log three_present
              ++ map (fun c => (online_path c, "1"))
                     (List.filter (fun c => path_exists (online_path c) three_present)
                                  [0; 1; 2]) /\
    dom (files st') = dom (files three_present).
Proof.
  apply (set_all_cores_online_writes three_present [0; 1; 2]).
  - reflexivity.
  - repeat constructor; apply not_elem_of_empty.
Defined.

(** On that machine cores 1 and 2 are written and core 0, which has no
    [online] file, is not. *)
Example set_all_cores_online_three :
  log (snd (set_all_cores_online three_present))
  = [(online_path 1, "1"); (online_path 2, "1")].
Proof. reflexivity. Qed.

Lemma detect_turbo_found (CPU0 : CPUdict) (st : fs) (p : string) (inverse : bool) :
  path_exists p st = true ->
  exists CPU st',
    match (contents <- read_text p ;; write_text p contents) st with
    | (Ok _, st') => (Ok (set_turbo_keys CPU0 (Some p) (Some inverse) (Some true)), st')
    | (Err PermissionError, st') =>
        (Ok (set_turbo_keys CPU0 (Some p) (Some inverse) (Some false)), st')
    | (Err e, st') => (Err e, st')
    end = (Ok CPU, st') /\
    files st' = files st /\ locked st' = locked st /\
    turbo_path CPU = Some p /\
    turbo_inverse CPU = Some inverse /\
    turbo_allowed CPU = Some (negb (bool_decide (p ∈ locked st))).
Proof.
  intros Hex. destruct (path_exists_lookup _ _ Hex) as [v Hv].
  rewrite (bind_ok _ _ _ _ _ (read_text_ok _ _ _ Hv)). unfold write_text.
  rewrite (dir_exists_file p st) by eauto. cbn [negb].
  case_bool_decide.
  - do 2 eexists. split; [reflexivity|]. now repeat split.
  - do 2 eexists. split; [reflexivity|]. simpl. repeat split.
    now apply insert_id.
Qed.

(** X17. The turbo detection never raises and leaves the content of
    every file as it was.  [turbo_path] is the first of the
    [intel_pstate] file, the cpufreq boost file and the legacy AMD file
    that exists, and [None] exactly when none of the three does;
    [turbo_inverse] is true for the [intel_pstate] file only, and
    [turbo_allowed] is false exactly when the chosen file refuses the
    write.  Without a file the other two keys are left as they were. *)
Theorem detect_turbo_sound (CPU0 : CPUdict) (st : fs) :
  exists CPU st',
    detect_turbo CPU0 st = (Ok CPU, st') /\
    files st' = files st /\ locked st' = locked st /\
    turbo_path CPU =
      (if path_exists turbo_pstate st then Some turbo_pstate
       else if path_exists turbo_cpufreq st then Some turbo_cpufreq
       else if path_exists turbo_amd_legacy st then Some turbo_amd_legacy
       else None) /\
    (turbo_path CPU = None <->
       path_exists turbo_pstate st = false /\
       path_exists turbo_cpufreq st = false /\
       path_exists turbo_amd_legacy st = false) /\
    match turbo_path CPU with
    | None =>
        turbo_inverse CPU = turbo_inverse CPU0 /\
        turbo_allowed CPU = turbo_allowed CPU0
    | Some p =>
        path_exists p st = true /\
        turbo_inverse CPU = Some (String.eqb p turbo_pstate) /\
        turbo_allowed CPU = Some (negb (bool_decide (p ∈ locked st)))
    end.
Proof.
  unfold detect_turbo.
  destruct (path_exists turbo_pstate st) eqn:H1.
  - destruct (detect_turbo_found CPU0 st turbo_pstate true H1)
      as (CPU & st' & E & Hf & Hl & Hp & Hi & Ha).
    exists CPU, st'. rewrite E, Hp.
    repeat split; try assumption; try discriminate. now intros [? _].
  - destruct (path_exists turbo_cpufreq st) eqn:H2.
    + destruct (detect_turbo_found CPU0 st turbo_cpufreq false H2)
        as (CPU & st' & E & Hf & Hl & Hp & Hi & Ha).
      exists CPU, st'. rewrite E, Hp.
      repeat split; try assumption; try discriminate. now intros (_ & ? & _).
    + destruct (path_exists turbo_amd_legacy st) eqn:H3.
      * destruct (detect_turbo_found CPU0 st turbo_amd_legacy false H3)
          as (CPU & st' & E & Hf & Hl & Hp & Hi & Ha).
        exists CPU, st'. rewrite E, Hp.
        repeat split; try assumption; try discriminate. now intros (_ & _ & ?).
      * do 2 eexists. split; [reflexivity|]. simpl. now repeat split.
Qed.

(** X18. With a turbo file that is present, writable and holds an
    integer, [set_turbo_state b] writes nothing when the state read from
    the file is already [b], and otherwise performs the single write of
    [1] or [0] for [b] exclusive-or the polarity. *)
Theorem set_turbo_state_writes
    (CPU : CPUdict) (p text : string) (inverse b : bool) (value : Z) (st : fs) :
  turbo_path CPU = Some p ->
  turbo_inverse CPU = Some inverse ->
  turbo_allowed CPU = Some true ->
  p ∉ locked st ->
  files st !! p = Some text ->
  Py.int text = Ok value ->
  exists st',
    set_turbo_state CPU b st = (Ok tt, st') /\
    log st' = log st ++
      (if Bool.eqb b (xorb (negb (value =? 0)) inverse) then []
       else [(p, if xorb b inverse then "1" else "0")]).
Proof.
  intros Hp Hinv Hall Hw Hfile Hint.
  assert (Hread : read_turbo_state CPU st
                  = (Ok (Some (xorb (negb (value =? 0)) inverse)), st)).
  { unfold read_turbo_state. rewrite Hp.
    rewrite (bind_ok _ _ _ _ _ (read_text_ok _ _ _ Hfile)).
    unfold bind, lift, getitem, ret. now rewrite Hint, Hinv. }
  unfold set_turbo_state. rewrite Hall. unfold getitem at 1.
  unfold bind at 1. unfold ret at 1. rewrite (bind_ok _ _ _ _ _ Hread).
  unfold option_bool_eqb.
  destruct (Bool.eqb b (xorb (negb (value =? 0)) inverse)); cbn [negb]; cbv iota.
  - exists st. split; [reflexivity|]. now rewrite app_nil_r.
  - rewrite Hp, Hinv. unfold getitem. unfold bind at 1. unfold ret at 1.
    rewrite (write_text_ok _ _ _ (conj (ex_intro _ text Hfile) Hw)).
    eexists. split; [reflexivity|].
    simpl. unfold str_of_bool. now destruct (xorb b inverse).
Qed.

Lemma set_turbo_state_writes_witness :
  exists st',
    set_turbo_state pstate_CPU true pstate_turbo = (Ok tt, st') /\
    log st' = log pstate_turbo ++ [(turbo_pstate, "0")].
Proof.
  apply (set_turbo_state_writes pstate_CPU turbo_pstate "1" true true 1 pstate_turbo);
    try reflexivity.
  vm_compute. set_solver.
Defined.

(** ** Power supply detection and charging state *)

Lemma find_device_state (devices : list string) (type companion : string) (st : fs) :
  snd (find_device devices type companion st) = st.
Proof.
  induction devices as [|dev rest IH]; simpl; [reflexivity|].
  unfold bind. pose proof (read_datafile_state dev dtype_str st) as H.
  destruct (read_datafile dev dtype_str st) as [[t|e] st1]; simpl in H; subst;
    [|reflexivity].
  destruct (t =? type)%string; [|exact IH].
  unfold exists_. destruct (path_exists (Py.with_name dev companion) st);
    [reflexivity|exact IH].
Qed.

(** X19. When the device search of [power_supply_detection] returns a
    path, that path exists and is the companion file of a listed device
    whose [type] file reads the wanted type; when it returns [None],
    every listed device has another type or lacks its companion file.
    The search changes nothing. *)
Theorem find_device_sound
    (devices : list string) (type companion : string) (st st' : fs)
    (r : option string) :
  find_device devices type companion st = (Ok r, st') ->
  st' = st /\
  match r with
  | Some p =>
      path_exists p st = true /\
      exists dev, dev ∈ devices /\ p = Py.with_name dev companion /\
                  read_datafile dev dtype_str st = (Ok type, st)
  | None =>
      forall dev, dev ∈ devices ->
        exists t, read_datafile dev dtype_str st = (Ok t, st) /\
                  (t <> type \/ path_exists (Py.with_name dev companion) st = false)
  end.
Proof.
  intros H. split.
  { pose proof (find_device_state devices type companion st) as Hs.
    rewrite H in Hs. exact Hs. }
  revert H. induction devices as [|dev rest IH]; simpl.
  - unfold ret. intros H. injection H as <- <-. intros dev Hd. inversion Hd.
  - unfold bind. pose proof (read_datafile_state dev dtype_str st) as Hs.
    destruct (read_datafile dev dtype_str st) as [[t|e] st1] eqn:Hr; simpl in Hs;
      subst st1; [|discriminate].
    destruct (String.eqb_spec t type) as [->|Hne].
    + unfold exists_ at 1.
      destruct (path_exists (Py.with_name dev companion) st) eqn:Hex.
      * unfold ret. intros H. injection H as <- <-. split; [exact Hex|].
        exists dev. split; [now left|]. now split.
      * intros H. specialize (IH H). destruct r as [p|].
        -- destruct IH as (Hp & d & Hd & E1 & E2). split; [exact Hp|].
           exists d. split; [now right|]. now split.
        -- intros d Hd. apply elem_of_cons in Hd. destruct Hd as [->|Hd]; [|now apply IH].
           exists type. split; [exact Hr|]. now right.
    + intros H. specialize (IH H). destruct r as [p|].
      * destruct IH as (Hp & d & Hd & E1 & E2). split; [exact Hp|].
        exists d. split; [now right|]. now split.
      * intros d Hd. apply elem_of_cons in Hd. destruct Hd as [->|Hd]; [|now apply IH].
        exists t. split; [exact Hr|]. now left.
Qed.

Lemma find_device_sound_witness :
  on_battery = on_battery /\
  path_exists "/sys/class/power_supply/BAT0/status" on_battery = true /\
  exists dev, dev ∈ ["/sys/class/power_supply/BAT0/type"] /\
              "/sys/class/power_supply/BAT0/status" = Py.with_name dev "status" /\
              read_datafile dev dtype_str on_battery = (Ok "Battery", on_battery).
Proof.
  exact (find_device_sound ["/sys/class/power_supply/BAT0/type"] "Battery" "status"
           on_battery on_battery (Some "/sys/class/power_supply/BAT0/status") eq_refl).
Defined.

Section PowerDrawAfterDetect.

Variable float_of_str : string -> option float.

(** X20. On the dict that the power detection of the start-up code
    produced, and with the files as they were then, [read_power_draw]
    finds every file it opens: it returns a value, or raises [ValueError]
    when [float()] rejects a content; it raises nothing else. *)
Theorem read_power_draw_after_detect
    (ac_devices bat_devices : list string) (CPU0 CPU : CPUdict) (st st' : fs) :
  detect_power ac_devices bat_devices CPU0 st = (Ok CPU, st') ->
  st' = st /\
  ((exists v, read_power_draw float_of_str CPU st = (Ok v, st)) \/
   read_power_draw float_of_str CPU st = (Err ValueError, st)).
Proof.
  unfold detect_power, power_supply_detection, bind. intros H.
  pose proof (find_device_state ac_devices "Mains" "online" st) as Hs1.
  destruct (find_device ac_devices "Mains" "online" st) as [[ac|e] st1];
    simpl in Hs1; subst st1; [|discriminate].
  pose proof (find_device_state bat_devices "Battery" "status" st) as Hs2.
  destruct (find_device bat_devices "Battery" "status" st) as [[bat|e] st1];
    simpl in Hs2; subst st1; [|discriminate].
  unfold ret in H. simpl in H.
  destruct bat as [bat|]; simpl in H.
  2:{ injection H as <- <-. split; [reflexivity|]. left. now exists (PyInt (-1)). }
  unfold bind, exists_, ret in H.
  destruct (path_exists (Py.with_name bat "power_now") st) eqn:X1.
  - injection H as <- <-. split; [reflexivity|].
    destruct (path_exists_lookup _ _ X1) as [v Hv].
    unfold read_power_draw. cbn [power_reading_method_ set_power_keys].
    change (option_string_eqb (Some "power") "power") with true. cbv iota.
    unfold bind, read_battery_file, read_text, parse_float, lift, ret.
    cbn [bat_path set_power_keys]. rewrite Hv.
    destruct (float_of_str v) as [x|]; [|now right].
    left. eexists. reflexivity.
  - destruct (path_exists (Py.with_name bat "current_now") st) eqn:X2;
      destruct (path_exists (Py.with_name bat "voltage_now") st) eqn:X3;
      simpl in H; injection H as <- <-; split; try reflexivity;
      try (left; now exists (PyInt (-1))).
    destruct (path_exists_lookup _ _ X2) as [c Hc].
    destruct (path_exists_lookup _ _ X3) as [v Hv].
    unfold read_power_draw. cbn [power_reading_method_ set_power_keys].
    change (option_string_eqb (Some "current_and_voltage") "power") with false.
    change (option_string_eqb (Some "current_and_voltage") "current_and_voltage")
      with true. cbv iota.
    unfold bind, read_battery_file, read_text, parse_float, lift, ret.
    cbn [bat_path set_power_keys]. rewrite Hc, Hv.
    destruct (float_of_str c) as [x|]; [|now right].
    destruct (float_of_str v) as [y|]; [|now right].
    left. eexists. reflexivity.
Qed.

End PowerDrawAfterDetect.

Lemma read_power_draw_after_detect_witness :
  on_battery = on_battery /\
  ((exists v, read_power_draw float_of_integer_text on_battery_CPU on_battery
              = (Ok v, on_battery)) \/
   read_power_draw float_of_integer_text on_battery_CPU on_battery
   = (Err ValueError, on_battery)).
Proof.
  exact (read_power_draw_after_detect float_of_integer_text
           ["/sys/class/power_supply/AC/type"] ["/sys/class/power_supply/BAT0/type"]
           two_governors on_battery_CPU on_battery on_battery eq_refl).
Defined.

(** X21. When the mains file holds a [1], [read_charging_state] answers
    [True] without looking at the battery: the answer does not depend on
    the battery path, and a battery file that is missing raises nothing. *)
Theorem read_charging_state_mains (CPU : CPUdict) (ac data : string) (st : fs) :
  ac_path CPU = Some ac ->
  files st !! ac = Some data ->
  Py.contains "1" data = true ->
  read_charging_state CPU st = (Ok true, st).
Proof.
  intros Ha Hf Hc. unfold read_charging_state. rewrite Ha.
  rewrite (bind_ok _ _ _ _ _ (read_text_ok _ _ _ Hf)). now rewrite Hc.
Qed.

Lemma read_charging_state_mains_witness :
  read_charging_state
    (set_power_keys two_governors (Some "/sys/class/power_supply/AC/online")
                    (Some "/sys/class/power_supply/BAT0/status") None)
    mains_only
  = (Ok true, mains_only).
Proof.
  apply (read_charging_state_mains _ "/sys/class/power_supply/AC/online" "1");
    reflexivity.
Defined.

(** X22. [read_charging_state] answers [False] only on evidence: the
    mains file holds a [0] and no [1], or the battery file holds
    [Discharging].  With neither (no paths, or files that say nothing)
    the answer cannot be [False]. *)
Theorem read_charging_state_false (CPU : CPUdict) (st st' : fs) :
  read_charging_state CPU st = (Ok false, st') ->
  (exists ac data, ac_path CPU = Some ac /\ files st !! ac = Some data /\
                   Py.contains "0" data = true /\ Py.contains "1" data = false) \/
  (exists bat data, bat_path CPU = Some bat /\ files st !! bat = Some data /\
                    str_in "Discharging" data = true).
Proof.
  unfold read_charging_state.
  assert (Hbat : forall ac_state,
    (bind
       match bat_path CPU with
       | Some bat =>
           battery_data <- read_text bat ;;
           if str_in "Discharging" battery_data then ret (inr (Some false))
           else if str_in "Charging" battery_data then ret (inl true)
           else ret (inr None)
       | None => ret (inr None)
       end
       (fun battery_part : bool + option bool =>
          match battery_part with
          | inl answer => ret answer
          | inr battery_state =>
              if option_bool_eqb ac_state (Some false)
                 || option_bool_eqb battery_state (Some false)
              then ret false else ret true
          end)) st = (Ok false, st') ->
    ac_state = Some false \/
    (exists bat data, bat_path CPU = Some bat /\ files st !! bat = Some data /\
                      str_in "Discharging" data = true)).
  { intros ac_state. unfold bind, read_text, ret.
    destruct (bat_path CPU) as [bat|].
    - destruct (files st !! bat) as [data|] eqn:Hf; [|discriminate].
      destruct (str_in "Discharging" data) eqn:Hd.
      + intros _. right. exists bat, data. now repeat split.
      + destruct (str_in "Charging" data); [discriminate|].
        destruct ac_state as [[|]|]; simpl; try discriminate. now left.
    - destruct ac_state as [[|]|]; simpl; try discriminate. now left. }
  destruct (ac_path CPU) as [ac|].
  - unfold bind at 1. unfold read_text at 1.
    destruct (files st !! ac) as [data|] eqn:Hf; [|discriminate].
    destruct (Py.contains "1" data) eqn:H1; [discriminate|].
    destruct (Py.contains "0" data) eqn:H0.
    + intros H. destruct (Hbat (Some false) H) as [_|Hb]; [|now right].
      left. exists ac, data. now repeat split.
    + intros H. destruct (Hbat None H) as [Hx|Hb]; [discriminate|now right].
  - intros H. destruct (Hbat None H) as [Hx|Hb]; [discriminate|now right].
Qed.

Lemma read_charging_state_false_witness :
  (exists ac data, ac_path on_battery_CPU = Some ac /\ files on_battery !! ac = Some data /\
                   Py.contains "0" data = true /\ Py.contains "1" data = false) \/
  (exists bat data, bat_path on_battery_CPU = Some bat /\
                    files on_battery !! bat = Some data /\
                    str_in "Discharging" data = true).
Proof.
  exact (read_charging_state_false on_battery_CPU on_battery on_battery eq_refl).
Defined.

(** ** Sibling detection *)

(** X23. When the sibling detection succeeds it has changed nothing;
    [thread_siblings] is strictly ascending in the order of tuples, so
    without duplicates; [physical_cores] is its length; and its groups
    are exactly the tuples parsed from the sibling files of the present
    cores that have one. *)
Theorem detect_siblings_groups (CPU0 CPU : CPUdict) (st st' : fs) :
  detect_siblings CPU0 st = (Ok CPU, st') ->
  st' = st /\
  StronglySorted tuple_lt (thread_siblings CPU) /\
  NoDup (thread_siblings CPU) /\
  physical_cores CPU = Z.of_nat (length (thread_siblings CPU)) /\
  exists cores,
    list_cores "present" st = (Ok cores, st) /\
    forall g, g ∈ thread_siblings CPU <->
      exists c text, c ∈ cores /\
        files st !! core_file c "topology/thread_siblings_list" = Some text /\
        int_tuple (Py.split "," (Py.strip text)) = Ok g.
Proof.
  unfold detect_siblings, bind, ret. intros H.
  pose proof (list_cores_state "present" st) as Hs.
  destruct (list_cores "present" st) as [[cores|e] st1] eqn:Hl; simpl in Hs; subst st1;
    [|discriminate].
  destruct (collect_siblings cores st) as [[found|e] st2] eqn:Hc; [|discriminate].
  destruct (collect_siblings_spec cores st st2 found Hc) as [-> Hfound].
  injection H as <- <-. simpl.
  split; [reflexivity|]. split; [apply sorted_set_sorted|].
  split; [apply sorted_tuples_NoDup, sorted_set_sorted|].
  split; [reflexivity|]. exists cores. split; [reflexivity|].
  intros g. now rewrite sorted_set_elem.
Qed.

Lemma detect_siblings_groups_witness :
  exists cores,
    list_cores "present" four_sibling_files = (Ok cores, four_sibling_files) /\
    forall g, g ∈ thread_siblings four_threads_CPU <->
      exists c text, c ∈ cores /\
        files four_sibling_files !! core_file c "topology/thread_siblings_list"
          = Some text /\
        int_tuple (Py.split "," (Py.strip text)) = Ok g.
Proof.
  apply (detect_siblings_groups (initial_CPU ["powersave"] [] "cpufreq")
           four_threads_CPU four_sibling_files four_sibling_files).
  reflexivity.
Defined.

(** ** The state after [set_physical_cores_online] *)

Lemma foldl_insert_miss (path : Z -> string) (v : string) (cores : list Z) (p : string) :
  forall m : gmap string string,
    (forall c, c ∈ cores -> path c <> p) ->
    foldl (fun m c => <[path c := v]> m) m cores !! p = m !! p.
Proof.
  induction cores as [|x cores IH]; intros m H; [reflexivity|]. simpl.
  rewrite IH by (intros c Hc; apply H; now right).
  apply lookup_insert_ne. apply H. now left.
Qed.

Lemma group_status_frame (h : list Z) (s s1 : fs) :
  (forall c, c ∈ h -> files s1 !! online_path c = files s !! online_path c) ->
  group_status h s1 = group_status h s.
Proof.
  intros H. unfold group_status. destruct (zero_in h); [reflexivity|].
  destruct h as [|c0 h]; [reflexivity|]. rewrite (H c0) by now left. reflexivity.
Qed.

Lemma read_physical_core_status_group (CPU : CPUdict) (i : nat) (g : list Z) (s : fs) :
  thread_siblings CPU !! i = Some g ->
  physical_cores CPU = Z.of_nat (length (thread_siblings CPU)) ->
  read_physical_core_status CPU (Z.of_nat i) s = (group_status g s, s).
Proof.
  intros Hi Hlen. unfold read_physical_core_status.
  pose proof (lookup_lt_Some _ _ _ Hi) as Hlt.
  rewrite assert_true_bind.
  2:{ apply andb_true_intro. split; [apply Z.leb_le|apply Z.leb_le]; lia. }
  rewrite Nat2Z.id. unfold index at 1. rewrite Hi. unfold bind at 1. unfold ret at 1.
  unfold group_status. destruct (zero_in g); [reflexivity|].
  destruct g as [|c0 g]; [reflexivity|]. simpl.
  unfold bind, ret, index, read_datafile, bind, read_text, lift, ret. simpl.
  destruct (files s !! online_path c0) as [text|]; [|reflexivity].
  now destruct (Py.int (Py.strip (Py.readline text))).
Qed.

Lemma groups_disjoint (groups : list (list Z)) :
  NoDup (concat groups) ->
  forall i j g h c,
    groups !! i = Some g -> groups !! j = Some h -> i <> j ->
    c ∈ g -> c ∈ h -> False.
Proof.
  induction groups as [|x groups IH]; intros Hnd i j g h c Hi Hj Hne Hg Hh;
    [discriminate|].
  simpl in Hnd. apply NoDup_app in Hnd. destruct Hnd as (_ & Hdis & Hnd).
  destruct i as [|i], j as [|j]; simpl in Hi, Hj.
  - congruence.
  - injection Hi as ->. apply (Hdis c Hg). apply elem_of_concat. exists h.
    split; [|exact Hh]. apply list_elem_of_lookup. eauto.
  - injection Hj as ->. apply (Hdis c Hh). apply elem_of_concat. exists g.
    split; [|exact Hg]. apply list_elem_of_lookup. eauto.
  - apply (IH Hnd i j g h c Hi Hj); [congruence|assumption|assumption].
Qed.

Lemma writable_foldl_insert (path : Z -> string) (v : string) (cores : list Z)
    (s : fs) (l : list (string * string)) (p : string) :
  writable s p ->
  writable (mkFs (foldl (fun m c => <[path c := v]> m) (files s) cores) (locked s) l) p.
Proof.
  intros [He Hl]. split; [|exact Hl]. simpl.
  revert He. generalize (files s). induction cores as [|c cores IH]; intros m He;
    [exact He|].
  simpl. apply IH. now apply is_Some_insert.
Qed.

Section OnlineLoop.

Variable CPU : CPUdict.
Variable n : Z.
Variable st : fs.
Hypothesis Hwf : siblings_wf (thread_siblings CPU).
Hypothesis Hlen : physical_cores CPU = Z.of_nat (length (thread_siblings CPU)).
Hypothesis Hn : 0 < n.
Hypothesis Hwritable :
  Forall (fun g => zero_in g = false ->
                   Forall (fun c => writable st (online_path c)) g)
         (thread_siblings CPU).

(** A write of [v] to every sibling of group [k]. *)
Lemma write_group (k : nat) (g : list Z) (v : string) (b : bool) (s : fs) :
  thread_siblings CPU !! k = Some g ->
  zero_in g = false ->
  (forall p, writable st p -> writable s p) ->
  Py.int (Py.strip (Py.readline v)) = Ok (if b then 1 else 0) ->
  exists s1,
    for_each g (fun core_id => write_text (online_path core_id) v) s = (Ok tt, s1) /\
    (forall p, writable s p -> writable s1 p) /\
    group_status g s1 = Ok b /\
    forall h j, thread_siblings CPU !! j = Some h -> j <> k ->
                group_status h s1 = group_status h s.
Proof.
  intros Hk Hz Hl Hv.
  assert (Hw : Forall (fun c => writable s (online_path c)) g).
  { rewrite Forall_forall in Hwritable.
    assert (Hg : g ∈ thread_siblings CPU) by (apply list_elem_of_lookup; eauto).
    eapply Forall_impl; [exact (Hwritable g Hg Hz)|]. intros c Hc. now apply Hl. }
  rewrite (for_each_write_all _ _ _ _ Hw). eexists. split; [reflexivity|].
  split; [intros p; apply writable_foldl_insert|]. split.
  - unfold group_status. rewrite Hz.
    destruct g as [|c0 g].
    { destruct Hwf as [_ _ _ Hne _]. rewrite Forall_forall in Hne.
      exfalso. apply (Hne []); [|reflexivity]. apply list_elem_of_lookup. eauto. }
    cbn [files]. rewrite (foldl_insert_hit online_path v (c0 :: g) c0) by now left.
    rewrite Hv. now destruct b.
  - intros h j Hj Hne. apply group_status_frame. intros c Hc. cbn [files].
    apply foldl_insert_miss. intros c' Hc' Heq. apply core_file_inj in Heq. subst c'.
    destruct Hwf as [_ _ _ _ Hpart].
    exact (groups_disjoint _ Hpart j k h g c Hj Hk Hne Hc Hc').
Qed.

Lemma body_step (k : nat) (g : list Z) (b : bool) (s : fs) :
  thread_siblings CPU !! k = Some g ->
  (forall p, writable st p -> writable s p) ->
  group_status g s = Ok b ->
  exists s1,
    set_physical_cores_online_body CPU n (Z.of_nat k, g) s = (Ok tt, s1) /\
    (forall p, writable st p -> writable s1 p) /\
    group_status g s1 = Ok (Z.of_nat k <? n) /\
    forall h j, thread_siblings CPU !! j = Some h -> j <> k ->
                group_status h s1 = group_status h s.
Proof.
  intros Hk Hl Hb. unfold set_physical_cores_online_body.
  rewrite (bind_ok _ _ _ _ _
             (eq_trans (read_physical_core_status_group CPU k g s Hk Hlen)
                       (f_equal (fun r => (r, s)) Hb))).
  destruct (zero_in g) eqn:Hz.
  - assert (b = true).
    { unfold group_status in Hb. rewrite Hz in Hb. congruence. }
    subst b. pose proof Hz as Hz'. unfold zero_in in Hz'.
    apply bool_decide_eq_true in Hz'.
    pose proof (zero_group_first _ _ _ Hwf Hk Hz') as ->.
    replace (Z.of_nat 0 <? n) with true by (symmetry; apply Z.ltb_lt; lia).
    exists s. cbn [negb]. cbv iota.
    split; [reflexivity|]. split; [exact Hl|]. split; [exact Hb|auto].
  - destruct (Z.of_nat k <? n) eqn:Hkn, b; cbn [negb]; cbv iota.
    + exists s. split; [reflexivity|]. split; [exact Hl|]. split; [exact Hb|auto].
    + destruct (write_group k g "1" true s Hk Hz Hl eq_refl) as (s1 & E & L1 & S1 & F1).
      exists s1. split; [exact E|]. split; [auto|]. split; [exact S1|exact F1].
    + destruct (write_group k g "0" false s Hk Hz Hl eq_refl) as (s1 & E & L1 & S1 & F1).
      exists s1. split; [exact E|]. split; [auto|]. split; [exact S1|exact F1].
    + exists s. split; [reflexivity|]. split; [exact Hl|]. split; [exact Hb|auto].
Qed.

Lemma online_loop (suf : list (list Z)) :
  forall (pre : list (list Z)) (s : fs),
    thread_siblings CPU = pre ++ suf ->
    (forall p, writable st p -> writable s p) ->
    (forall j h, pre !! j = Some h -> group_status h s = Ok (Z.of_nat j <? n)) ->
    Forall (fun h => exists b, group_status h s = Ok b) suf ->
    exists s',
      for_each (imap (fun i x => (Z.of_nat (length pre + i), x)) suf)
               (set_physical_cores_online_body CPU n) s = (Ok tt, s') /\
      forall j h, thread_siblings CPU !! j = Some h ->
                  group_status h s' = Ok (Z.of_nat j <? n).
Proof.
  induction suf as [|g suf IH]; intros pre s HL Hl Hpre Hsuf.
  - exists s. split; [reflexivity|]. intros j h Hj. apply Hpre.
    rewrite HL, app_nil_r in Hj. exact Hj.
  - inversion Hsuf as [|? ? [b Hb] Hrest]; subst.
    assert (Hk : thread_siblings CPU !! length pre = Some g).
    { rewrite HL. rewrite lookup_app_r by lia. now rewrite Nat.sub_diag. }
    destruct (body_step (length pre) g b s Hk Hl Hb) as (s1 & E & L1 & S1 & F1).
    rewrite imap_cons, for_each_cons. rewrite Nat.add_0_r.
    rewrite (bind_ok _ _ _ _ _ E).
    destruct (IH (pre ++ [g]) s1) as (s' & E' & Hall).
    + rewrite HL. now rewrite <- app_assoc.
    + exact L1.
    + intros j h Hj. destruct (decide (j = length pre)) as [->|Hne].
      * rewrite lookup_app_r in Hj by lia. rewrite Nat.sub_diag in Hj.
        injection Hj as <-. exact S1.
      * assert (Hj' : pre !! j = Some h).
        { apply lookup_lt_Some in Hj as Hlt. rewrite length_app in Hlt. simpl in Hlt.
          rewrite lookup_app_l in Hj by lia. exact Hj. }
        rewrite (F1 h j); [now apply Hpre| |exact Hne].
        rewrite HL. now apply lookup_app_l_Some.
    + apply Forall_forall. intros h Hh. apply list_elem_of_lookup in Hh.
      destruct Hh as [j Hj]. rewrite Forall_forall in Hrest.
      destruct (Hrest h) as [bh Hbh]; [apply list_elem_of_lookup; eauto|].
      exists bh. rewrite <- Hbh. apply (F1 h (length pre + S j)%nat); [|lia].
      rewrite HL. rewrite lookup_app_r by lia.
      replace (length pre + S j - length pre)%nat with (S j) by lia. exact Hj.
    + exists s'. split; [|exact Hall]. rewrite <- E'. f_equal.
      apply imap_ext. intros i x _. simpl. rewrite length_app. simpl.
      f_equal. f_equal. lia.
Qed.

End OnlineLoop.

(** X24. On a well-formed sibling list whose length is [physical_cores],
    with [0 < n <= physical_cores], the status of every group readable
    and, in every group but that of core 0, the [online] file of every
    sibling there and accepting a write, [set_physical_cores_online n]
    succeeds and afterwards [read_physical_core_status] reports physical
    core [i] online exactly when [i < n]. *)
Theorem set_physical_cores_online_status (CPU : CPUdict) (n : Z) (st : fs) :
  siblings_wf (thread_siblings CPU) ->
  physical_cores CPU = Z.of_nat (length (thread_siblings CPU)) ->
  0 < n <= physical_cores CPU ->
  Forall (fun g => zero_in g = false ->
                   Forall (fun c => writable st (online_path c)) g)
         (thread_siblings CPU) ->
  Forall (fun g => exists b, group_status g st = Ok b) (thread_siblings CPU) ->
  exists st',
    set_physical_cores_online CPU n st = (Ok tt, st') /\
    forall i, (i < length (thread_siblings CPU))%nat ->
      read_physical_core_status CPU (Z.of_nat i) st' = (Ok (Z.of_nat i <? n), st').
Proof.
  intros Hwf Hlen Hn Hw Hr.
  destruct (online_loop CPU n st Hwf Hlen (proj1 Hn) Hw (thread_siblings CPU) [] st
              eq_refl (fun p H => H)) as (st' & E & Hall).
  - intros j h Hj. discriminate.
  - exact Hr.
  - exists st'. split.
    + unfold set_physical_cores_online. rewrite assert_true_bind.
      2:{ apply andb_true_intro. split; [apply Z.ltb_lt|apply Z.leb_le]; lia. }
      exact E.
    + intros i Hi. destruct (lookup_lt_is_Some_2 _ _ Hi) as [g Hg].
      rewrite (read_physical_core_status_group CPU i g st' Hg Hlen).
      now rewrite (Hall i g Hg).
Qed.

Lemma set_physical_cores_online_status_witness :
  exists st',
    set_physical_cores_online four_threads_CPU 1 four_threads_on = (Ok tt, st') /\
    forall i, (i < length (thread_siblings four_threads_CPU))%nat ->
      read_physical_core_status four_threads_CPU (Z.of_nat i) st'
      = (Ok (Z.of_nat i <? 1), st').
Proof.
  apply (set_physical_cores_online_status four_threads_CPU 1 four_threads_on).
  - exact four_threads_wf.
  - reflexivity.
  - simpl. lia.
  - constructor; [intros H; discriminate H|].
    constructor; [intros _; literal_writable|]. constructor.
  - repeat constructor; eexists; reflexivity.
Defined.

(** On that machine the second physical core is taken offline. *)
Example set_physical_cores_online_one :
  log (snd (set_physical_cores_online four_threads_CPU 1 four_threads_on))
  = [(online_path 1, "0"); (online_path 3, "0")].
Proof. reflexivity. Qed.

Lemma online_loop_settled (CPU : CPUdict) (n : Z) (s : fs) (suf : list (list Z)) :
  physical_cores CPU = Z.of_nat (length (thread_siblings CPU)) ->
  forall pre,
    thread_siblings CPU = pre ++ suf ->
    (forall j h, thread_siblings CPU !! j = Some h ->
                 group_status h s = Ok (Z.of_nat j <? n)) ->
    for_each (imap (fun i x => (Z.of_nat (length pre + i), x)) suf)
             (set_physical_cores_online_body CPU n) s = (Ok tt, s).
Proof.
  intros Hlen. induction suf as [|g suf IH]; intros pre HL Hall; [reflexivity|].
  assert (Hk : thread_siblings CPU !! length pre = Some g).
  { rewrite HL. rewrite lookup_app_r by lia. now rewrite Nat.sub_diag. }
  rewrite imap_cons, for_each_cons, Nat.add_0_r.
  assert (E : set_physical_cores_online_body CPU n (Z.of_nat (length pre), g) s
              = (Ok tt, s)).
  { unfold set_physical_cores_online_body.
    rewrite (bind_ok _ _ _ _ _
               (eq_trans (read_physical_core_status_group CPU _ g s Hk Hlen)
                         (f_equal (fun r => (r, s)) (Hall _ _ Hk)))).
    now destruct (Z.of_nat (length pre) <? n). }
  rewrite (bind_ok _ _ _ _ _ E).
  specialize (IH (pre ++ [g])). rewrite <- app_assoc in IH. specialize (IH HL Hall).
  etransitivity; [|exact IH]. f_equal.
  apply imap_ext. intros i x _. simpl. rewrite length_app. simpl.
  f_equal. f_equal. lia.
Qed.

(** X25. On a well-formed sibling list whose length is [physical_cores],
    with [0 < n <= physical_cores], the status of every group readable
    and, in every group but that of core 0, the [online] file of every
    sibling there and accepting a write, a second
    [set_physical_cores_online n] writes nothing and leaves the state as
    the first call made it. *)
Theorem set_physical_cores_online_twice (CPU : CPUdict) (n : Z) (st : fs) :
  siblings_wf (thread_siblings CPU) ->
  physical_cores CPU = Z.of_nat (length (thread_siblings CPU)) ->
  0 < n <= physical_cores CPU ->
  Forall (fun g => zero_in g = false ->
                   Forall (fun c => writable st (online_path c)) g)
         (thread_siblings CPU) ->
  Forall (fun g => exists b, group_status g st = Ok b) (thread_siblings CPU) ->
  exists st',
    set_physical_cores_online CPU n st = (Ok tt, st') /\
    set_physical_cores_online CPU n st' = (Ok tt, st').
Proof.
  intros Hwf Hlen Hn Hw Hr.
  destruct (online_loop CPU n st Hwf Hlen (proj1 Hn) Hw (thread_siblings CPU) [] st
              eq_refl (fun p H => H)) as (st' & E & Hall).
  - intros j h Hj. discriminate.
  - exact Hr.
  - assert (Ha : (0 <? n) && (n <=? physical_cores CPU) = true).
    { apply andb_true_intro. split; [apply Z.ltb_lt|apply Z.leb_le]; lia. }
    exists st'. split.
    + unfold set_physical_cores_online. rewrite (assert_true_bind _ _ _ Ha). exact E.
    + unfold set_physical_cores_online. rewrite (assert_true_bind _ _ _ Ha).
      exact (online_loop_settled CPU n st' (thread_siblings CPU) Hlen [] eq_refl Hall).
Qed.

Lemma set_physical_cores_online_twice_witness :
  exists st',
    set_physical_cores_online four_threads_CPU 1 four_threads_on = (Ok tt, st') /\
    set_physical_cores_online four_threads_CPU 1 st' = (Ok tt, st').
Proof.
  apply (set_physical_cores_online_twice four_threads_CPU 1 four_threads_on).
  - exact four_threads_wf.
  - reflexivity.
  - simpl. lia.
  - constructor; [intros H; discriminate H|].
    constructor; [intros _; literal_writable|]. constructor.
  - repeat constructor; eexists; reflexivity.
Defined.

(** ** A write that fails in the middle of a loop *)

Lemma for_each_write_stops (path : Z -> string) (v : string)
    (before after : list Z) (c : Z) :
  forall st,
    Forall (fun c' => writable st (path c')) before ->
    is_Some (files st !! path c) -> path c ∈ locked st ->
    for_each (before ++ c :: after) (fun c' => write_text (path c') v) st =
      (Err PermissionError,
       mkFs (foldl (fun m c' => <[path c' := v]> m) (files st) before)
            (locked st)
            (log st ++ map (fun c' => (path c', v)) before)).
Proof.
  induction before as [|b before IH]; intros st Hw He Hl.
  - simpl. unfold bind. rewrite (write_text_locked _ _ _ He Hl).
    destruct st; simpl. now rewrite app_nil_r.
  - inversion Hw as [|? ? Hb Hrest]; subst.
    change ((b :: before) ++ c :: after) with (b :: (before ++ c :: after)).
    rewrite for_each_cons. rewrite (bind_ok _ _ _ _ _ (write_text_ok _ v _ Hb)).
    rewrite IH.
    + simpl. now rewrite <- app_assoc.
    + eapply Forall_impl; [exact Hrest|]. intros c' Hc'. now apply writable_insert.
    + simpl. now apply is_Some_insert.
    + exact Hl.
Qed.

(** X26. [set_governor] has no rollback.  When the governor file of one
    online core is there but refuses the write, and those of the cores
    before it in the online list are there and accept it, the call ends
    in [PermissionError]; the cores before it have been written and stay
    on the new governor, and the governor file of every other core is
    as it was. *)
Theorem set_governor_no_rollback
    (CPU : CPUdict) (g g0 : string) (st : fs) (before after : list Z) (c : Z) :
  string_in g (governors CPU) = true ->
  read_governor 0 st = (Ok g0, st) ->
  g0 <> g ->
  list_cores "online" st = (Ok (before ++ c :: after), st) ->
  Forall (fun c' => writable st (governor_path c')) before ->
  is_Some (files st !! governor_path c) ->
  governor_path c ∈ locked st ->
  exists st',
    set_governor CPU g st = (Err PermissionError, st') /\
    log st' = log st ++ map (fun c' => (governor_path c', g)) before /\
    (forall c', c' ∈ before -> files st' !! governor_path c' = Some g) /\
    (forall c', c' ∉ before ->
       files st' !! governor_path c' = files st !! governor_path c').
Proof.
  intros Hin Hread Hne Hcores Hw He Hl.
  rewrite (set_governor_run CPU g g0 st Hin Hread).
  apply String.eqb_neq in Hne. rewrite Hne. change (negb false) with true. cbv iota.
  rewrite (bind_ok _ _ _ _ _ Hcores).
  rewrite (for_each_write_stops governor_path g before after c st Hw He Hl).
  eexists. split; [reflexivity|]. cbn [log files]. split; [reflexivity|]. split.
  - intros c' Hc'. now apply foldl_insert_hit.
  - intros c' Hc'. apply foldl_insert_miss. intros b Hb E.
    apply core_file_inj in E. congruence.
Qed.

Lemma set_governor_no_rollback_witness :
  exists st',
    set_governor two_governors "performance" locked_governor
      = (Err PermissionError, st') /\
    log st' = log locked_governor
                ++ map (fun c' => (governor_path c', "performance")) [0] /\
    (forall c', c' ∈ [0] -> files st' !! governor_path c' = Some "performance") /\
    (forall c', c' ∉ [0] ->
       files st' !! governor_path c' = files locked_governor !! governor_path c').
Proof.
  apply (set_governor_no_rollback two_governors "performance" "powersave"
           locked_governor [0] [2] 1); try reflexivity.
  - discriminate.
  - literal_writable.
  - literal_writable.
Defined.

(** ** The scaling driver and the keys it adds *)

Lemma int_value_error (s : string) (e : exn) : Py.int s = Err e -> e = ValueError.
Proof.
  unfold Py.int.
  destruct (match Py.strip s with
            | String "-" r => option_map Z.opp (Py.unsigned_literal r)
            | String "+" r => Py.unsigned_literal r
            | _ => Py.unsigned_literal (Py.strip s)
            end); [discriminate|]. congruence.
Qed.

Lemma read_perf_range_no_key_error (keys : DriverKeys) (p q : string) (st : fs) :
  min_perf_pct_path keys = Some p -> max_perf_pct_path keys = Some q ->
  fst (read_perf_range keys st) <> Err KeyError /\ snd (read_perf_range keys st) = st.
Proof.
  intros Hp Hq. unfold read_perf_range. rewrite Hp, Hq.
  unfold getitem, bind, ret, lift, read_text.
  destruct (files st !! p) as [a|]; simpl; [|split; [discriminate|reflexivity]].
  destruct (Py.int a) as [x|e] eqn:Ea; simpl.
  2:{ apply int_value_error in Ea. subst. split; [discriminate|reflexivity]. }
  destruct (files st !! q) as [b|]; simpl; [|split; [discriminate|reflexivity]].
  destruct (Py.int b) as [y|e] eqn:Eb; simpl.
  2:{ apply int_value_error in Eb. subst. split; [discriminate|reflexivity]. }
  split; [discriminate|reflexivity].
Qed.

Lemma write_text_no_key_error (p v : string) (st : fs) :
  fst (write_text p v st) <> Err KeyError.
Proof.
  unfold write_text. destruct (negb (dir_exists (Py.parent_prefix p) st));
    [discriminate|]. case_bool_decide; discriminate.
Qed.

(** X27. The scaling-driver branch of the start-up code reads and writes
    nothing but what it reads; the driver it records is [intel_pstate]
    or [cpufreq], and the two percentage paths and the base frequency
    are keys exactly for [intel_pstate].  So [read_perf_range] raises
    [KeyError] on a [cpufreq] machine whatever the files hold, while
    [set_perf_range], which tests the driver first, never does. *)
Theorem detect_driver_keys
    (CPU CPU' : CPUdict) (keys : DriverKeys) (minfreq maxfreq : Z) (st st' : fs) :
  detect_driver CPU minfreq maxfreq st = (Ok (CPU', keys), st') ->
  st' = st /\
  (scaling_driver CPU' = "intel_pstate" /\
     is_Some (min_perf_pct_path keys) /\ is_Some (max_perf_pct_path keys) /\
     is_Some (basefreq keys)
   \/
   scaling_driver CPU' = "cpufreq" /\
     min_perf_pct_path keys = None /\ max_perf_pct_path keys = None /\
     basefreq keys = None /\
     forall s, read_perf_range keys s = (Err KeyError, s)) /\
  (forall a b s, fst (set_perf_range CPU' keys a b s) <> Err KeyError).
Proof.
  intros H. unfold detect_driver in H. unfold bind at 1 in H.
  pose proof (read_datafile_state
                (CPU_DIR +:+ "cpufreq/policy0/scaling_driver") dtype_str st) as S1.
  destruct (read_datafile (CPU_DIR +:+ "cpufreq/policy0/scaling_driver")
              dtype_str st) as [[d|e] s1]; [|discriminate].
  simpl in S1. subst s1.
  destruct (String.eqb (lower d) "intel_pstate").
  - unfold bind in H.
    pose proof (read_datafile_state (CPUFREQ_DIR +:+ "base_frequency") Py.int st) as S2.
    destruct (read_datafile (CPUFREQ_DIR +:+ "base_frequency") Py.int st)
      as [[base|e] s2]; [|discriminate].
    simpl in S2. subst s2. unfold ret in H. injection H as <- <- <-.
    split; [reflexivity|]. split.
    + left. cbn. repeat split; eexists; reflexivity.
    + intros a b s. unfold set_perf_range, assert.
      destruct (b >=? a); [|discriminate].
      unfold bind at 1. unfold ret at 1.
      cbn [scaling_driver set_driver_key]. rewrite String.eqb_refl.
      unfold bind at 1.
      destruct (read_perf_range_no_key_error
                  (mkDriverKeys (Some (CPU_DIR +:+ "intel_pstate/min_perf_pct"))
                     (Some (CPU_DIR +:+ "intel_pstate/max_perf_pct")) (Some base)
                     (Py.str minfreq +:+ " - " +:+ Py.str base +:+ " - "
                      +:+ Py.str maxfreq +:+ " kHz"))
                  _ _ s eq_refl eq_refl) as [Hk Hs].
      destruct (read_perf_range _ s) as [[[lo hi]|e] s1]; simpl in Hk, Hs; subst s1;
        [|simpl; intros E; apply Hk; congruence].
      cbn [min_perf_pct_path max_perf_pct_path getitem fst snd].
      unfold bind, ret.
      destruct (negb (a =? lo)).
      * pose proof (write_text_no_key_error
                      (CPU_DIR +:+ "intel_pstate/min_perf_pct") (Py.str a) s) as W1.
        destruct (write_text (CPU_DIR +:+ "intel_pstate/min_perf_pct") (Py.str a) s)
          as [[[]|e] s1]; simpl in W1; [|simpl; exact W1].
        destruct (negb (b =? hi)); [apply write_text_no_key_error|discriminate].
      * destruct (negb (b =? hi)); [apply write_text_no_key_error|discriminate].
  - unfold ret in H. injection H as <- <- <-.
    split; [reflexivity|]. split.
    + right. cbn. repeat split.
    + intros a b s. unfold set_perf_range, assert.
      destruct (b >=? a); [|discriminate].
      unfold bind, ret. cbn [scaling_driver set_driver_key].
      change (String.eqb "cpufreq" "intel_pstate") with false. discriminate.
Qed.

Lemma detect_driver_keys_witness :
  pstate_machine = pstate_machine /\
  (scaling_driver pstate_driver_CPU = "intel_pstate" /\
     is_Some (min_perf_pct_path pstate_keys) /\
     is_Some (max_perf_pct_path pstate_keys) /\
     is_Some (basefreq pstate_keys)
   \/
   scaling_driver pstate_driver_CPU = "cpufreq" /\
     min_perf_pct_path pstate_keys = None /\ max_perf_pct_path pstate_keys = None /\
     basefreq pstate_keys = None /\
     forall s, read_perf_range pstate_keys s = (Err KeyError, s)) /\
  (forall a b s, fst (set_perf_range pstate_driver_CPU pstate_keys a b s)
                 <> Err KeyError).
Proof.
  apply (detect_driver_keys (initial_CPU ["powersave"; "performance"] [] "")
           pstate_driver_CPU pstate_keys 400000 3400000 pstate_machine pstate_machine).
  vm_compute. reflexivity.
Defined.

(** ** What the control functions never write *)

Lemma writes_only_list_cores (P : string -> Prop) (status : string) :
  writes_only P (list_cores status).
Proof. apply writes_only_silent. apply list_cores_state. Qed.

Lemma writes_only_exists (P : string -> Prop) (p : string) :
  writes_only P (exists_ p).
Proof. now apply writes_only_silent. Qed.

Lemma writes_only_if {A} (P : string -> Prop) (b : bool) (m1 m2 : M A) :
  writes_only P m1 -> writes_only P m2 -> writes_only P (if b then m1 else m2).
Proof. now destruct b. Qed.

(** X28. Each control function writes files of its own kind only, on
    every run, finished or failed: [set_governor] governor files,
    [set_policy] preference files, [set_freq_range] the two frequency
    limits, [set_all_cores_online] [online] files, and [set_tdp_limits]
    the two power limits and their [enabled] switch. *)
Theorem control_writes_own_files (CPU : CPUdict) :
  (forall g, writes_only governor_file (set_governor CPU g)) /\
  (forall p, writes_only policy_file (set_policy CPU p)) /\
  (forall lo hi, writes_only freq_file (set_freq_range lo hi)) /\
  writes_only online_file set_all_cores_online /\
  (forall PL1 PL2, writes_only limit_file (set_tdp_limits CPU PL1 PL2)).
Proof.
  repeat split.
  - intros g. unfold set_governor.
    apply writes_only_bind; [apply writes_only_assert|]. intros _.
    apply writes_only_bind; [apply writes_only_read_datafile|]. intros cur.
    apply writes_only_if; [|apply writes_only_ret].
    apply writes_only_bind; [apply writes_only_list_cores|]. intros cores.
    apply writes_only_for_each, Forall_forall. intros c _.
    apply writes_only_write_text. now exists c.
  - intros p. unfold set_policy.
    apply writes_only_bind; [apply writes_only_assert|]. intros _.
    apply writes_only_bind; [apply writes_only_read_datafile|]. intros cur.
    apply writes_only_if; [|apply writes_only_ret].
    apply writes_only_bind; [apply writes_only_list_cores|]. intros cores.
    apply writes_only_for_each, Forall_forall. intros c _.
    apply writes_only_write_text. now exists c.
  - intros lo hi. unfold set_freq_range, read_freq_range.
    apply writes_only_bind; [apply writes_only_assert|]. intros _.
    apply writes_only_bind.
    { apply writes_only_bind; [apply writes_only_read_datafile|]. intros a.
      apply writes_only_bind; [apply writes_only_read_datafile|]. intros b.
      apply writes_only_ret. }
    intros cur.
    apply writes_only_bind; [apply writes_only_list_cores|]. intros cores.
    apply writes_only_for_each, Forall_forall. intros c _.
    unfold set_freq_range_core. apply writes_only_bind.
    + apply writes_only_if; [|apply writes_only_ret].
      apply writes_only_write_text. exists c. now left.
    + intros _. apply writes_only_if; [|apply writes_only_ret].
      apply writes_only_write_text. exists c. now right.
  - unfold set_all_cores_online.
    apply writes_only_bind; [apply writes_only_list_cores|]. intros cores.
    apply writes_only_for_each, Forall_forall. intros c _.
    apply writes_only_bind; [apply writes_only_exists|]. intros b.
    apply writes_only_if; [|apply writes_only_ret].
    apply writes_only_write_text. now exists c.
  - intros PL1 PL2. unfold set_tdp_limits.
    apply writes_only_bind; [apply writes_only_assert|]. intros _.
    apply writes_only_if; [|apply writes_only_ret].
    apply writes_only_bind; [apply writes_only_exists|]. intros b1.
    apply writes_only_bind.
    { apply writes_only_if; [apply writes_only_exists|apply writes_only_ret]. }
    intros b2. apply writes_only_if; [|apply writes_only_ret].
    apply writes_only_bind.
    { apply writes_only_if; [|apply writes_only_ret].
      apply writes_only_write_text. now left. }
    intros _. apply writes_only_bind.
    { apply writes_only_if; [|apply writes_only_ret].
      apply writes_only_write_text. right. now left. }
    intros _. apply writes_only_if; [|apply writes_only_ret].
    apply writes_only_write_text. right. now right.
Qed.
